(** * Signal extraction of ralph-loop: the JSON locator and the rate-limit resolver

    A shallow embedding of [json_extractor.py] (function [find_json_containing])
    and [rate_limit_parser.py] (functions [find_rate_limit_pattern],
    [parse_time_with_timezone] and the decision part of [main]).

    Text is a list of characters.  Characters are the code points 0..255
    (Latin-1); [len], [find], slicing and the regular expressions of the
    source work on code points, so this is the source's view of a text
    restricted to that alphabet.  Python integers are [Z]; indices into a
    text that the source keeps non-negative are [nat].

    Part I holds every definition, Part II the lemmas and theorems. *)

From Stdlib Require Import Ascii String.
From Stdlib Require Import List ZArith Lia Bool Arith.
Import ListNotations.

Set Implicit Arguments.
Set Warnings "-register-all".

(* ================================================================= *)
(** * Part I: definitions *)
(* ================================================================= *)

Definition text := list ascii.

(** [T "abc"] is the text of a literal. *)
Definition T (s : string) : text := list_ascii_of_string s.

(** ** Python's built-in string operations *)
Module Py.

Definition dq : ascii := "034"%char.        (* the double quote *)
Definition bslash : ascii := "092"%char.    (* the backslash *)
Definition lbrace : ascii := "{"%char.
Definition rbrace : ascii := "}"%char.

Definition code (c : ascii) : nat := nat_of_ascii c.

Definition between (lo hi : nat) (c : ascii) : bool :=
  (lo <=? code c)%nat && (code c <=? hi)%nat.

(** [str.isspace] on one code point below 256; the class [\s] of [re] on
    [str] patterns is the same set. *)
Definition is_space (c : ascii) : bool :=
  between 9 13 c || between 28 32 c || (code c =? 133)%nat || (code c =? 160)%nat.

(** The class [\d] below 256: the decimal digits. *)
Definition is_digit (c : ascii) : bool := between 48 57 c.

(** [str.lower] on one code point below 256. *)
Definition lower_char (c : ascii) : ascii :=
  if between 65 90 c || (between 192 222 c && negb (code c =? 215)%nat)
  then ascii_of_nat (code c + 32) else c.

Definition lower (s : text) : text := map lower_char s.

Definition eqc (a b : ascii) : bool := Ascii.eqb a b.

Fixpoint eqt (a b : text) : bool :=
  match a, b with
  | [], [] => true
  | x :: a', y :: b' => eqc x y && eqt a' b'
  | _, _ => false
  end.

Fixpoint starts_with (w s : text) : bool :=
  match w, s with
  | [], _ => true
  | x :: w', y :: s' => eqc x y && starts_with w' s'
  | _ :: _, [] => false
  end.

(** [w in s] on strings. *)
Fixpoint contains (w s : text) : bool :=
  starts_with w s || match s with [] => false | _ :: s' => contains w s' end.

(** [s.find(w)]: the least index where [w] occurs, [None] for -1. *)
Fixpoint find_from (w s : text) (i : nat) : option nat :=
  if starts_with w s then Some i
  else match s with [] => None | _ :: s' => find_from w s' (S i) end.

Definition find (w s : text) : option nat := find_from w s 0.

(** [s[a:b]] for [0 <= a], [0 <= b]. *)
Definition slice (a b : nat) (s : text) : text := firstn (b - a) (skipn a s).

Fixpoint drop_while (p : ascii -> bool) (s : text) : text :=
  match s with
  | [] => []
  | c :: s' => if p c then drop_while p s' else s
  end.

Definition lstrip (s : text) : text := drop_while is_space s.
Definition rstrip_set (p : ascii -> bool) (s : text) : text :=
  rev (drop_while p (rev s)).
Definition rstrip (s : text) : text := rstrip_set is_space s.
Definition strip (s : text) : text := rstrip (lstrip s).

(** [re.sub(r'\s+', '', s)]: every white-space character is deleted. *)
Definition remove_spaces (s : text) : text :=
  filter (fun c => negb (is_space c)) s.

(** [s.split(sep)] for a one-character separator. *)
Fixpoint split_acc (sep : ascii) (cur : text) (s : text) : list text :=
  match s with
  | [] => [rev cur]
  | c :: s' => if eqc c sep then rev cur :: split_acc sep [] s'
               else split_acc sep (c :: cur) s'
  end.

Definition split (sep : ascii) (s : text) : list text := split_acc sep [] s.

(** [int(s)] for a string: white space around, an optional sign, decimal
    digits with single underscores between digits.  [None] is ValueError.
    The white space [int] skips is narrower than [str.isspace]: the
    separators 28 to 31 are not skipped.  The limit on the number of digits
    (4300 unless configured otherwise) is not part of the model: [int] below
    is the conversion for strings of at most that many digits. *)
Definition is_int_space (c : ascii) : bool :=
  between 9 13 c || (code c =? 32)%nat || (code c =? 133)%nat || (code c =? 160)%nat.

Definition digit_val (c : ascii) : Z := Z.of_nat (code c - 48).

Fixpoint digits_acc (acc : Z) (after_digit : bool) (s : text) : option Z :=
  match s with
  | [] => if after_digit then Some acc else None
  | c :: s' =>
      if is_digit c then digits_acc (10 * acc + digit_val c) true s'
      else if eqc c "_"%char && after_digit
           then match s' with
                | d :: _ => if is_digit d then digits_acc acc false s' else None
                | [] => None
                end
           else None
  end.

Definition int (s : text) : option Z :=
  match rstrip_set is_int_space (drop_while is_int_space s) with
  | c :: r =>
      if eqc c "-"%char then option_map Z.opp (digits_acc 0 false r)
      else if eqc c "+"%char then digits_acc 0 false r
      else digits_acc 0 false (c :: r)
  | [] => None
  end.

End Py.

(** ** The fragment of [re] the two programs use: a backtracking matcher *)
Module Re.

Inductive regex : Type :=
| Eps
| Lit (c : ascii)                       (* one literal character *)
| Cls (p : ascii -> bool)               (* a character class, or [.] *)
| Seq (r1 r2 : regex)
| Alt (r1 r2 : regex)                   (* r1|r2, r1 tried first *)
| Grp (n : nat) (r : regex)             (* capturing group number n *)
| Opt (r : regex)                       (* r?, greedy *)
| Rep (p : ascii -> bool) (lo : nat) (hi : option nat) (greedy : bool).
                                        (* a class repeated lo..hi times *)

(** Positions of the groups closed so far, the latest first. *)
Definition caps := list (nat * (nat * nat)).

Fixpoint group_span (n : nat) (cs : caps) : option (nat * nat) :=
  match cs with
  | [] => None
  | (m, sp) :: cs' => if (m =? n)%nat then Some sp else group_span n cs'
  end.

Definition kont := nat -> text -> caps -> option (nat * caps).

Definition or_else {A} (a : option A) (b : unit -> option A) : option A :=
  match a with Some x => Some x | None => b tt end.

Definition may_repeat (hi : option nat) : bool :=
  match hi with Some 0%nat => false | _ => true end.

Definition dec (hi : option nat) : option nat := option_map pred hi.

Section Matcher.
(** [re.IGNORECASE]: a literal matches a character of the same lower case. *)
Variable ignorecase : bool.

Definition lit_ok (c x : ascii) : bool :=
  if ignorecase then Py.eqc (Py.lower_char x) (Py.lower_char c) else Py.eqc x c.

Fixpoint rep (greedy : bool) (p : ascii -> bool) (lo : nat) (hi : option nat)
    (k : kont) (i : nat) (s : text) (cs : caps) {struct s} : option (nat * caps) :=
  let more (_ : unit) :=
    match s with
    | c :: s' => if p c && may_repeat hi
                 then rep greedy p (pred lo) (dec hi) k (S i) s' cs else None
    | [] => None
    end in
  let stop (_ : unit) := if (lo =? 0)%nat then k i s cs else None in
  if greedy then or_else (more tt) stop else or_else (stop tt) more.

Fixpoint rmatch (r : regex) (k : kont) (i : nat) (s : text) (cs : caps)
    {struct r} : option (nat * caps) :=
  match r with
  | Eps => k i s cs
  | Lit c => match s with
             | x :: s' => if lit_ok c x then k (S i) s' cs else None
             | [] => None
             end
  | Cls p => match s with
             | x :: s' => if p x then k (S i) s' cs else None
             | [] => None
             end
  | Seq r1 r2 => rmatch r1 (rmatch r2 k) i s cs
  | Alt r1 r2 => or_else (rmatch r1 k i s cs) (fun _ => rmatch r2 k i s cs)
  | Grp n r1 => rmatch r1 (fun j s' cs' => k j s' ((n, (i, j)) :: cs')) i s cs
  | Opt r1 => or_else (rmatch r1 k i s cs) (fun _ => k i s cs)
  | Rep p lo hi g => rep g p lo hi k i s cs
  end.

Definition accept : kont := fun j _ cs => Some (j, cs).

(** A match of [r] that starts exactly at position [i], where [s] is the
    text from [i] on. *)
Definition match_at (r : regex) (i : nat) (s : text) : option (nat * caps) :=
  rmatch r accept i s [].

(** [pattern.search]: the match at the least start position. *)
Fixpoint search_from (r : regex) (i : nat) (s : text) : option (nat * nat * caps) :=
  match match_at r i s with
  | Some (j, cs) => Some (i, j, cs)
  | None => match s with
            | [] => None
            | _ :: s' => search_from r (S i) s'
            end
  end.

Definition search (r : regex) (s : text) : option (nat * nat * caps) :=
  search_from r 0 s.

(** [re.finditer]: the matches from left to right, each search starting
    where the previous match ended (one further after an empty match). *)
Fixpoint finditer_from (fuel : nat) (r : regex) (i : nat) (s : text)
    : list (nat * nat * caps) :=
  match fuel with
  | O => []
  | S fuel' =>
      match search_from r i s with
      | None => []
      | Some (a, b, cs) =>
          let next := if (a <? b)%nat then b else S a in
          (a, b, cs) :: finditer_from fuel' r next (skipn (next - i) s)
      end
  end.

Definition finditer (r : regex) (s : text) : list (nat * nat * caps) :=
  finditer_from (S (length s)) r 0 s.
End Matcher.

(** [match.group(n)] of a match on [content]. *)
Definition group (content : text) (cs : caps) (n : nat) : text :=
  match group_span n cs with
  | Some (a, b) => Py.slice a b content
  | None => []
  end.

(** A literal word, character by character. *)
Fixpoint lits (w : text) : regex :=
  match w with
  | [] => Eps
  | c :: w' => Seq (Lit c) (lits w')
  end.

Definition word (s : string) : regex := lits (T s).

(** The classes of the patterns.  Below 256 each of them holds the same
    characters with and without [re.IGNORECASE]. *)
Definition any_char (c : ascii) : bool := true.          (* [.] under re.DOTALL *)
Definition not_rparen (c : ascii) : bool := negb (Py.eqc c ")"%char).   (* [^)] *)
Definition is_alpha (c : ascii) : bool :=                 (* [A-Za-z] *)
  Py.between 65 90 c || Py.between 97 122 c.

Definition star p := Rep p 0 None true.
Definition plus p := Rep p 1 None true.
Definition lazy_star p := Rep p 0 None false.
Definition times p lo hi := Rep p lo (Some hi) true.

End Re.

Declare Scope re_scope.
Delimit Scope re_scope with re.
Infix ";;" := Re.Seq (at level 61, right associativity) : re_scope.

(** ** JSON values, the JSON grammar and a reference decoder *)
Module Json.

(** What [json.loads] returns: dict, list, str, a number, bool or None.  A
    dict is kept as its members in document order; a number keeps its text. *)
Inductive value : Type :=
| JNull
| JBool (b : bool)
| JNum (lexeme : text)
| JStr (s : text)
| JArr (items : list value)
| JObj (members : list (text * value)).

Definition has_key (k : text) (members : list (text * value)) : bool :=
  existsb (fun kv => Py.eqt k (fst kv)) members.

Definition is_str (k : text) (v : value) : bool :=
  match v with JStr s => Py.eqt k s | _ => false end.

(** [k in parsed] for a string [k]: a key of a dict, an element of a list, a
    substring of a str; [None] is the TypeError of the other types. *)
Definition py_in (k : text) (parsed : value) : option bool :=
  match parsed with
  | JObj members => Some (has_key k members)
  | JArr items => Some (existsb (is_str k) items)
  | JStr s => Some (Py.contains k s)
  | JNull | JBool _ | JNum _ => None
  end.

(** *** The grammar of RFC 8259, as predicates on texts *)

Definition is_ws (c : ascii) : bool :=
  Py.eqc c " "%char || (Py.code c =? 9)%nat || (Py.code c =? 10)%nat
  || (Py.code c =? 13)%nat.

Definition ws (w : text) : Prop := forallb is_ws w = true.

Definition is_hex (c : ascii) : bool :=
  Py.is_digit c || Py.between 65 70 c || Py.between 97 102 c.

Definition is_escape (c : ascii) : bool :=
  existsb (Py.eqc c) (Py.dq :: Py.bslash :: T "/bfnrt").

(** The characters between the quotes of a string literal. *)
Inductive chars : text -> Prop :=
| chars_nil : chars []
| chars_plain c s :
    c <> Py.dq -> c <> Py.bslash -> (32 <= Py.code c)%nat ->
    chars s -> chars (c :: s)
| chars_escape c s :
    is_escape c = true -> chars s -> chars (Py.bslash :: c :: s)
| chars_unicode h1 h2 h3 h4 s :
    forallb is_hex [h1; h2; h3; h4] = true -> chars s ->
    chars (Py.bslash :: "u"%char :: h1 :: h2 :: h3 :: h4 :: s).

Definition string_lit (t : text) : Prop :=
  exists s, chars s /\ t = Py.dq :: s ++ [Py.dq].

Definition digits (t : text) : Prop := t <> [] /\ forallb Py.is_digit t = true.

Definition int_part (t : text) : Prop :=
  t = T "0" \/ (digits t /\ hd "0"%char t <> "0"%char).

Definition frac_part (t : text) : Prop :=
  t = [] \/ exists d, digits d /\ t = "."%char :: d.

Definition exp_part (t : text) : Prop :=
  t = [] \/ exists e sign d,
    In e [T "e"; T "E"] /\ In sign [T ""; T "+"; T "-"] /\ digits d /\
    t = e ++ sign ++ d.

Definition number (t : text) : Prop :=
  exists minus i f e,
    In minus [T ""; T "-"] /\ int_part i /\ frac_part f /\ exp_part e /\
    t = minus ++ i ++ f ++ e.

Inductive json : text -> Prop :=
| j_literal t : In t [T "true"; T "false"; T "null"] -> json t
| j_number t : number t -> json t
| j_string t : string_lit t -> json t
| j_array0 w : ws w -> json ("["%char :: w ++ T "]")
| j_array es : elements es -> json ("["%char :: es ++ T "]")
| j_object0 w : ws w -> json (Py.lbrace :: w ++ [Py.rbrace])
| j_object ms : members ms -> json (Py.lbrace :: ms ++ [Py.rbrace])
with element : text -> Prop :=
| j_element w1 v w2 : ws w1 -> json v -> ws w2 -> element (w1 ++ v ++ w2)
with elements : text -> Prop :=
| j_elements1 e : element e -> elements e
| j_elements e es : element e -> elements es -> elements (e ++ T "," ++ es)
with member : text -> Prop :=
| j_member w1 k w2 e :
    ws w1 -> string_lit k -> ws w2 -> element e ->
    member (w1 ++ k ++ w2 ++ T ":" ++ e)
with members : text -> Prop :=
| j_members1 m : member m -> members m
| j_members m ms : member m -> members ms -> members (m ++ T "," ++ ms).

(** A well-formed JSON object: the JSON texts between braces. *)
Definition object (t : text) : Prop :=
  exists body, (ws body \/ members body) /\ t = Py.lbrace :: body ++ [Py.rbrace].

Scheme json_mut := Minimality for json Sort Prop
  with element_mut := Minimality for element Sort Prop
  with elements_mut := Minimality for elements Sort Prop
  with member_mut := Minimality for member Sort Prop
  with members_mut := Minimality for members Sort Prop.
Combined Scheme json_mutind
  from json_mut, element_mut, elements_mut, member_mut, members_mut.

(** *** A reference decoder

    [json.loads] belongs to Python's library and is a parameter of the
    locator below.  [decode] is a decoder for the grammar above in the way of
    [json.loads] (white space around the value, strict strings, members in
    document order, the constants NaN and Infinity accepted), used to
    evaluate the locator on concrete texts.  It rejects an escape [\uXXXX]
    of a code point above 255. *)

Definition skip_ws (s : text) : text := Py.drop_while is_ws s.

Definition hex_val (c : ascii) : nat :=
  if Py.is_digit c then Py.code c - 48
  else if Py.between 65 70 c then Py.code c - 55 else Py.code c - 87.

Definition unescape (c : ascii) : option ascii :=
  if Py.eqc c Py.dq then Some Py.dq
  else if Py.eqc c Py.bslash then Some Py.bslash
  else if Py.eqc c "/"%char then Some "/"%char
  else if Py.eqc c "b"%char then Some (ascii_of_nat 8)
  else if Py.eqc c "f"%char then Some (ascii_of_nat 12)
  else if Py.eqc c "n"%char then Some (ascii_of_nat 10)
  else if Py.eqc c "r"%char then Some (ascii_of_nat 13)
  else if Py.eqc c "t"%char then Some (ascii_of_nat 9)
  else None.

(** The text after an opening quote: the decoded string and the rest. *)
Fixpoint scan_string (acc : text) (s : text) (fuel : nat) : option (text * text) :=
  match fuel with
  | O => None
  | S fuel' =>
    match s with
    | [] => None
    | c :: r =>
      if Py.eqc c Py.dq then Some (rev acc, r)
      else if Py.eqc c Py.bslash then
        match r with
        | "u"%char :: h1 :: h2 :: h3 :: h4 :: r' =>
            if forallb is_hex [h1; h2; h3; h4] then
              let n := ((hex_val h1 * 16 + hex_val h2) * 16 + hex_val h3) * 16
                       + hex_val h4 in
              if (n <? 256)%nat then scan_string (ascii_of_nat n :: acc) r' fuel'
              else None
            else None
        | e :: r' => match unescape e with
                     | Some x => scan_string (x :: acc) r' fuel'
                     | None => None
                     end
        | [] => None
        end
      else if (Py.code c <? 32)%nat then None
      else scan_string (c :: acc) r fuel'
    end
  end.

Definition take_while (p : ascii -> bool) (s : text) : text * text :=
  (firstn (length s - length (Py.drop_while p s)) s, Py.drop_while p s).

(** A number at the head of [s]: its text and the rest. *)
Definition scan_number (s : text) : option (text * text) :=
  let (minus, s1) := match s with
                     | "-"%char :: r => (T "-", r)
                     | _ => ([], s)
                     end in
  let (i, s2) := take_while Py.is_digit s1 in
  match i with
  | [] => None
  | d :: i' =>
    if Py.eqc d "0"%char && negb (Nat.eqb (length i') 0) then
      Some (minus ++ T "0", i' ++ s2)
    else
      let (f, s3) :=
        match s2 with
        | "."%char :: r =>
            let (d, r') := take_while Py.is_digit r in
            match d with [] => ([], s2) | _ => ("."%char :: d, r') end
        | _ => ([], s2)
        end in
      let (e, s4) :=
        match s3 with
        | x :: r =>
            if Py.eqc x "e"%char || Py.eqc x "E"%char then
              let (sign, r1) :=
                match r with
                | y :: r1 => if Py.eqc y "+"%char || Py.eqc y "-"%char
                             then ([y], r1) else ([], r)
                | [] => ([], r)
                end in
              let (d, r') := take_while Py.is_digit r1 in
              match d with [] => ([], s3) | _ => (x :: sign ++ d, r') end
            else ([], s3)
        | [] => ([], s3)
        end in
      Some (minus ++ i ++ f ++ e, s4)
  end.

Fixpoint scan_value (fuel : nat) (s : text) : option (value * text) :=
  match fuel with
  | O => None
  | S fuel' =>
    match s with
    | [] => None
    | c :: r =>
      if Py.eqc c Py.dq then
        option_map (fun p => (JStr (fst p), snd p)) (scan_string [] r (length r))
      else if Py.eqc c Py.lbrace then
        match skip_ws r with
        | x :: r' => if Py.eqc x Py.rbrace then Some (JObj [], r')
                     else scan_members fuel' [] (x :: r')
        | [] => None
        end
      else if Py.eqc c "["%char then
        match skip_ws r with
        | x :: r' => if Py.eqc x "]"%char then Some (JArr [], r')
                     else scan_items fuel' [] (x :: r')
        | [] => None
        end
      else if Py.starts_with (T "null") s then Some (JNull, skipn 4 s)
      else if Py.starts_with (T "true") s then Some (JBool true, skipn 4 s)
      else if Py.starts_with (T "false") s then Some (JBool false, skipn 5 s)
      else if Py.starts_with (T "NaN") s then Some (JNum (T "NaN"), skipn 3 s)
      else if Py.starts_with (T "Infinity") s
      then Some (JNum (T "Infinity"), skipn 8 s)
      else if Py.starts_with (T "-Infinity") s
      then Some (JNum (T "-Infinity"), skipn 9 s)
      else option_map (fun p => (JNum (fst p), snd p)) (scan_number s)
    end
  end
with scan_items (fuel : nat) (acc : list value) (s : text) : option (value * text) :=
  match fuel with
  | O => None
  | S fuel' =>
    match scan_value fuel' s with
    | None => None
    | Some (v, r) =>
      match skip_ws r with
      | x :: r' =>
          if Py.eqc x ","%char then scan_items fuel' (v :: acc) (skip_ws r')
          else if Py.eqc x "]"%char then Some (JArr (rev (v :: acc)), r')
          else None
      | [] => None
      end
    end
  end
with scan_members (fuel : nat) (acc : list (text * value)) (s : text)
    : option (value * text) :=
  match fuel with
  | O => None
  | S fuel' =>
    match s with
    | q :: r =>
      if Py.eqc q Py.dq then
        match scan_string [] r (length r) with
        | None => None
        | Some (k, r1) =>
          match skip_ws r1 with
          | c :: r2 =>
            if Py.eqc c ":"%char then
              match scan_value fuel' (skip_ws r2) with
              | None => None
              | Some (v, r3) =>
                match skip_ws r3 with
                | x :: r4 =>
                    if Py.eqc x ","%char
                    then scan_members fuel' ((k, v) :: acc) (skip_ws r4)
                    else if Py.eqc x Py.rbrace
                    then Some (JObj (rev ((k, v) :: acc)), r4)
                    else None
                | [] => None
                end
              end
            else None
          | [] => None
          end
        end
      else None
    | [] => None
    end
  end.

Definition decode (s : text) : option value :=
  match scan_value (S (length s)) (skip_ws s) with
  | Some (v, r) => match skip_ws r with [] => Some v | _ => None end
  | None => None
  end.

End Json.

(** ** [json_extractor.py] *)
Module JsonExtractor.
Import Re.

(** [r'```json\s*(.*?)```'], compiled with [re.DOTALL]. *)
Definition code_block_pattern : regex :=
  (word "```json" ;; star Py.is_space ;; Grp 1 (lazy_star any_char) ;; word "```")%re.

Definition char_is (content : text) (i : nat) (c : ascii) : bool :=
  match nth_error content i with
  | Some x => Py.eqc x c
  | None => false
  end.

(** [while start > 0 and content[start] != '{': start -= 1] *)
Fixpoint opening_brace (content : text) (start : nat) : nat :=
  match start with
  | O => O
  | S p => if char_is content start Py.lbrace then start
           else opening_brace content p
  end.

(** The loop [for i, char in enumerate(content[start:], start)]: [cs] is the
    text from index [i] on; the result is [(depth, end)] when the loop is
    left, by [break] or at the end of the text. *)
Fixpoint match_brackets (cs : text) (i : nat) (depth : Z)
    (in_string escape_next : bool) (end_ : nat) : Z * nat :=
  match cs with
  | [] => (depth, end_)
  | char :: cs' =>
      if escape_next then
        match_brackets cs' (S i) depth in_string false end_
      else if Py.eqc char Py.bslash && in_string then
        match_brackets cs' (S i) depth in_string true end_
      else if Py.eqc char Py.dq && negb escape_next then
        match_brackets cs' (S i) depth (negb in_string) escape_next end_
      else if in_string then
        match_brackets cs' (S i) depth in_string escape_next end_
      else if Py.eqc char Py.lbrace then
        match_brackets cs' (S i) (depth + 1) in_string escape_next end_
      else if Py.eqc char Py.rbrace then
        if (depth - 1 =? 0)%Z then (depth - 1, S i)%Z
        else match_brackets cs' (S i) (depth - 1) in_string escape_next end_
      else
        match_brackets cs' (S i) depth in_string escape_next end_
  end.

Section Locator.
(** [json.loads]; [None] when it raises. *)
Variable json_loads : text -> option Json.value.

(** [try: parsed = json.loads(t); if json_type in parsed: ... except: pass]:
    true when the guarded [return] is reached. *)
Definition loads_with (json_type t : text) : bool :=
  match json_loads t with
  | Some parsed => match Json.py_in json_type parsed with
                   | Some b => b
                   | None => false
                   end
  | None => false
  end.

(** The stripped group 1 of every match of [code_block_pattern]. *)
Definition code_blocks (content : text) : list text :=
  map (fun m => Py.strip (group content (snd m) 1))
      (finditer false code_block_pattern content).

(** Method 1: the first block that passes the two tests. *)
Fixpoint first_block (json_type : text) (blocks : list text) : option text :=
  match blocks with
  | [] => None
  | block :: rest =>
      if Py.contains json_type block && loads_with json_type block
      then Some block
      else first_block json_type rest
  end.

(** Method 2: bracket matching around the first quoted key. *)
Definition bracket_method (content json_type : text) : option text :=
  let search_key := Py.dq :: json_type ++ [Py.dq] in
  match Py.find search_key content with
  | None => None
  | Some key_pos =>
      let start := opening_brace content key_pos in
      if negb (char_is content start Py.lbrace) then None
      else
        let (depth, end_) :=
          match_brackets (skipn start content) start 0 false false start in
        if negb (depth =? 0)%Z then None
        else
          let candidate := Py.slice start end_ content in
          if loads_with json_type candidate then Some candidate else None
  end.

Definition find_json_containing (content json_type : text) : option text :=
  match first_block json_type (code_blocks content) with
  | Some block => Some block
  | None => bracket_method content json_type
  end.

(** The locator of [main]: the text found is decoded once more. *)
Definition locate (content json_type : text) : option Json.value :=
  match find_json_containing content json_type with
  | Some result => json_loads result
  | None => None
  end.
End Locator.

(** Texts of the examples are written with an apostrophe for the double
    quote: [q "{'a':1}"] is the text [{"a":1}]. *)
Definition q (s : string) : text :=
  map (fun c => if Py.eqc c "'"%char then Py.dq else c) (T s).

Definition nl : text := [ascii_of_nat 10].

End JsonExtractor.

(** ** Exceptions that leave a function

    The two exceptions the calls of [datetime] in [parse_time_with_timezone]
    raise outside a [try] block. *)
Inductive exn : Type := ValueError | OverflowError.

Inductive result (A : Type) : Type :=
| Ok (a : A)
| Raise (e : exn).
Arguments Ok {A} a.
Arguments Raise {A} e.

(** ** The part of [datetime] and [zoneinfo] the resolver uses *)
Module DateTime.
Open Scope Z_scope.

(** An aware [datetime] of a fixed zone object: the wall-clock fields, with
    [day] the number of days of the wall date since 1970-01-01, and [fold].
    The dates a [datetime] holds are those from [MINDAY] to [MAXDAY]. *)
Record datetime : Type := {
  day : Z; hour : Z; minute : Z; second : Z; microsecond : Z; fold : Z
}.

(** A zone: [utcoffset] in seconds of a wall time (it may look at [fold]),
    and [fromutc] of an instant given in microseconds since the epoch. *)
Record tzinfo : Type := {
  utcoffset : datetime -> Z;
  fromutc : Z -> datetime
}.

Definition wall_seconds (dt : datetime) : Z :=
  day dt * 86400 + hour dt * 3600 + minute dt * 60 + second dt.

Definition of_wall (w us fd : Z) : datetime :=
  {| day := w / 86400;
     hour := (w mod 86400) / 3600;
     minute := (w mod 3600) / 60;
     second := w mod 60;
     microsecond := us;
     fold := fd |}.

(** The arguments of [replace] are read as C ints before any of them is
    looked at. *)
Definition fits_int (z : Z) : bool := (- 2147483648 <=? z) && (z <=? 2147483647).

(** [dt.replace(hour=h, minute=m, second=0, microsecond=0)]: the date, the
    zone and [fold] are kept; an argument that is no C int raises
    OverflowError, a field out of range raises ValueError. *)
Definition replace (dt : datetime) (h m : Z) : result datetime :=
  if negb (fits_int h && fits_int m) then Raise OverflowError
  else if negb ((0 <=? h) && (h <=? 23)) then Raise ValueError
  else if negb ((0 <=? m) && (m <=? 59)) then Raise ValueError
  else Ok {| day := day dt; hour := h; minute := m; second := 0;
             microsecond := 0; fold := fold dt |}.

Fixpoint lex_le (a b : list Z) : bool :=
  match a, b with
  | x :: a', y :: b' => (x <? y) || ((x =? y) && lex_le a' b')
  | _, _ => true
  end.

Definition fields (dt : datetime) : list Z :=
  [day dt; hour dt; minute dt; second dt; microsecond dt].

(** [a <= b] for two datetimes of the same zone object: the wall-clock
    fields are compared, [fold] and the offset are not looked at. *)
Definition le (a b : datetime) : bool := lex_le (fields a) (fields b).

(** Days since 1970-01-01 of a date of the proleptic Gregorian calendar. *)
Definition days_from_civil (y m d : Z) : Z :=
  let y' := if m <=? 2 then y - 1 else y in
  let era := y' / 400 in
  let yoe := y' - era * 400 in
  let mp := (m + 9) mod 12 in
  let doy := (153 * mp + 2) / 5 + d - 1 in
  let doe := yoe * 365 + yoe / 4 - yoe / 100 + doy in
  era * 146097 + doe - 719468.

(** [date.min] and [date.max]: 0001-01-01 and 9999-12-31. *)
Definition MINDAY : Z := Eval cbv in days_from_civil 1 1 1.
Definition MAXDAY : Z := Eval cbv in days_from_civil 9999 12 31.

(** The wall clock [d] days and [s] seconds after the one of [dt]. *)
Definition shifted (dt : datetime) (d s : Z) : datetime :=
  let secs := hour dt * 3600 + minute dt * 60 + second dt + s in
  let r := secs mod 86400 in
  {| day := day dt + d + secs / 86400;
     hour := r / 3600;
     minute := (r mod 3600) / 60;
     second := r mod 60;
     microsecond := microsecond dt;
     fold := 0 |}.

(** [dt + timedelta(days=d, seconds=s)]: wall-clock arithmetic; the sum has
    [fold] 0, and a sum whose date is outside [MINDAY] to [MAXDAY] raises
    OverflowError. *)
Definition add (dt : datetime) (d s : Z) : result datetime :=
  let sum := shifted dt d s in
  if (MINDAY <=? day sum) && (day sum <=? MAXDAY) then Ok sum
  else Raise OverflowError.

(** The instant of [dt] in microseconds since the epoch, and
    [int(dt.timestamp())]. *)
Definition instant_us (tz : tzinfo) (dt : datetime) : Z :=
  (wall_seconds dt - utcoffset tz dt) * 1000000 + microsecond dt.

Definition timestamp_int (tz : tzinfo) (dt : datetime) : Z :=
  Z.quot (instant_us tz dt) 1000000.

(** A zone of one fixed offset, such as UTC. *)
Definition fixed_zone (off : Z) : tzinfo :=
  {| utcoffset := fun _ => off;
     fromutc := fun u => of_wall (u / 1000000 + off) (u mod 1000000) 0 |}.

(** A zone with one transition at the instant [tr] (in seconds) from the
    offset [before] to the smaller offset [after]: the clock is set back,
    and the wall times of the repeated interval carry [fold] 1 the second
    time. *)
Definition fall_back_zone (tr before after : Z) : tzinfo :=
  {| utcoffset := fun dt =>
       let w := wall_seconds dt in
       if w <? tr + after then before
       else if w <? tr + before then (if fold dt =? 0 then before else after)
       else after;
     fromutc := fun u =>
       let s := u / 1000000 in
       if s <? tr then of_wall (s + before) (u mod 1000000) 0
       else of_wall (s + after) (u mod 1000000)
                    (if s <? tr + (before - after) then 1 else 0) |}.

(** America/New_York around 2025-11-02 06:00:00 UTC, when its clocks go
    from 02:00 EDT (UTC-4) back to 01:00 EST (UTC-5). *)
Definition new_york_autumn_2025 : tzinfo :=
  fall_back_zone 1762063200 (-14400) (-18000).

(** The instant, in microseconds since the epoch, of a UTC date and time. *)
Definition utc_us (y m d hh mm ss : Z) : Z :=
  (days_from_civil y m d * 86400 + hh * 3600 + mm * 60 + ss) * 1000000.

End DateTime.

(** ** [rate_limit_parser.py] *)
Module RateLimitParser.
Import Re DateTime.

Definition RATE_LIMIT_BUFFER_SECONDS : Z := 60.
Definition BARE_PATTERN_MAX_CONTENT_SIZE : nat := 500.

Definition am_pm : regex := Alt (word "am") (word "pm").
Definition zone_label : regex :=                      (* \s*\(([^)]+)\) *)
  (star Py.is_space ;; Lit "("%char ;; Grp 2 (plus not_rparen) ;; Lit ")"%char)%re.
Definition resets : regex :=                          (* resets?\s+ *)
  (word "reset" ;; Opt (Lit "s"%char) ;; plus Py.is_space)%re.

(** [resets?\s+(\d{1,2}\s*(?:am|pm))\s*\(([^)]+)\)] *)
Definition pattern1 : regex :=
  (resets ;; Grp 1 (times Py.is_digit 1 2 ;; star Py.is_space ;; am_pm) ;;
   zone_label)%re.

(** [resets?\s+(\d{1,2}:\d{2}\s*(?:am|pm))\s*\(([^)]+)\)] *)
Definition pattern2 : regex :=
  (resets ;;
   Grp 1 (times Py.is_digit 1 2 ;; Lit ":"%char ;; times Py.is_digit 2 2 ;;
          star Py.is_space ;; am_pm) ;;
   zone_label)%re.

(** [resets?\s+(\d{1,2}:\d{2})\s*\(([^)]+)\)] *)
Definition pattern3 : regex :=
  (resets ;;
   Grp 1 (times Py.is_digit 1 2 ;; Lit ":"%char ;; times Py.is_digit 2 2) ;;
   zone_label)%re.

(** [resets?\s+[A-Za-z]+\s+\d{1,2},?\s+\d{4},?\s+(\d{1,2}(?::\d{2})?\s*(?:am|pm))\s*\(([^)]+)\)] *)
Definition pattern4 : regex :=
  (resets ;; plus is_alpha ;; plus Py.is_space ;;
   times Py.is_digit 1 2 ;; Opt (Lit ","%char) ;; plus Py.is_space ;;
   times Py.is_digit 4 4 ;; Opt (Lit ","%char) ;; plus Py.is_space ;;
   Grp 1 (times Py.is_digit 1 2 ;;
          Opt (Lit ":"%char ;; times Py.is_digit 2 2) ;;
          star Py.is_space ;; am_pm) ;;
   zone_label)%re.

Definition bare_patterns : list regex :=
  [ (word "you" ;; Opt (Lit "'"%char) ;; word "ve hit your limit")%re;
    word "rate limit exceeded";
    word "rate limited";
    word "too many requests" ].

(** All patterns are used with [re.IGNORECASE]. *)
Definition captured (content : text) (pattern : regex) : option (text * text) :=
  match search true pattern content with
  | Some (_, _, cs) =>
      Some (Py.strip (group content cs 1), Py.strip (group content cs 2))
  | None => None
  end.

Fixpoint first_captured (content : text) (patterns : list regex)
    : option (text * text) :=
  match patterns with
  | [] => None
  | pattern :: rest =>
      match captured content pattern with
      | Some c => Some c
      | None => first_captured content rest
      end
  end.

Definition time_patterns : list regex := [pattern2; pattern1; pattern3; pattern4].

Definition bare_match (content : text) : bool :=
  existsb (fun p => match search true p content with
                    | Some _ => true
                    | None => false
                    end) bare_patterns.

(** The pair of captures ([None] for [(None, None)]) and the flag. *)
Definition find_rate_limit_pattern (content : text)
    : option (text * text) * bool :=
  match first_captured content time_patterns with
  | Some c => (Some c, true)
  | None =>
      if (length content <=? BARE_PATTERN_MAX_CONTENT_SIZE)%nat
         && bare_match content
      then (None, true)
      else (None, false)
  end.

Definition apm (c : ascii) : bool :=
  Py.eqc c "a"%char || Py.eqc c "p"%char || Py.eqc c "m"%char.

Definition int2 (h m : text) : option (Z * Z) :=
  match Py.int h with
  | Some hour => match Py.int m with
                 | Some minute => Some (hour, minute)
                 | None => None
                 end
  | None => None
  end.

(** [hour, minute = s.split(':')] followed by the two [int] calls. *)
Definition split_hour_minute (s : text) : option (Z * Z) :=
  match Py.split ":"%char s with
  | [h; m] => int2 h m
  | _ => None
  end.

(** The conversion to the 24-hour clock, on the text without spaces. *)
Definition to_24 (time_str_lower : text) (hour : Z) : Z :=
  if Py.contains (T "pm") time_str_lower && negb (hour =? 12)%Z then (hour + 12)%Z
  else if Py.contains (T "am") time_str_lower && (hour =? 12)%Z then 0%Z
  else hour.

(** The part of [parse_time_with_timezone] that reads the time string:
    the hour and the minute, or [None] where the source returns None. *)
Definition parse_hour_minute (time_str : text) : option (Z * Z) :=
  let time_str_lower := Py.strip (Py.lower time_str) in
  if negb (Py.contains (T "am") time_str_lower)
     && negb (Py.contains (T "pm") time_str_lower) then
    if Py.contains (T ":") time_str_lower
    then split_hour_minute time_str_lower
    else None
  else
    let time_str_lower := Py.remove_spaces time_str_lower in
    let parsed :=
      if Py.contains (T ":") time_str_lower
      then split_hour_minute (Py.rstrip_set apm time_str_lower)
      else match Py.int (Py.rstrip_set apm time_str_lower) with
           | Some hour => Some (hour, 0%Z)
           | None => None
           end in
    match parsed with
    | Some (hour, minute) => Some (to_24 time_str_lower hour, minute)
    | None => None
    end.

(** The three outcomes of the resolver. *)
Inductive RateLimitSignal : Type :=
| NotDetected
| DetectedUnparseable
| DetectedResolved (epochSeconds : Z) (reset_time : datetime) (timeZoneId : text).

Section Resolver.
(** [ZoneInfo(tz_str)]; [None] when it raises. *)
Variable ZoneInfo : text -> option tzinfo.
(** The clock read by [datetime.now], in microseconds since the epoch. *)
Variable clock : Z.

(** The result is the triple of the source with the datetime itself in
    the place of its [strftime] rendering. *)
Definition parse_time_with_timezone (time_str tz_str : text)
    : result (option (Z * datetime * text)) :=
  match ZoneInfo tz_str with
  | None => Ok None
  | Some tz =>
      let now := fromutc tz clock in
      match parse_hour_minute time_str with
      | None => Ok None
      | Some (hour, minute) =>
          match replace now hour minute with
          | Raise e => Raise e
          | Ok reset_time =>
              match (if le reset_time now then add reset_time 1 0
                     else Ok reset_time) with
              | Raise e => Raise e
              | Ok reset_time =>
                  match add reset_time 0 RATE_LIMIT_BUFFER_SECONDS with
                  | Raise e => Raise e
                  | Ok reset_time =>
                      Ok (Some (timestamp_int tz reset_time, reset_time, tz_str))
                  end
              end
          end
      end
  end.

(** [main] after the file is read: exit code 1 is [NotDetected], 2 is
    [DetectedUnparseable], 0 with the three lines is [DetectedResolved]. *)
Definition resolve (content : text) : result RateLimitSignal :=
  let (found, detected) := find_rate_limit_pattern content in
  if negb detected then Ok NotDetected
  else match found with
       | None => Ok DetectedUnparseable
       | Some (time_str, tz_str) =>
           match parse_time_with_timezone time_str tz_str with
           | Raise e => Raise e
           | Ok None => Ok DetectedUnparseable
           | Ok (Some (epoch, human, tz)) => Ok (DetectedResolved epoch human tz)
           end
       end.
End Resolver.

(** A zone database with the two zones of the examples. *)
Definition zones (tz_str : text) : option tzinfo :=
  if Py.eqt tz_str (T "UTC") then Some (fixed_zone 0)
  else if Py.eqt tz_str (T "America/New_York") then Some new_york_autumn_2025
  else None.

End RateLimitParser.

(** ** Vocabulary of the statements of Part II *)
Module Spec.
Import JsonExtractor.

(** *** The locator *)

(** A character that leaves the scan state alone outside a string. *)
Definition inert (c : ascii) : bool :=
  negb (Py.eqc c Py.dq) && negb (Py.eqc c Py.lbrace) && negb (Py.eqc c Py.rbrace).

(** The scan runs through [t] at a positive depth, outside a string, and
    is in the same state after it. *)
Definition passes (t : text) : Prop :=
  forall (d : Z) (rest : text) (i e : nat),
    (1 <= d)%Z ->
    match_brackets (t ++ rest) i d false false e
    = match_brackets rest (length t + i) d false false e.

Definition not_lbrace (c : ascii) : bool := negb (Py.eqc c Py.lbrace).

(** The literal word [w] is read at the head of [s]. *)
Fixpoint lits_ok (ignorecase : bool) (w s : text) : bool :=
  match w, s with
  | [], _ => true
  | c :: w', x :: s' => Re.lit_ok ignorecase c x && lits_ok ignorecase w' s'
  | _ :: _, [] => false
  end.

(** [block] decodes to an object that has [key] among its top-level keys. *)
Definition object_with_key (json_loads : text -> option Json.value)
    (key block : text) : bool :=
  match json_loads block with
  | Some (Json.JObj members) => Json.has_key key members
  | _ => false
  end.

(** [block] decodes to a JSON array or a JSON string. *)
Definition array_or_string (json_loads : text -> option Json.value)
    (block : text) : bool :=
  match json_loads block with
  | Some (Json.JArr _) | Some (Json.JStr _) => true
  | _ => false
  end.

(** The object of the specification's example, with a closing brace and an
    escaped quote inside a string value (written with [q]). *)
Definition ralph_example : text := q "{'RALPH_STATUS':'a } b \' c'}".

(** An object whose marker key comes after a nested object. *)
Definition nested_example : text := q "{'a':{'x':1},'KEY':2}".

(** An object with an opening brace inside a string value that comes before
    the marker key. *)
Definition brace_in_string_example : text :=
  q "{'note':'a { b','RALPH_STATUS':'x'}".

(** A fenced block around [body], each fence on a line of its own. *)
Definition fenced (body : text) : text :=
  T "```json" ++ nl ++ body ++ nl ++ T "```".

(** A fenced object whose key KEY is written with an escape for its first
    letter, followed by a bare object with the key. *)
Definition escaped_key_block : text := q "{'\u004bEY':1}".
Definition escaped_key_text : text :=
  fenced escaped_key_block ++ q " and later {'KEY':2}".

(** A fenced array that holds the marker key as a string. *)
Definition array_block : text := q "['RALPH_STATUS']".

(** *** The resolver *)

(** The phrases the bare patterns of the source stand for, in lower case. *)
Definition bare_phrases : list text :=
  [ T "you've hit your limit"; T "youve hit your limit";
    T "rate limit exceeded"; T "rate limited"; T "too many requests" ].

(** [w], given in lower case, occurs in [content] whatever the case. *)
Definition occurs (content w : text) : bool := Py.contains w (Py.lower content).

Definition limit_notice : text :=
  T "Usage limit reached - resets 6pm (UTC). Please try again later.".

Fixpoint repeat_text (n : nat) (t : text) : text :=
  match n with
  | O => []
  | S n' => t ++ repeat_text n' t
  end.

(** A document of 638 characters that discusses rate limits. *)
Definition long_discussion : text :=
  repeat_text 22 (T "the client was rate limited. ").

(** The number written by a string of decimal digits. *)
Definition decimal (ds : text) : Z :=
  fold_left (fun acc c => (10 * acc + Py.digit_val c)%Z) ds 0%Z.

(** The minutes of a captured time: nothing, or a colon and digits. *)
Definition minutes_field (mins : text) : bool :=
  match mins with
  | [] => true
  | c :: mm => Py.eqc c ":"%char && negb (Nat.eqb (length mm) 0)
               && forallb Py.is_digit mm
  end.

Definition minute_of (mins : text) : Z := decimal (tl mins).

(** The 24-hour clock in the words of the specification: 12 am is 0, 1 to 11
    pm gain 12, 12 pm stays 12, 1 to 11 am stay. *)
Definition clock24 (marker : text) (h : Z) : Z :=
  if Py.eqt marker (T "pm")
  then (if (h =? 12)%Z then 12 else h + 12)%Z
  else (if (h =? 12)%Z then 0 else h)%Z.

(** The characters of the digits and the colon of a time. *)
Definition time_char (c : ascii) : bool := Py.is_digit c || Py.eqc c ":"%char.




End Spec.

(** ** [main] of [json_extractor.py] *)
Module JsonExtractorMain.
Import JsonExtractor.

(** What a run leaves behind: the exit code and, when a line is printed on
    standard output, the value handed to [json.dumps]. *)
Record outcome : Type := { exit_code : Z; dumped : option Json.value }.

Section Main.
(** [json.loads]; [None] when it raises. *)
Variable json_loads : text -> option Json.value.
(** [open(path).read()]; [None] when it raises. *)
Variable read_file : text -> option text.

Definition failure : outcome := {| exit_code := 1; dumped := None |}.

(** [if result:] a string is true when it is not empty. *)
Definition truthy (result : option text) : option text :=
  match result with
  | Some [] => None
  | other => other
  end.

Definition main (argv : list text) : outcome :=
  match argv with
  | [_; file_path; json_type] =>
      match read_file file_path with
      | None => failure
      | Some content =>
          match truthy (find_json_containing json_loads content json_type) with
          | Some result =>
              match json_loads result with
              | Some parsed => {| exit_code := 0; dumped := Some parsed |}
              | None => failure
              end
          | None => failure
          end
      end
  | _ => failure
  end.
End Main.

(** [c] is a contiguous part of [s]. *)
Definition part_of (c s : text) : Prop := exists p q, s = p ++ c ++ q.

Definition not_rbrace (c : ascii) : bool := negb (Py.eqc c Py.rbrace).

(** A reader that knows one file. *)
Definition one_file (path content : text) (p : text) : option text :=
  if Py.eqt p path then Some content else None.

End JsonExtractorMain.

(** ** Vocabulary of the further statements on the resolver *)
Module ResolverSpec.
Import DateTime RateLimitParser.

(** The fields [replace] accepts. *)
Definition in_range (h m : Z) : Prop := (0 <= h <= 23 /\ 0 <= m <= 59)%Z.

(** A date to which two days can be added: 0001-01-01 to 9999-12-29. *)
Definition two_days_left (now : datetime) : Prop :=
  (MINDAY <= day now <= MAXDAY - 2)%Z.

(** A zone database that knows UTC only. *)
Definition utc_only (tz_str : text) : option tzinfo :=
  if Py.eqt tz_str (T "UTC") then Some (fixed_zone 0) else None.

End ResolverSpec.

(** ** What a pattern matches, and the captured time *)
Module ReSpec.
Import Re.

(** The texts a pattern matches as a whole. *)
Fixpoint lang (ignorecase : bool) (r : regex) (t : text) : Prop :=
  match r with
  | Eps => t = []
  | Lit c => exists x, t = [x] /\ lit_ok ignorecase c x = true
  | Cls p => exists x, t = [x] /\ p x = true
  | Seq a b => exists u v, t = u ++ v /\ lang ignorecase a u /\ lang ignorecase b v
  | Alt a b => lang ignorecase a t \/ lang ignorecase b t
  | Grp _ a => lang ignorecase a t
  | Opt a => t = [] \/ lang ignorecase a t
  | Rep p lo hi _ =>
      forallb p t = true /\ lo <= length t
      /\ match hi with Some h => length t <= h | None => True end
  end.

(** Every match of the pattern closes group [n]. *)
Fixpoint sets (n : nat) (r : regex) : bool :=
  match r with
  | Grp m a => (m =? n)%nat || sets n a
  | Seq a b => sets n a || sets n b
  | Alt a b => sets n a && sets n b
  | Eps | Lit _ | Cls _ | Opt _ | Rep _ _ _ _ => false
  end.

(** The texts of the groups of the pattern satisfy [Q]. *)
Fixpoint groups_sound (ignorecase : bool) (Q : nat -> text -> Prop)
    (r : regex) : Prop :=
  match r with
  | Grp n a => (forall t, lang ignorecase a t -> Q n t)
               /\ groups_sound ignorecase Q a
  | Seq a b | Alt a b =>
      groups_sound ignorecase Q a /\ groups_sound ignorecase Q b
  | Opt a => groups_sound ignorecase Q a
  | Eps | Lit _ | Cls _ | Rep _ _ _ _ => True
  end.

(** The recorded groups are pieces of [content] that satisfy [Q]. *)
Definition caps_sound (content : text) (Q : nat -> text -> Prop) (cs : caps)
    : Prop :=
  forall n a b, In (n, (a, b)) cs -> Q n (Py.slice a b content).

Definition has_group (n : nat) (cs : caps) : Prop := exists sp, In (n, sp) cs.

(** A time as the patterns of the resolver capture it: one or two digits,
    then minutes and a marker, or a colon and two digits without marker. *)
Definition marked_time (t : text) : Prop :=
  exists hh mins sp marker,
    t = hh ++ mins ++ sp ++ marker
    /\ forallb Py.is_digit hh = true /\ 1 <= length hh <= 2
    /\ Spec.minutes_field mins = true /\ length mins <= 3
    /\ forallb Py.is_space sp = true
    /\ (Py.lower marker = T "am" \/ Py.lower marker = T "pm").

Definition colon_time (t : text) : Prop :=
  exists hh mm,
    t = hh ++ ":"%char :: mm
    /\ forallb Py.is_digit hh = true /\ 1 <= length hh <= 2
    /\ forallb Py.is_digit mm = true /\ length mm = 2.

Definition time_text (t : text) : Prop := marked_time t \/ colon_time t.

(** What is known of the groups of the four patterns. *)
Definition capture_spec (n : nat) (t : text) : Prop := n = 1 -> time_text t.

End ReSpec.

(** ** [learnings_extractor.py] *)
Module LearningsExtractor.
Import Re.

(** The pattern [r'RALPH_LEARNINGS:\s*(.*?)(?:\n```|$)'] with [re.DOTALL]:
    its head up to the group is a pattern of the matcher, its tail
    [(?:\n```|$)] is the continuation the head is run with. *)
Definition head : regex :=
  (word "RALPH_LEARNINGS:" ;; star Py.is_space ;; Grp 1 (lazy_star any_char))%re.

Definition fence_line : text := ascii_of_nat 10 :: T "```".

(** [$] without [re.MULTILINE]: the end of the text, or the place before a
    newline that ends the text. *)
Definition at_end (s : text) : bool :=
  match s with
  | [] => true
  | [c] => Py.eqc c (ascii_of_nat 10)
  | _ => false
  end.

Definition tail : kont :=
  fun j s cs =>
    if Py.starts_with fence_line s then Some (j + 4, cs)
    else if at_end s then Some (j, cs)
    else None.

(** [re.search]: the match at the least start position. *)
Fixpoint search_from (i : nat) (s : text) : option (nat * caps) :=
  match rmatch false head tail i s [] with
  | Some res => Some res
  | None => match s with
            | [] => None
            | _ :: s' => search_from (S i) s'
            end
  end.

(** What [extract_learnings] prints for the text of the file ([None] when
    the file cannot be read): [None] when it prints nothing. *)
Definition extract_learnings (file : option text) : option text :=
  match file with
  | None => None
  | Some content =>
      match search_from 0 content with
      | Some (_, cs) =>
          let learnings := Py.strip (group content cs 1) in
          if negb (Py.eqt learnings []) && negb (Py.eqt learnings (T "-"))
          then Some learnings
          else None
      | None => None
      end
  end.

End LearningsExtractor.

(** ** Vocabulary for the learnings block *)
Module LearningsSpec.
Import LearningsExtractor.

Definition marker : text := T "RALPH_LEARNINGS:".

(** The marker starts nowhere in [pre] when [pre] is followed by [rest]. *)
Fixpoint absent_before (pre rest : text) : bool :=
  match pre with
  | [] => true
  | _ :: pre' =>
      negb (Py.starts_with marker (pre ++ rest)) && absent_before pre' rest
  end.

(** The place before [s] is one where the pattern can end: a fence line
    starts there, or the text ends there. *)
Definition ends_here (s : text) : bool :=
  Py.starts_with fence_line s || at_end s.

(** No place inside [body], followed by [rest], is one where the pattern
    can end. *)
Fixpoint runs_on (body rest : text) : bool :=
  match body with
  | [] => true
  | _ :: body' => negb (ends_here (body ++ rest)) && runs_on body' rest
  end.

Definition starts_with_space (s : text) : bool :=
  match s with
  | c :: _ => Py.is_space c
  | [] => false
  end.

(** What the script prints for a block of learnings. *)
Definition printed (body : text) : option text :=
  let learnings := Py.strip body in
  if Py.eqt learnings [] || Py.eqt learnings (T "-") then None
  else Some learnings.

Definition no_backtick (s : text) : bool :=
  forallb (fun c => negb (Py.eqc c "`"%char)) s.

End LearningsSpec.

(* ================================================================= *)
(** * Part II: lemmas and theorems *)
(* ================================================================= *)

(** ** Characters *)

Ltac each_char c :=
  destruct c as [[] [] [] [] [] [] [] []]; vm_compute; try reflexivity;
  try discriminate; try congruence.

Lemma eqc_eq (a b : ascii) : Py.eqc a b = true <-> a = b.
Proof. apply Ascii.eqb_eq. Qed.

Lemma eqc_neq (a b : ascii) : Py.eqc a b = false <-> a <> b.
Proof. apply Ascii.eqb_neq. Qed.

Lemma eqc_refl (a : ascii) : Py.eqc a a = true.
Proof. apply Ascii.eqb_refl. Qed.

(** ** The bracket-matching scan *)
Module BracketScan.
Import JsonExtractor Spec.

Lemma passes_nil : passes [].
Proof. intros d rest i e _. reflexivity. Qed.

Lemma passes_app (a b : text) : passes a -> passes b -> passes (a ++ b).
Proof.
  intros Ha Hb d rest i e Hd.
  rewrite <- app_assoc, Ha, Hb by assumption.
  f_equal. rewrite length_app. lia.
Qed.

Lemma passes_inert_char (c : ascii) : inert c = true -> passes [c].
Proof.
  unfold inert. intros Hc d rest i e _.
  apply andb_prop in Hc as [Hc Hr]. apply andb_prop in Hc as [Hq Hl].
  apply negb_true_iff in Hq, Hl, Hr.
  cbn [app match_brackets length]. rewrite Hq, Hl, Hr.
  rewrite andb_false_r. cbn. reflexivity.
Qed.

Lemma passes_inert (w : text) : forallb inert w = true -> passes w.
Proof.
  induction w as [|c w IH]; intro H.
  - apply passes_nil.
  - cbn in H. apply andb_prop in H as [Hc Hw].
    change (c :: w) with ([c] ++ w).
    apply passes_app; [apply passes_inert_char | apply IH]; assumption.
Qed.

(** Inside a string: the body and the closing quote are consumed, no brace
    is counted and no escaped quote closes the string. *)
Lemma string_body_scanned (s : text) :
  Json.chars s ->
  forall (d : Z) (rest : text) (i e : nat),
    match_brackets (s ++ Py.dq :: rest) i d true false e
    = match_brackets rest (S (length s) + i) d false false e.
Proof.
  induction 1 as [|c s Hq Hb Hc _ IH|c s Hesc _ IH|h1 h2 h3 h4 s Hhex _ IH];
    intros d rest i e.
  - reflexivity.
  - cbn [app match_brackets length].
    apply eqc_neq in Hq, Hb. rewrite Hq, Hb. cbn.
    rewrite IH. f_equal. lia.
  - cbn [app match_brackets length]. rewrite eqc_refl. cbn.
    rewrite IH. f_equal. lia.
  - cbn [forallb] in Hhex.
    repeat (apply andb_prop in Hhex as [?H Hhex]).
    assert (Hplain : forall h, Json.is_hex h = true ->
              Py.eqc h Py.bslash = false /\ Py.eqc h Py.dq = false)
      by (intro h; each_char h; split; reflexivity).
    destruct (Hplain h1 H) as [E1 F1], (Hplain h2 H0) as [E2 F2],
             (Hplain h3 H1) as [E3 F3], (Hplain h4 H2) as [E4 F4].
    cbn [app match_brackets length]. rewrite eqc_refl. cbn.
    rewrite E1, F1, E2, F2, E3, F3, E4, F4. cbn.
    rewrite IH. f_equal. lia.
Qed.

Lemma passes_string (t : text) : Json.string_lit t -> passes t.
Proof.
  intros (s & Hs & ->) d rest i e _.
  cbn [app match_brackets]. cbn.
  rewrite <- app_assoc. cbn [app].
  rewrite string_body_scanned by assumption.
  f_equal. cbn. rewrite length_app. cbn. lia.
Qed.

Lemma passes_braces (body : text) :
  passes body -> passes (Py.lbrace :: body ++ [Py.rbrace]).
Proof.
  intros Hb d rest i e Hd.
  cbn [app match_brackets]. cbn.
  rewrite <- app_assoc, Hb by lia. cbn.
  replace (d + 1 - 1 =? 0)%Z with false by (symmetry; apply Z.eqb_neq; lia).
  replace (d + 1 - 1)%Z with d by lia.
  f_equal. rewrite length_app. cbn. lia.
Qed.

Lemma ws_inert (w : text) : Json.ws w -> forallb inert w = true.
Proof.
  unfold Json.ws. induction w as [|c w IH]; cbn; intro H; [reflexivity|].
  apply andb_prop in H as [Hc Hw]. rewrite IH by assumption.
  rewrite andb_true_r. revert Hc. each_char c.
Qed.

Lemma digits_inert (t : text) : forallb Py.is_digit t = true -> forallb inert t = true.
Proof.
  induction t as [|c t IH]; cbn; intro H; [reflexivity|].
  apply andb_prop in H as [Hc Ht]. rewrite IH by assumption.
  rewrite andb_true_r. revert Hc. each_char c.
Qed.

Lemma forallb_inert_app (a b : text) :
  forallb inert a = true -> forallb inert b = true -> forallb inert (a ++ b) = true.
Proof. intros Ha Hb. rewrite forallb_app, Ha, Hb. reflexivity. Qed.

Lemma number_inert (t : text) : Json.number t -> forallb inert t = true.
Proof.
  intros (minus & i & f & x & Hm & Hi & Hf & Hx & ->).
  repeat apply forallb_inert_app.
  - cbn in Hm. destruct Hm as [<-|[<-|[]]]; reflexivity.
  - destruct Hi as [->|[[_ Hd] _]]; [reflexivity | apply digits_inert, Hd].
  - destruct Hf as [->|(d & [_ Hd] & ->)]; [reflexivity|].
    cbn. apply digits_inert, Hd.
  - destruct Hx as [->|(ee & sign & d & He & Hs & [_ Hd] & ->)]; [reflexivity|].
    repeat apply forallb_inert_app.
    + cbn in He. destruct He as [<-|[<-|[]]]; reflexivity.
    + cbn in Hs. destruct Hs as [<-|[<-|[<-|[]]]]; reflexivity.
    + apply digits_inert, Hd.
Qed.

Lemma grammar_passes :
  (forall t, Json.json t -> passes t) /\
  (forall t, Json.element t -> passes t) /\
  (forall t, Json.elements t -> passes t) /\
  (forall t, Json.member t -> passes t) /\
  (forall t, Json.members t -> passes t).
Proof.
  apply Json.json_mutind.
  - intros t Ht. apply passes_inert.
    cbn in Ht. destruct Ht as [<-|[<-|[<-|[]]]]; reflexivity.
  - intros t Ht. apply passes_inert, number_inert, Ht.
  - intros t Ht. apply passes_string, Ht.
  - intros w Hw. change ("["%char :: w ++ T "]") with (T "[" ++ w ++ T "]").
    repeat apply passes_app; apply passes_inert;
      [reflexivity | apply ws_inert, Hw | reflexivity].
  - intros es _ IH. change ("["%char :: es ++ T "]") with (T "[" ++ es ++ T "]").
    repeat apply passes_app; [apply passes_inert; reflexivity | exact IH
                             | apply passes_inert; reflexivity].
  - intros w Hw. apply passes_braces, passes_inert, ws_inert, Hw.
  - intros ms _ IH. apply passes_braces, IH.
  - intros w1 v w2 H1 _ IH H2.
    repeat apply passes_app;
      [apply passes_inert, ws_inert, H1 | exact IH | apply passes_inert, ws_inert, H2].
  - intros e _ IH. exact IH.
  - intros e es _ IHe _ IHes.
    repeat apply passes_app; [exact IHe | apply passes_inert; reflexivity | exact IHes].
  - intros w1 k w2 e H1 Hk H2 _ IH.
    repeat apply passes_app;
      [apply passes_inert, ws_inert, H1 | apply passes_string, Hk
      | apply passes_inert, ws_inert, H2 | apply passes_inert; reflexivity | exact IH].
  - intros m _ IH. exact IH.
  - intros m ms _ IHm _ IHms.
    repeat apply passes_app; [exact IHm | apply passes_inert; reflexivity | exact IHms].
Qed.

(** Started on the opening brace of a well-formed object, the scan stops on
    its closing brace, whatever follows. *)
Lemma object_scanned (t rest : text) (i e : nat) :
  Json.object t ->
  match_brackets (t ++ rest) i 0 false false e = (0%Z, length t + i).
Proof.
  intros (body & Hbody & ->).
  assert (Hp : passes body).
  { destruct Hbody as [Hw|Hm].
    - apply passes_inert, ws_inert, Hw.
    - apply grammar_passes, Hm. }
  cbn [app match_brackets]. cbn.
  rewrite <- app_assoc, Hp by lia. cbn.
  f_equal. rewrite length_app. cbn. lia.
Qed.

End BracketScan.

(** ** Deriving concrete JSON texts *)
Module JsonExamples.
Import JsonExtractor Spec.

Lemma element_intro (w1 v w2 t : text) :
  t = w1 ++ v ++ w2 -> Json.ws w1 -> Json.json v -> Json.ws w2 -> Json.element t.
Proof. intros ->. apply Json.j_element. Qed.

Lemma member_intro (w1 k w2 e t : text) :
  t = w1 ++ k ++ w2 ++ T ":" ++ e ->
  Json.ws w1 -> Json.string_lit k -> Json.ws w2 -> Json.element e -> Json.member t.
Proof. intros ->. apply Json.j_member. Qed.

Lemma members_intro (m ms t : text) :
  t = m ++ T "," ++ ms -> Json.member m -> Json.members ms -> Json.members t.
Proof. intros ->. apply Json.j_members. Qed.

Lemma bare_value (v : text) : Json.json v -> Json.element v.
Proof.
  intro H. apply (@element_intro [] v []); try reflexivity; try assumption.
  now rewrite app_nil_r.
Qed.

Lemma digit_number (c : ascii) :
  Py.is_digit c = true -> Json.number [c].
Proof.
  intro Hc. exists [], [c], [], [].
  split; [now left|]. split; [|split; [now left|split; [now left|reflexivity]]].
  destruct (Ascii.eqb_spec c "0"%char) as [->|Hne].
  - now left.
  - right. repeat split; [discriminate | cbn; now rewrite Hc | exact Hne].
Qed.

Ltac chars_tac :=
  repeat first
    [ apply Json.chars_nil
    | apply Json.chars_plain;
        [discriminate | discriminate | apply Nat.leb_le; reflexivity | ]
    | apply Json.chars_escape; [reflexivity | ] ].

Ltac string_tac s := exists s; split; [chars_tac | reflexivity].

Lemma ralph_example_object : Json.object ralph_example.
Proof.
  exists (q "'RALPH_STATUS':'a } b \' c'"). split; [right | reflexivity].
  apply Json.j_members1.
  apply (@member_intro [] (q "'RALPH_STATUS'") [] (q "'a } b \' c'"));
    try reflexivity.
  - string_tac (T "RALPH_STATUS").
  - apply bare_value, Json.j_string. string_tac (q "a } b \' c").
Qed.

Lemma nested_example_object : Json.object nested_example.
Proof.
  exists (q "'a':{'x':1},'KEY':2"). split; [right | reflexivity].
  apply (@members_intro (q "'a':{'x':1}") (q "'KEY':2")); [reflexivity | |].
  - apply (@member_intro [] (q "'a'") [] (q "{'x':1}")); try reflexivity.
    + string_tac (T "a").
    + apply bare_value.
      apply (Json.j_object (ms := q "'x':1")), Json.j_members1.
      apply (@member_intro [] (q "'x'") [] (T "1")); try reflexivity.
      * string_tac (T "x").
      * apply bare_value, Json.j_number, digit_number. reflexivity.
  - apply Json.j_members1.
    apply (@member_intro [] (q "'KEY'") [] (T "2")); try reflexivity.
    + string_tac (T "KEY").
    + apply bare_value, Json.j_number, digit_number. reflexivity.
Qed.

Lemma brace_in_string_example_object : Json.object brace_in_string_example.
Proof.
  exists (q "'note':'a { b','RALPH_STATUS':'x'"). split; [right | reflexivity].
  apply (@members_intro (q "'note':'a { b'") (q "'RALPH_STATUS':'x'"));
    [reflexivity | |].
  - apply (@member_intro [] (q "'note'") [] (q "'a { b'")); try reflexivity.
    + string_tac (T "note").
    + apply bare_value, Json.j_string. string_tac (T "a { b").
  - apply Json.j_members1.
    apply (@member_intro [] (q "'RALPH_STATUS'") [] (q "'x'")); try reflexivity.
    + string_tac (T "RALPH_STATUS").
    + apply bare_value, Json.j_string. string_tac (T "x").
Qed.

End JsonExamples.

(** ** The locator *)
Module LocatorFacts.
Import Re JsonExtractor Spec.

Lemma slice_middle (pre obj post : text) :
  Py.slice (length pre) (length obj + length pre) (pre ++ obj ++ post) = obj.
Proof.
  unfold Py.slice.
  rewrite skipn_app, skipn_all, Nat.sub_diag. cbn [app skipn].
  replace (length obj + length pre - length pre) with (length obj + 0) by lia.
  rewrite firstn_app_2. cbn. apply app_nil_r.
Qed.

Lemma skipn_prefix (pre rest : text) : skipn (length pre) (pre ++ rest) = rest.
Proof. rewrite skipn_app, skipn_all, Nat.sub_diag. reflexivity. Qed.

Lemma char_after_prefix (pre rest : text) (j : nat) (c : ascii) :
  char_is (pre ++ rest) (length pre + j) c = char_is rest j c.
Proof.
  unfold char_is. rewrite nth_error_app2 by lia.
  replace (length pre + j - length pre) with j by lia. reflexivity.
Qed.

Lemma forallb_firstn_S (p : ascii -> bool) (l : text) (j : nat) :
  forallb p (firstn (S j) l) = true ->
  forallb p (firstn j l) = true /\
  (forall x, nth_error l j = Some x -> p x = true).
Proof.
  revert l. induction j as [|j IH]; intros [|a l] H; cbn in *.
  - split; [reflexivity | discriminate].
  - apply andb_prop in H as [Ha _]. split; [reflexivity|]. congruence.
  - split; [reflexivity | discriminate].
  - apply andb_prop in H as [Ha Hl]. destruct (IH l Hl) as [H1 H2].
    rewrite Ha, H1. split; [reflexivity | exact H2].
Qed.

(** The backward loop stops on the brace at [length pre] when no brace lies
    between it and the position of the key. *)
Lemma opening_brace_found (pre tail : text) (j : nat) :
  forallb not_lbrace (firstn j tail) = true ->
  opening_brace (pre ++ Py.lbrace :: tail) (length pre + j) = length pre.
Proof.
  induction j as [|j IH]; intro H.
  - rewrite Nat.add_0_r. destruct pre as [|a pre]; [reflexivity|].
    cbn [length opening_brace].
    change (S (length pre)) with (length (a :: pre)).
    rewrite <- (Nat.add_0_r (length (a :: pre))) at 1.
    rewrite char_after_prefix. reflexivity.
  - apply forallb_firstn_S in H as [H1 H2].
    rewrite Nat.add_succ_r. cbn [opening_brace].
    rewrite <- Nat.add_succ_r, char_after_prefix.
    unfold char_is. cbn [nth_error].
    destruct (nth_error tail j) as [x|] eqn:Hx.
    + specialize (H2 x eq_refl). unfold not_lbrace in H2.
      apply negb_true_iff in H2. rewrite H2. apply IH, H1.
    + apply IH, H1.
Qed.

Lemma eqc_sym (a b : ascii) : Py.eqc a b = Py.eqc b a.
Proof. apply Ascii.eqb_sym. Qed.

Lemma lits_ok_exact (w s : text) : lits_ok false w s = Py.starts_with w s.
Proof.
  revert s. induction w as [|c w IH]; intros [|x s]; cbn; try reflexivity.
  rewrite IH, eqc_sym. reflexivity.
Qed.

(** A literal word at the head of a pattern. *)
Lemma rmatch_lits (ic : bool) (w : text) (k : kont) (i : nat) (s : text) (cs : caps) :
  rmatch ic (lits w) k i s cs
  = if lits_ok ic w s then k (length w + i) (skipn (length w) s) cs else None.
Proof.
  revert i s. induction w as [|c w IH]; intros i s.
  - reflexivity.
  - destruct s as [|x s]; [reflexivity|].
    cbn [lits rmatch lits_ok length skipn].
    destruct (lit_ok ic c x); [|reflexivity].
    cbn. rewrite IH. now rewrite Nat.add_succ_r.
Qed.

Lemma no_fence_no_match (s : text) (i : nat) :
  Py.contains (T "```json") s = false ->
  search_from false code_block_pattern i s = None.
Proof.
  revert i. induction s as [|c s IH]; intros i H.
  - reflexivity.
  - cbn [Py.contains] in H. apply orb_false_elim in H as [Hhead Htail].
    cbn [search_from]. unfold match_at, code_block_pattern, word.
    cbn [rmatch]. rewrite rmatch_lits, lits_ok_exact, Hhead.
    apply IH, Htail.
Qed.

Lemma no_fence_no_block (content : text) :
  Py.contains (T "```json") content = false ->
  code_blocks content = [].
Proof.
  intro H. unfold code_blocks, finditer. cbn [finditer_from].
  unfold search. now rewrite no_fence_no_match.
Qed.

(** When the scan ends with depth 0 it has stopped on a closing brace. *)
Lemma scan_stops_on_brace (cs : text) :
  forall (i : nat) (d : Z) (ins esc : bool) (e : nat),
    (1 <= d)%Z ->
    fst (match_brackets cs i d ins esc e) = 0%Z ->
    i < snd (match_brackets cs i d ins esc e).
Proof.
  induction cs as [|c cs IH]; intros i d ins esc e Hd H.
  - cbn in H. lia.
  - cbn [match_brackets] in *.
    destruct esc; [apply Nat.lt_succ_l, IH; assumption|].
    destruct (Py.eqc c Py.bslash && ins);
      [apply Nat.lt_succ_l, IH; assumption|].
    destruct (Py.eqc c Py.dq && negb false);
      [apply Nat.lt_succ_l, IH; assumption|].
    destruct ins; [apply Nat.lt_succ_l, IH; assumption|].
    destruct (Py.eqc c Py.lbrace);
      [apply Nat.lt_succ_l, IH; [lia | assumption]|].
    destruct (Py.eqc c Py.rbrace);
      [|apply Nat.lt_succ_l, IH; assumption].
    destruct (Z.eqb_spec (d - 1) 0) as [E|E].
    + cbn. lia.
    + apply Nat.lt_succ_l, IH; [lia | assumption].
Qed.

Lemma skipn_at (content : text) (start : nat) (c : ascii) :
  char_is content start c = true ->
  exists rest, skipn start content = c :: rest.
Proof.
  unfold char_is. revert content. induction start as [|n IH]; intros [|x content] H;
    cbn in *; try discriminate.
  - apply eqc_eq in H. subst x. now exists content.
  - now apply IH.
Qed.

(** Method 2 only returns a text that opens with a brace and passes the
    decoding test. *)
Lemma bracket_method_opens_with_brace
    (json_loads : text -> option Json.value) (content json_type c : text) :
  bracket_method json_loads content json_type = Some c ->
  (exists r, c = Py.lbrace :: r) /\ loads_with json_loads json_type c = true.
Proof.
  unfold bracket_method.
  destruct (Py.find _ content) as [key_pos|]; [|discriminate].
  set (start := opening_brace content key_pos).
  destruct (char_is content start Py.lbrace) eqn:Hopen; [|discriminate].
  cbn [negb]. destruct (@skipn_at content start Py.lbrace Hopen) as (rest & Hrest).
  destruct (match_brackets (skipn start content) start 0 false false start)
    as [depth end_] eqn:Hscan.
  destruct (Z.eqb_spec depth 0) as [->|]; [|discriminate]. cbn [negb].
  destruct (loads_with json_loads json_type (Py.slice start end_ content)) eqn:Hl;
    [|discriminate].
  intro E. injection E as <-. split; [|exact Hl].
  unfold Py.slice. rewrite Hrest in *.
  cbn [match_brackets] in Hscan. cbn in Hscan.
  assert (Hlt : S start < end_).
  { pose proof (@scan_stops_on_brace rest (S start) 1 false false start) as Hs.
    rewrite Hscan in Hs. apply Hs; [lia | reflexivity]. }
  destruct (end_ - start) as [|n] eqn:En; [lia|].
  cbn [firstn]. eauto.
Qed.

End LocatorFacts.

(** ** Claims on the locator *)
Module LocatorClaims.
Import Re JsonExtractor Spec.

(** C6, as amended: a well-formed JSON object, whatever braces and escaped
    quotes its string values hold, stands in a text in which the first
    quoted marker key lies inside the object and no opening brace, inside a
    string or not, stands between the first brace of the object and that
    key.  Then the search backwards stops on the first brace of the object,
    the bracket-matching scan started there ends with depth 0 exactly
    after the last brace of the object, and the candidate handed to the
    decoder is the whole object, not a truncated prefix: the locator
    returns the object when the decoder finds the marker key in it, in a
    text without a json fence. *)
Theorem object_with_string_braces_returned :
  forall (json_loads : text -> option Json.value)
         (pre obj post json_type : text) (j : nat),
    Json.object obj ->
    Py.find (Py.dq :: json_type ++ [Py.dq]) (pre ++ obj ++ post)
      = Some (length pre + j) ->
    j < length obj ->
    forallb not_lbrace (Py.slice 1 (S j) obj) = true ->
    opening_brace (pre ++ obj ++ post) (length pre + j) = length pre
    /\ match_brackets (skipn (length pre) (pre ++ obj ++ post)) (length pre)
                      0 false false (length pre)
       = (0%Z, length obj + length pre)
    /\ bracket_method json_loads (pre ++ obj ++ post) json_type
       = (if loads_with json_loads json_type obj then Some obj else None)
    /\ (Py.contains (T "```json") (pre ++ obj ++ post) = false ->
        find_json_containing json_loads (pre ++ obj ++ post) json_type
        = (if loads_with json_loads json_type obj then Some obj else None)).
Proof.
  intros json_loads pre obj post json_type j Hobj Hfind Hj Hbrace.
  assert (Hstart : opening_brace (pre ++ obj ++ post) (length pre + j)
                   = length pre).
  { destruct Hobj as (body & _ & ->).
    cbn [app]. apply LocatorFacts.opening_brace_found.
    unfold Py.slice in Hbrace. cbn [skipn] in Hbrace.
    replace (S j - 1) with j in Hbrace by lia.
    rewrite firstn_app.
    replace (j - length (body ++ [Py.rbrace])) with 0
      by (cbn [length] in Hj; lia).
    cbn [firstn]. now rewrite app_nil_r. }
  assert (Hscan : match_brackets (skipn (length pre) (pre ++ obj ++ post))
                    (length pre) 0 false false (length pre)
                  = (0%Z, length obj + length pre)).
  { rewrite LocatorFacts.skipn_prefix. apply BracketScan.object_scanned, Hobj. }
  assert (Hmethod : bracket_method json_loads (pre ++ obj ++ post) json_type
                    = (if loads_with json_loads json_type obj
                       then Some obj else None)).
  { unfold bracket_method. rewrite Hfind, Hstart.
    assert (Hopen : char_is (pre ++ obj ++ post) (length pre) Py.lbrace = true).
    { rewrite <- (Nat.add_0_r (length pre)), LocatorFacts.char_after_prefix.
      destruct Hobj as (body & _ & ->). reflexivity. }
    rewrite Hopen. cbn [negb]. rewrite Hscan. cbn [Z.eqb negb].
    now rewrite LocatorFacts.slice_middle. }
  split; [exact Hstart|]. split; [exact Hscan|]. split; [exact Hmethod|].
  intro Hfence. unfold find_json_containing.
  rewrite (LocatorFacts.no_fence_no_block _ Hfence). cbn [first_block].
  exact Hmethod.
Qed.

Lemma object_with_string_braces_returned_example :
  opening_brace (T "status: " ++ ralph_example ++ T " } and more") (8 + 1) = 8
  /\ match_brackets (skipn 8 (T "status: " ++ ralph_example ++ T " } and more"))
                    8 0 false false 8
     = (0%Z, length ralph_example + 8)
  /\ bracket_method Json.decode
       (T "status: " ++ ralph_example ++ T " } and more") (T "RALPH_STATUS")
     = Some ralph_example
  /\ find_json_containing Json.decode
       (T "status: " ++ ralph_example ++ T " } and more") (T "RALPH_STATUS")
     = Some ralph_example.
Proof.
  destruct (@object_with_string_braces_returned Json.decode (T "status: ")
              ralph_example (T " } and more") (T "RALPH_STATUS") 1
              JsonExamples.ralph_example_object eq_refl
              ltac:(cbn; lia) eq_refl)
    as (H1 & H2 & H3 & H4).
  split; [exact H1|]. split; [exact H2|]. split; [exact H3|].
  exact (H4 eq_refl).
Defined.

(** C6, as stated, fails: an opening brace inside a string value that comes
    before the marker key stops the search backwards, the scan started on
    it ends at the end of the text with depth 1, and the locator finds
    nothing in a well-formed object that has the key at top level. *)
Lemma brace_in_string_before_key_not_found :
  Json.object brace_in_string_example
  /\ Json.decode brace_in_string_example
     = Some (Json.JObj [(T "note", Json.JStr (T "a { b"));
                        (T "RALPH_STATUS", Json.JStr (T "x"))])
  /\ Py.contains (T "```json") brace_in_string_example = false
  /\ Py.find (q "'RALPH_STATUS'") brace_in_string_example = Some 16
  /\ opening_brace brace_in_string_example 16 = 11
  /\ match_brackets (skipn 11 brace_in_string_example) 11 0 false false 11
     = (1%Z, 11)
  /\ find_json_containing Json.decode brace_in_string_example (T "RALPH_STATUS")
     = None.
Proof.
  split; [exact JsonExamples.brace_in_string_example_object|].
  repeat split; reflexivity.
Qed.

(** C1, as amended: a well-formed JSON object that decodes to an object with
    the marker key, placed between two texts so that the whole text has no
    json fence, the first quoted marker key of the whole text lies inside
    the object and no opening brace stands between the object's first brace
    and that key, is returned by the locator as it is. *)
Theorem wrapped_object_located :
  forall (json_loads : text -> option Json.value)
         (pre obj post json_type : text)
         (members : list (text * Json.value)) (j : nat),
    Json.object obj ->
    json_loads obj = Some (Json.JObj members) ->
    Json.has_key json_type members = true ->
    Py.contains (T "```json") (pre ++ obj ++ post) = false ->
    Py.find (Py.dq :: json_type ++ [Py.dq]) (pre ++ obj ++ post)
      = Some (length pre + j) ->
    j < length obj ->
    forallb not_lbrace (Py.slice 1 (S j) obj) = true ->
    find_json_containing json_loads (pre ++ obj ++ post) json_type = Some obj
    /\ locate json_loads (pre ++ obj ++ post) json_type
       = Some (Json.JObj members).
Proof.
  intros json_loads pre obj post json_type members j
         Hobj Hloads Hkey Hfence Hfind Hj Hbrace.
  assert (Hfound :
    find_json_containing json_loads (pre ++ obj ++ post) json_type = Some obj).
  { unfold find_json_containing.
    rewrite (LocatorFacts.no_fence_no_block _ Hfence). cbn [first_block].
    unfold bracket_method. rewrite Hfind.
    assert (Hstart : opening_brace (pre ++ obj ++ post) (length pre + j)
                     = length pre).
    { destruct Hobj as (body & _ & ->).
      cbn [app]. apply LocatorFacts.opening_brace_found.
      unfold Py.slice in Hbrace. cbn [skipn] in Hbrace.
      replace (S j - 1) with j in Hbrace by lia.
      rewrite firstn_app.
      replace (j - length (body ++ [Py.rbrace])) with 0
        by (cbn [length] in Hj; lia).
      cbn [firstn]. now rewrite app_nil_r. }
    rewrite Hstart.
    assert (Hopen : char_is (pre ++ obj ++ post) (length pre) Py.lbrace = true).
    { rewrite <- (Nat.add_0_r (length pre)), LocatorFacts.char_after_prefix.
      destruct Hobj as (body & _ & ->). reflexivity. }
    rewrite Hopen. cbn [negb].
    rewrite LocatorFacts.skipn_prefix, (BracketScan.object_scanned _ _ _ Hobj).
    cbn [Z.eqb negb]. rewrite LocatorFacts.slice_middle.
    unfold loads_with. rewrite Hloads. cbn [Json.py_in]. now rewrite Hkey. }
  split; [exact Hfound|].
  unfold locate. now rewrite Hfound.
Qed.

Lemma wrapped_object_located_example :
  find_json_containing Json.decode
    (T "The run ended. " ++ ralph_example ++ T " No further {notes}.")
    (T "RALPH_STATUS") = Some ralph_example
  /\ locate Json.decode
       (T "The run ended. " ++ ralph_example ++ T " No further {notes}.")
       (T "RALPH_STATUS")
     = Some (Json.JObj [(T "RALPH_STATUS", Json.JStr (q "a } b ' c"))]).
Proof.
  apply (@wrapped_object_located Json.decode (T "The run ended. ") ralph_example
           (T " No further {notes}.") (T "RALPH_STATUS")
           [(T "RALPH_STATUS", Json.JStr (q "a } b ' c"))] 1).
  - exact JsonExamples.ralph_example_object.
  - reflexivity.
  - reflexivity.
  - reflexivity.
  - reflexivity.
  - cbn. lia.
  - reflexivity.
Defined.

(** C1, as stated, fails: an object whose marker key follows a nested object
    is well formed, has the key at top level and stands in prose without a
    quoted key or a fence, and the locator finds nothing. *)
Lemma wrapped_nested_object_not_found :
  Json.object nested_example
  /\ Json.decode nested_example
     = Some (Json.JObj [(T "a", Json.JObj [(T "x", Json.JNum (T "1"))]);
                        (T "KEY", Json.JNum (T "2"))])
  /\ Py.contains (q "'KEY'") (T "Result: ") = false
  /\ Py.contains (q "'KEY'") (T " end.") = false
  /\ Py.contains (T "```json") (T "Result: " ++ nested_example ++ T " end.") = false
  /\ find_json_containing Json.decode
       (T "Result: " ++ nested_example ++ T " end.") (T "KEY") = None.
Proof.
  split; [exact JsonExamples.nested_example_object|].
  repeat split; reflexivity.
Qed.

(** C3: a fenced block that is a JSON array holding the marker key as a
    string is returned by the locator, although it is no object. *)
Theorem fenced_array_returned :
  find_json_containing Json.decode (fenced array_block) (T "RALPH_STATUS")
    = Some array_block
  /\ locate Json.decode (fenced array_block) (T "RALPH_STATUS")
     = Some (Json.JArr [Json.JStr (T "RALPH_STATUS")]).
Proof. split; reflexivity. Qed.

Lemma first_block_skips (json_loads : text -> option Json.value)
    (key : text) (bs1 : list text) (rest : list text) :
  forallb (fun x => negb (Py.contains key x && object_with_key json_loads key x)
                    && negb (array_or_string json_loads x)) bs1 = true ->
  first_block json_loads key (bs1 ++ rest) = first_block json_loads key rest.
Proof.
  induction bs1 as [|x bs1 IH]; intro H; [reflexivity|].
  cbn [forallb] in H. apply andb_prop in H as [Hx Hrest].
  apply andb_prop in Hx as [Hq Ha].
  apply negb_true_iff in Hq, Ha.
  cbn [app first_block].
  replace (Py.contains key x && loads_with json_loads key x) with false.
  - apply IH, Hrest.
  - symmetry. revert Hq Ha.
    unfold object_with_key, array_or_string, loads_with.
    destruct (Py.contains key x); [|reflexivity].
    destruct (json_loads x) as [[| | | | |]|]; cbn; congruence.
Qed.

(** C7, as amended: when the fenced json blocks of a text, in document
    order, include a block that contains the marker key textually and
    decodes to an object with the marker key at top level, and no earlier
    fenced block is such a block or decodes to an array or a string, the
    locator returns that block, not a bare occurrence. *)
Theorem first_fenced_object_returned :
  forall (json_loads : text -> option Json.value)
         (content json_type : text) (earlier later : list text) (block : text),
    code_blocks content = earlier ++ block :: later ->
    Py.contains json_type block = true ->
    object_with_key json_loads json_type block = true ->
    forallb (fun x =>
               negb (Py.contains json_type x
                     && object_with_key json_loads json_type x)
               && negb (array_or_string json_loads x)) earlier = true ->
    find_json_containing json_loads content json_type = Some block.
Proof.
  intros json_loads content json_type earlier later block Hblocks Htext Hobj Hearlier.
  unfold find_json_containing.
  rewrite Hblocks, (first_block_skips json_loads json_type earlier _ Hearlier).
  cbn [first_block]. rewrite Htext.
  unfold object_with_key in Hobj. unfold loads_with.
  destruct (json_loads block) as [[| | | | |members]|]; try discriminate.
  cbn [Json.py_in andb]. now rewrite Hobj.
Qed.

Lemma first_fenced_object_returned_example :
  find_json_containing Json.decode
    (fenced (q "{'other':1}") ++ q " then " ++ fenced (q "{'KEY': {'n': 1}}")
     ++ q " and bare {'KEY':2}")
    (T "KEY")
  = Some (q "{'KEY': {'n': 1}}").
Proof.
  apply (@first_fenced_object_returned Json.decode _ (T "KEY")
           [q "{'other':1}"] [] (q "{'KEY': {'n': 1}}")); reflexivity.
Defined.

(** C7, as stated, fails: the fenced block decodes to an object with the
    marker key at top level, the key being written with an escape, and the
    locator returns the bare occurrence. *)
Lemma escaped_key_block_passed_over :
  code_blocks escaped_key_text = [escaped_key_block]
  /\ Json.decode escaped_key_block
     = Some (Json.JObj [(T "KEY", Json.JNum (T "1"))])
  /\ find_json_containing Json.decode escaped_key_text (T "KEY")
     = Some (q "{'KEY':2}").
Proof. repeat split; reflexivity. Qed.

End LocatorClaims.

(** ** Facts on the matcher *)
Module MatcherFacts.
Import Re Spec.

Lemma lits_ok_app (ic : bool) (a b s : text) :
  lits_ok ic (a ++ b) s = lits_ok ic a s && lits_ok ic b (skipn (length a) s).
Proof.
  revert s. induction a as [|c a IH]; intros s.
  - reflexivity.
  - destruct s as [|x s]; cbn [app lits_ok length skipn].
    + destruct b; reflexivity.
    + rewrite IH. now rewrite andb_assoc.
Qed.

Lemma lits_ok_lower (w s : text) :
  forallb (fun c => Py.eqc (Py.lower_char c) c) w = true ->
  lits_ok true w s = Py.starts_with w (Py.lower s).
Proof.
  revert s. induction w as [|c w IH]; intros s H; [reflexivity|].
  cbn [forallb] in H. apply andb_prop in H as [Hc Hw]. apply eqc_eq in Hc.
  destruct s as [|x s]; [reflexivity|].
  cbn [lits_ok Py.lower map Py.starts_with]. unfold lit_ok.
  rewrite Hc, LocatorFacts.eqc_sym. f_equal. apply IH, Hw.
Qed.

(** A match somewhere in the text is found by the search. *)
Lemma search_finds (ic : bool) (r : regex) (a b : text) (i : nat) :
  match_at ic r (length a + i) b <> None ->
  search_from ic r i (a ++ b) <> None.
Proof.
  revert i. induction a as [|c a IH]; intros i H.
  - cbn [app length Nat.add] in *. destruct b; cbn [search_from];
      destruct (match_at ic r i _) as [[j cs]|]; congruence.
  - cbn [app search_from].
    destruct (match_at ic r i (c :: a ++ b)) as [[j cs]|]; [discriminate|].
    apply IH. cbn [length] in H. now rewrite Nat.add_succ_r.
Qed.

Lemma contains_split (w s : text) :
  Py.contains w s = true ->
  exists a b, s = a ++ b /\ Py.starts_with w b = true.
Proof.
  induction s as [|c s IH]; cbn [Py.contains]; intro H.
  - rewrite orb_false_r in H. now exists [], [].
  - apply orb_prop in H as [H|H].
    + now exists [], (c :: s).
    + destruct (IH H) as (a & b & -> & Hb). now exists (c :: a), b.
Qed.

Lemma lower_split (s : text) (a' b' : text) :
  Py.lower s = a' ++ b' ->
  exists a b, s = a ++ b /\ Py.lower b = b'.
Proof.
  revert s. induction a' as [|c a' IH]; intros s H.
  - now exists [], s.
  - destruct s as [|x s]; [discriminate|].
    cbn in H. injection H as _ H. destruct (IH s H) as (a & b & -> & Hb).
    now exists (x :: a), b.
Qed.

(** A literal lower-case word that occurs in the lowered text is found by
    the case-insensitive search. *)
Lemma occurs_found (r : regex) (w content : text) :
  (forall i b, Py.starts_with w (Py.lower b) = true -> match_at true r i b <> None) ->
  occurs content w = true ->
  search true r content <> None.
Proof.
  intros Hr H. unfold occurs in H.
  apply contains_split in H as (a' & b' & Hsplit & Hb').
  apply lower_split in Hsplit as (a & b & -> & <-).
  apply search_finds, Hr, Hb'.
Qed.

Lemma word_matches (w : text) (i : nat) (b : text) :
  forallb (fun c => Py.eqc (Py.lower_char c) c) w = true ->
  Py.starts_with w (Py.lower b) = true ->
  match_at true (lits w) i b <> None.
Proof.
  intros Hw Hb. unfold match_at.
  rewrite LocatorFacts.rmatch_lits, lits_ok_lower, Hb by assumption. discriminate.
Qed.

(** [w1 c? w2] reads both [w1 c w2] and [w1 w2]. *)
Lemma optional_char_matches (w1 w2 : text) (c : ascii) (i : nat) (b : text) :
  lits_ok true (w1 ++ c :: w2) b = true \/ lits_ok true (w1 ++ w2) b = true ->
  match_at true (Seq (lits w1) (Seq (Opt (Lit c)) (lits w2))) i b <> None.
Proof.
  intro H. unfold match_at. cbn [rmatch].
  rewrite LocatorFacts.rmatch_lits.
  rewrite !lits_ok_app in H.
  destruct (lits_ok true w1 b); [|destruct H; discriminate].
  cbn [andb] in H. set (s1 := skipn (length w1) b) in *.
  destruct H as [H|H].
  - destruct s1 as [|x s1]; [discriminate|].
    cbn [lits_ok] in H. apply andb_prop in H as [Hx H].
    rewrite Hx, LocatorFacts.rmatch_lits, H. discriminate.
  - unfold or_else.
    destruct (match s1 with [] => None | x :: s' => _ end); [discriminate|].
    rewrite LocatorFacts.rmatch_lits, H. discriminate.
Qed.

End MatcherFacts.

(** ** The reset time in a zone without transitions *)
Module FixedZone.
Import DateTime RateLimitParser Spec.
Open Scope Z_scope.

Lemma wall_of_wall (w us fd : Z) : wall_seconds (of_wall w us fd) = w.
Proof.
  unfold wall_seconds, of_wall. cbn [day hour minute second].
  Z.to_euclidean_division_equations. lia.
Qed.

Lemma wall_shifted (dt : datetime) (d s : Z) :
  wall_seconds (shifted dt d s) = wall_seconds dt + d * 86400 + s.
Proof.
  unfold wall_seconds, shifted. cbn [day hour minute second].
  Z.to_euclidean_division_equations. lia.
Qed.

(** A sum that is returned is the shifted wall clock, and its date is one
    a [datetime] holds. *)
Lemma added (dt r : datetime) (d s : Z) :
  add dt d s = Ok r ->
  r = shifted dt d s /\ MINDAY <= day r <= MAXDAY.
Proof.
  unfold add.
  destruct (Z.leb_spec MINDAY (day (shifted dt d s))); cbn [andb];
    [|discriminate].
  destruct (Z.leb_spec (day (shifted dt d s)) MAXDAY); [|discriminate].
  intro E. injection E as <-. split; [reflexivity | split; assumption].
Qed.

(** The two sums of [parse_time_with_timezone]. *)
Lemma rolled_and_buffered (r now r1 r2 : datetime) :
  (if le r now then add r 1 0 else Ok r) = Ok r1 ->
  add r1 0 RATE_LIMIT_BUFFER_SECONDS = Ok r2 ->
  r2 = shifted (if le r now then shifted r 1 0 else r) 0 RATE_LIMIT_BUFFER_SECONDS
  /\ MINDAY <= day r2 <= MAXDAY.
Proof.
  intros H1 H2. apply added in H2 as (-> & Hday). split; [|exact Hday].
  destruct (le r now).
  - now apply added in H1 as (-> & _).
  - now injection H1 as <-.
Qed.

Lemma of_wall_fields (w us fd : Z) :
  0 <= hour (of_wall w us fd) < 24 /\ 0 <= minute (of_wall w us fd) < 60
  /\ 0 <= second (of_wall w us fd) < 60.
Proof.
  unfold of_wall. cbn [hour minute second].
  Z.to_euclidean_division_equations. lia.
Qed.

Lemma replaced (now r : datetime) (h m : Z) :
  replace now h m = Ok r ->
  r = {| day := day now; hour := h; minute := m; second := 0;
         microsecond := 0; fold := fold now |}
  /\ 0 <= h <= 23 /\ 0 <= m <= 59.
Proof.
  unfold replace.
  destruct (fits_int h && fits_int m); cbn [negb]; [|discriminate].
  destruct (Z.leb_spec 0 h), (Z.leb_spec h 23); cbn; try discriminate;
  destruct (Z.leb_spec 0 m), (Z.leb_spec m 59); cbn; try discriminate.
  intro E. injection E as <-. repeat split; assumption.
Qed.

(** The wall clocks of the candidate and of now, as the rollover test sees
    them. *)
Lemma rollover_test (now : datetime) (h m : Z) :
  0 <= hour now < 24 -> 0 <= minute now < 60 -> 0 <= second now < 60 ->
  0 <= microsecond now ->
  0 <= h <= 23 -> 0 <= m <= 59 ->
  let r := {| day := day now; hour := h; minute := m; second := 0;
              microsecond := 0; fold := fold now |} in
  if le r now then wall_seconds r <= wall_seconds now
  else wall_seconds now < wall_seconds r.
Proof.
  intros HH HM HS HU Hh Hm r. unfold le, fields, lex_le, wall_seconds, r.
  cbn [day hour minute second microsecond].
  repeat match goal with
         | |- context [Z.ltb ?a ?b] => destruct (Z.ltb_spec a b)
         | |- context [Z.eqb ?a ?b] => destruct (Z.eqb_spec a b)
         end; cbn [orb andb]; lia.
Qed.

(** In a zone of one fixed offset the epoch returned is after the reading of
    the clock, by at most a day and the buffer. *)
Lemma fixed_zone_reset_in_future
    (ZoneInfo : text -> option tzinfo) (clock off : Z)
    (time_str tz_str : text) (epoch : Z) (reset : datetime) (z : text) :
  ZoneInfo tz_str = Some (fixed_zone off) ->
  parse_time_with_timezone ZoneInfo clock time_str tz_str
    = Ok (Some (epoch, reset, z)) ->
  clock < epoch * 1000000 <= clock + (86400 + 60) * 1000000.
Proof.
  intros Hzone. unfold parse_time_with_timezone. rewrite Hzone.
  destruct (parse_hour_minute time_str) as [[h m]|]; [|discriminate].
  assert (Hnow : wall_seconds (fromutc (fixed_zone off) clock)
                 = clock / 1000000 + off) by apply wall_of_wall.
  assert (Hfields : 0 <= hour (fromutc (fixed_zone off) clock) < 24
                    /\ 0 <= minute (fromutc (fixed_zone off) clock) < 60
                    /\ 0 <= second (fromutc (fixed_zone off) clock) < 60)
    by apply of_wall_fields.
  assert (HU : 0 <= microsecond (fromutc (fixed_zone off) clock))
    by (cbn; Z.to_euclidean_division_equations; lia).
  remember (fromutc (fixed_zone off) clock) as now eqn:Hdef. clear Hdef.
  destruct Hfields as (HH & HM & HS).
  destruct (replace now h m) as [r|e] eqn:Hr; [|discriminate].
  apply replaced in Hr as (Hr & Hh & Hm).
  pose proof (@rollover_test now h m HH HM HS HU Hh Hm) as Hroll.
  cbn zeta in Hroll. rewrite <- Hr in Hroll.
  assert (Hday : day now * 86400 <= wall_seconds now < day now * 86400 + 86400)
    by (unfold wall_seconds; lia).
  assert (Hrday : day now * 86400 <= wall_seconds r < day now * 86400 + 86400)
    by (rewrite Hr; unfold wall_seconds; cbn [day hour minute second]; lia).
  assert (Hrus : microsecond r = 0) by (rewrite Hr; reflexivity).
  clear Hr.
  destruct (if le r now then add r 1 0 else Ok r) as [r1|e1] eqn:H1;
    [|discriminate].
  destruct (add r1 0 RATE_LIMIT_BUFFER_SECONDS) as [r2|e2] eqn:H2;
    [|discriminate].
  destruct (rolled_and_buffered r now H1 H2) as (-> & _). clear H1 H2.
  intro E. injection E as <- _ _.
  unfold timestamp_int, instant_us, RATE_LIMIT_BUFFER_SECONDS.
  cbn [utcoffset fixed_zone].
  assert (Hus : forall dt d s, microsecond (shifted dt d s) = microsecond dt)
    by reflexivity.
  destruct (le r now);
    rewrite !wall_shifted, !Hus, Hrus, Z.add_0_r, Z.quot_mul by lia;
    Z.to_euclidean_division_equations; lia.
Qed.

End FixedZone.

(** ** Claims on the resolver *)
Module ResolverClaims.
Import Re DateTime RateLimitParser Spec.

(** C2: a captured time whose hour or minute is out of range is not turned
    into [DetectedUnparseable]: the ValueError of [replace] leaves the
    resolver, at every reading of the clock. *)
Theorem out_of_range_time_raises :
  forall clock : Z,
    resolve zones clock (T "resets 99:99 (UTC)") = Raise ValueError
    /\ resolve zones clock (T "resets 13pm (UTC)") = Raise ValueError.
Proof. intro clock. split; reflexivity. Qed.

(** C4: in the repeated hour at the end of daylight saving time the epoch
    returned lies before the time of the computation.  The clock reads
    2025-11-02 06:30:00 UTC, which is 01:30 EST with fold 1 in New York;
    the reset 01:46 gets fold 0, that is EDT, 44 minutes earlier. *)
Theorem repeated_hour_reset_in_past :
  fromutc new_york_autumn_2025 (utc_us 2025 11 2 6 30 0)
  = {| day := days_from_civil 2025 11 2; hour := 1; minute := 30; second := 0;
       microsecond := 0; fold := 1 |}
  /\ resolve zones (utc_us 2025 11 2 6 30 0) (T "resets 1:45am (America/New_York)")
     = Ok (DetectedResolved 1762062360
             {| day := days_from_civil 2025 11 2; hour := 1; minute := 46;
                second := 0; microsecond := 0; fold := 0 |}
             (T "America/New_York"))
  /\ (1762062360 * 1000000 < utc_us 2025 11 2 6 30 0)%Z.
Proof. repeat split; reflexivity. Qed.

(** C8: with UTC a zone of offset 0, a text in which the notice detected is
    resets 6pm (UTC) resolves, when read at 2025-01-01 10:00 UTC, to
    2025-01-01 18:01:00 UTC, and when read at 2025-01-01 20:00 UTC, to
    2025-01-02 18:01:00 UTC. *)
Theorem resets_6pm_utc :
  forall (ZoneInfo : text -> option tzinfo) (content : text),
    ZoneInfo (T "UTC") = Some (fixed_zone 0) ->
    find_rate_limit_pattern content = (Some (T "6pm", T "UTC"), true) ->
    (resolve ZoneInfo (utc_us 2025 1 1 10 0 0) content
     = Ok (DetectedResolved 1735754460
             {| day := days_from_civil 2025 1 1; hour := 18; minute := 1;
                second := 0; microsecond := 0; fold := 0 |} (T "UTC"))
     /\ (1735754460 * 1000000 = utc_us 2025 1 1 18 1 0)%Z)
    /\
    (resolve ZoneInfo (utc_us 2025 1 1 20 0 0) content
     = Ok (DetectedResolved 1735840860
             {| day := days_from_civil 2025 1 2; hour := 18; minute := 1;
                second := 0; microsecond := 0; fold := 0 |} (T "UTC"))
     /\ (1735840860 * 1000000 = utc_us 2025 1 2 18 1 0)%Z).
Proof.
  intros ZoneInfo content Hutc Hfound.
  unfold resolve, parse_time_with_timezone.
  rewrite Hfound. cbn [negb]. rewrite Hutc.
  repeat split; reflexivity.
Qed.

Lemma resets_6pm_utc_example :
  (resolve zones (utc_us 2025 1 1 10 0 0) limit_notice
   = Ok (DetectedResolved 1735754460
           {| day := days_from_civil 2025 1 1; hour := 18; minute := 1;
              second := 0; microsecond := 0; fold := 0 |} (T "UTC"))
   /\ (1735754460 * 1000000 = utc_us 2025 1 1 18 1 0)%Z)
  /\
  (resolve zones (utc_us 2025 1 1 20 0 0) limit_notice
   = Ok (DetectedResolved 1735840860
           {| day := days_from_civil 2025 1 2; hour := 18; minute := 1;
              second := 0; microsecond := 0; fold := 0 |} (T "UTC"))
   /\ (1735840860 * 1000000 = utc_us 2025 1 2 18 1 0)%Z).
Proof. exact (@resets_6pm_utc zones limit_notice eq_refl eq_refl). Defined.

End ResolverClaims.

Module BarePhrases.
Import Re DateTime RateLimitParser Spec.

Lemma bare_phrase_detected (content : text) :
  existsb (occurs content) bare_phrases = true ->
  bare_match content = true.
Proof.
  intro H. unfold bare_match, bare_patterns, word.
  cbn [existsb bare_phrases] in *.
  repeat rewrite orb_true_iff in H. rewrite orb_false_r.
  assert (Hyes : forall r, search true r content <> None ->
            match search true r content with Some _ => true | None => false end
            = true)
    by (intros r Hr; destruct (search true r content); congruence).
  destruct H as [H|[H|[H|[H|[H|H]]]]]; try discriminate.
  - rewrite Hyes; [reflexivity|].
    eapply MatcherFacts.occurs_found; [|exact H]. intros i b Hb.
    apply (MatcherFacts.optional_char_matches (T "you") (T "ve hit your limit")).
    left. now rewrite MatcherFacts.lits_ok_lower.
  - rewrite Hyes; [reflexivity|].
    eapply MatcherFacts.occurs_found; [|exact H]. intros i b Hb.
    apply (MatcherFacts.optional_char_matches (T "you") (T "ve hit your limit")).
    right. now rewrite MatcherFacts.lits_ok_lower.
  - rewrite (Hyes (lits (T "rate limit exceeded"))); [now rewrite orb_true_r|].
    eapply MatcherFacts.occurs_found; [|exact H]. intros i b Hb.
    now apply MatcherFacts.word_matches.
  - rewrite (Hyes (lits (T "rate limited"))); [now rewrite !orb_true_r|].
    eapply MatcherFacts.occurs_found; [|exact H]. intros i b Hb.
    now apply MatcherFacts.word_matches.
  - rewrite (Hyes (lits (T "too many requests"))); [now rewrite !orb_true_r|].
    eapply MatcherFacts.occurs_found; [|exact H]. intros i b Hb.
    now apply MatcherFacts.word_matches.
Qed.

(** C5, as amended: for a text without a match of a time-bearing pattern,
    of at most 500 characters and holding, in any case, one of the phrases
    you've hit your limit, youve hit your limit, rate limit exceeded, rate
    limited, too many requests, the resolver returns [DetectedUnparseable];
    for such a text of more than 500 characters it returns [NotDetected]. *)
Theorem bare_phrase_outcomes :
  forall (ZoneInfo : text -> option tzinfo) (clock : Z) (content : text),
    first_captured content time_patterns = None ->
    ((length content <= 500)%nat ->
     existsb (occurs content) bare_phrases = true ->
     resolve ZoneInfo clock content = Ok DetectedUnparseable)
    /\ ((500 < length content)%nat ->
        resolve ZoneInfo clock content = Ok NotDetected).
Proof.
  intros ZoneInfo clock content Hnone. unfold resolve, find_rate_limit_pattern.
  rewrite Hnone. unfold BARE_PATTERN_MAX_CONTENT_SIZE. split.
  - intros Hlen Hphrase.
    apply Nat.leb_le in Hlen. rewrite Hlen.
    now rewrite (bare_phrase_detected content Hphrase).
  - intro Hlen. apply Nat.leb_gt in Hlen. now rewrite Hlen.
Qed.

Lemma bare_phrase_outcomes_example :
  resolve zones 0 (T "Error: You've hit your limit.") = Ok DetectedUnparseable
  /\ resolve zones 0 long_discussion = Ok NotDetected.
Proof.
  split.
  - apply (proj1 (bare_phrase_outcomes zones 0
                    (T "Error: You've hit your limit.") eq_refl)).
    + cbn. lia.
    + reflexivity.
  - apply (proj2 (bare_phrase_outcomes zones 0 long_discussion eq_refl)).
    cbn. lia.
Defined.

(** C5, as stated, fails: a short text that holds the phrase hit your limit
    without the word before it is not detected. *)
Lemma hit_your_limit_alone_not_detected :
  first_captured (T "We hit your limit again") time_patterns = None
  /\ (length (T "We hit your limit again") <= 500)%nat
  /\ occurs (T "We hit your limit again") (T "hit your limit") = true
  /\ resolve zones 0 (T "We hit your limit again") = Ok NotDetected.
Proof. repeat split. cbn. lia. Qed.

End BarePhrases.

(** ** Reading the captured time *)
Module ClockReading.
Import RateLimitParser Spec.

Lemma time_char_facts (c : ascii) :
  time_char c = true ->
  Py.is_space c = false /\ Py.lower_char c = c /\ apm c = false
  /\ Py.eqc "a"%char c = false /\ Py.eqc "p"%char c = false.
Proof. each_char c; repeat split; reflexivity. Qed.

Lemma digit_facts (c : ascii) :
  Py.is_digit c = true ->
  time_char c = true /\ Py.eqc c ":"%char = false /\ Py.eqc ":"%char c = false
  /\ Py.eqc c "-"%char = false /\ Py.eqc c "+"%char = false.
Proof. each_char c; repeat split; reflexivity. Qed.

Lemma digit_no_int_space (c : ascii) :
  Py.is_digit c = true -> Py.is_int_space c = false.
Proof. each_char c. Qed.

Lemma space_lower (c : ascii) : Py.is_space c = true -> Py.lower_char c = c.
Proof. each_char c. Qed.

Lemma digits_time_chars (ds : text) :
  forallb Py.is_digit ds = true -> forallb time_char ds = true.
Proof.
  induction ds as [|d ds IH]; cbn [forallb]; intro H; [reflexivity|].
  apply andb_prop in H as [Hd Hds].
  destruct (digit_facts d Hd) as [-> _]. now apply IH.
Qed.

Lemma minutes_time_chars (mins : text) :
  minutes_field mins = true -> forallb time_char mins = true.
Proof.
  destruct mins as [|c mm]; [reflexivity|]. cbn [minutes_field forallb].
  intro H. apply andb_prop in H as [H Hmm]. apply andb_prop in H as [Hc _].
  apply eqc_eq in Hc. subst c. now apply digits_time_chars.
Qed.

Lemma lower_fixed (p : ascii -> bool) (s : text) :
  (forall c, p c = true -> Py.lower_char c = c) ->
  forallb p s = true -> Py.lower s = s.
Proof.
  intros Hp. induction s as [|c s IH]; cbn [forallb Py.lower map]; intro H;
    [reflexivity|].
  apply andb_prop in H as [Hc Hs]. rewrite (Hp c Hc). f_equal. apply IH, Hs.
Qed.

Lemma remove_spaces_none (s : text) :
  forallb time_char s = true -> Py.remove_spaces s = s.
Proof.
  induction s as [|c s IH]; cbn [forallb Py.remove_spaces filter]; intro H;
    [reflexivity|].
  apply andb_prop in H as [Hc Hs].
  destruct (time_char_facts c Hc) as (-> & _). cbn [negb]. f_equal. apply IH, Hs.
Qed.

Lemma remove_spaces_all (s : text) :
  forallb Py.is_space s = true -> Py.remove_spaces s = [].
Proof.
  induction s as [|c s IH]; cbn [forallb Py.remove_spaces filter]; intro H;
    [reflexivity|].
  apply andb_prop in H as [Hc Hs]. rewrite Hc. cbn [negb]. apply IH, Hs.
Qed.

Lemma starts_with_refl (w rest : text) : Py.starts_with w (w ++ rest) = true.
Proof.
  induction w as [|c w IH]; [reflexivity|].
  cbn [app Py.starts_with]. now rewrite eqc_refl.
Qed.

Lemma contains_end (w a : text) : Py.contains w (a ++ w) = true.
Proof.
  induction a as [|c a IH]; cbn [app].
  - destruct w as [|x w]; [reflexivity|]. cbn [Py.contains].
    rewrite <- (app_nil_r (x :: w)) at 2. now rewrite starts_with_refl.
  - cbn [Py.contains]. rewrite IH. apply orb_true_r.
Qed.

(** A text that holds no first character of [w] does not hold [w]. *)
Lemma contains_needs_head (c : ascii) (w s : text) :
  existsb (Py.eqc c) s = false -> Py.contains (c :: w) s = false.
Proof.
  induction s as [|x s IH]; cbn [existsb Py.contains Py.starts_with]; intro H.
  - reflexivity.
  - apply orb_false_elim in H as [Hx Hs]. rewrite Hx, IH by assumption.
    reflexivity.
Qed.

Lemma contains_char (c : ascii) (s : text) :
  Py.contains [c] s = existsb (Py.eqc c) s.
Proof.
  induction s as [|x s IH]; [reflexivity|].
  cbn [Py.contains Py.starts_with existsb]. rewrite IH.
  now rewrite andb_true_r.
Qed.

Lemma none_of (p q : ascii -> bool) (s : text) :
  (forall c, p c = true -> q c = false) ->
  forallb p s = true -> existsb q s = false.
Proof.
  intro Hpq. induction s as [|c s IH]; cbn [forallb existsb]; intro H;
    [reflexivity|].
  apply andb_prop in H as [Hc Hs]. now rewrite (Hpq c Hc), IH.
Qed.

Lemma digits_acc_decimal (ds : text) (acc : Z) (seen : bool) :
  forallb Py.is_digit ds = true ->
  (seen = true \/ ds <> []) ->
  Py.digits_acc acc seen ds
  = Some (fold_left (fun a c => (10 * a + Py.digit_val c)%Z) ds acc).
Proof.
  revert acc seen. induction ds as [|d ds IH]; intros acc seen H Hne.
  - destruct Hne as [->|Hne]; [reflexivity | contradiction].
  - cbn [forallb] in H. apply andb_prop in H as [Hd Hds].
    cbn [Py.digits_acc fold_left]. rewrite Hd. apply IH; [exact Hds | now left].
Qed.

Lemma int_digits (ds : text) :
  forallb Py.is_digit ds = true -> ds <> [] ->
  Py.int ds = Some (decimal ds).
Proof.
  intros H Hne. unfold Py.int, decimal.
  assert (Hstrip : Py.rstrip_set Py.is_int_space
                     (Py.drop_while Py.is_int_space ds) = ds).
  { unfold Py.rstrip_set.
    assert (Hdrop : forall s, forallb Py.is_digit s = true ->
                      Py.drop_while Py.is_int_space s = s).
    { intros [|c s] Hs; [reflexivity|]. cbn [forallb] in Hs.
      apply andb_prop in Hs as [Hc _]. cbn [Py.drop_while].
      now rewrite (digit_no_int_space c Hc). }
    rewrite (Hdrop ds H), Hdrop; [apply rev_involutive|].
    rewrite forallb_forall in *. intros x Hx. apply H. now apply in_rev. }
  rewrite Hstrip. destruct ds as [|c r]; [contradiction|].
  pose proof H as H'. cbn [forallb] in H'. apply andb_prop in H' as [Hc _].
  destruct (digit_facts c Hc) as (_ & _ & _ & -> & ->).
  apply digits_acc_decimal; [exact H | now right].
Qed.

Lemma split_acc_colon (a b cur : text) :
  forallb Py.is_digit a = true -> forallb Py.is_digit b = true ->
  Py.split_acc ":"%char cur (a ++ ":"%char :: b) = [rev cur ++ a; b].
Proof.
  intros Ha Hb. revert cur. induction a as [|c a IH]; intro cur.
  - cbn [app Py.split_acc]. rewrite eqc_refl, app_nil_r. f_equal.
    assert (Hrest : forall cur', Py.split_acc ":"%char cur' b = [rev cur' ++ b]).
    { induction b as [|x b IHb]; intro cur'.
      - cbn. now rewrite app_nil_r.
      - cbn [forallb] in Hb. apply andb_prop in Hb as [Hx Hb].
        cbn [Py.split_acc]. destruct (digit_facts x Hx) as (_ & -> & _).
        rewrite (IHb Hb). cbn [rev]. now rewrite <- app_assoc. }
    now rewrite Hrest.
  - cbn [forallb] in Ha. apply andb_prop in Ha as [Hc Ha].
    cbn [app Py.split_acc]. destruct (digit_facts c Hc) as (_ & -> & _).
    rewrite (IH Ha). cbn [rev]. now rewrite <- app_assoc.
Qed.

Lemma split_hour_minute_digits (a b : text) :
  forallb Py.is_digit a = true -> a <> [] ->
  forallb Py.is_digit b = true -> b <> [] ->
  split_hour_minute (a ++ ":"%char :: b) = Some (decimal a, decimal b).
Proof.
  intros Ha Hane Hb Hbne. unfold split_hour_minute, Py.split.
  rewrite split_acc_colon by assumption. cbn [rev app]. unfold int2.
  now rewrite !int_digits.
Qed.

(** The marker is stripped from a time that ends in a digit. *)
Lemma rstrip_marker (x : text) (d : ascii) (marker : text) :
  Py.is_digit d = true -> forallb apm marker = true ->
  Py.rstrip_set apm ((x ++ [d]) ++ marker) = x ++ [d].
Proof.
  intros Hd Hm. unfold Py.rstrip_set. rewrite rev_app_distr.
  assert (Hdrop : forall m rest, forallb apm m = true ->
            Py.drop_while apm (m ++ d :: rest) = d :: rest).
  { induction m as [|c m IH]; intros rest Hc.
    - cbn [app Py.drop_while].
      destruct (digit_facts d Hd) as (Htc & _).
      now destruct (time_char_facts d Htc) as (_ & _ & -> & _).
    - cbn [forallb] in Hc. apply andb_prop in Hc as [Hc Hmm].
      cbn [app Py.drop_while]. rewrite Hc. now apply IH. }
  rewrite rev_app_distr. cbn [rev app]. rewrite Hdrop.
  - cbn [rev]. now rewrite rev_involutive.
  - rewrite forallb_forall in *. intros c Hc. apply Hm. now apply in_rev.
Qed.

End ClockReading.

Module ClockClaims.
Import RateLimitParser Spec ClockReading.

Lemma rstrip_keeps (p : ascii -> bool) (x : text) (c : ascii) :
  p c = false -> Py.rstrip_set p (x ++ [c]) = x ++ [c].
Proof.
  intro H. unfold Py.rstrip_set. rewrite rev_app_distr. cbn [rev app Py.drop_while].
  rewrite H. cbn [rev]. now rewrite rev_involutive.
Qed.

Lemma stripped_time (hh mins sp lm : text) :
  forallb Py.is_digit hh = true -> hh <> [] ->
  lm = T "am" \/ lm = T "pm" ->
  Py.strip (hh ++ mins ++ sp ++ lm) = hh ++ mins ++ sp ++ lm.
Proof.
  intros Hhh Hne Hlm.
  unfold Py.strip, Py.lstrip, Py.rstrip.
  destruct hh as [|d hh']; [contradiction|].
  cbn [forallb] in Hhh. apply andb_prop in Hhh as [Hd _].
  destruct (digit_facts d Hd) as (Htc & _).
  destruct (time_char_facts d Htc) as (Hsp & _).
  cbn [app Py.drop_while]. rewrite Hsp.
  change (d :: hh' ++ mins ++ sp ++ lm) with ((d :: hh') ++ mins ++ sp ++ lm).
  destruct Hlm as [->| ->].
  - change (T "am") with (T "a" ++ T "m"). rewrite !app_assoc.
    now apply rstrip_keeps.
  - change (T "pm") with (T "p" ++ T "m"). rewrite !app_assoc.
    now apply rstrip_keeps.
Qed.

Lemma ends_in_digit (ds : text) :
  forallb Py.is_digit ds = true -> ds <> [] ->
  exists x d, ds = x ++ [d] /\ Py.is_digit d = true.
Proof.
  intros H Hne. destruct (exists_last Hne) as (x & d & ->).
  exists x, d. split; [reflexivity|].
  rewrite forallb_app in H. apply andb_prop in H as [_ H]. cbn in H.
  now rewrite andb_true_r in H.
Qed.

Lemma no_letter (c : ascii) (x lm : text) :
  (forall y, time_char y = true -> Py.eqc c y = false) ->
  forallb time_char x = true ->
  existsb (Py.eqc c) lm = false ->
  existsb (Py.eqc c) (x ++ lm) = false.
Proof.
  intros Hc Hx Hlm. rewrite existsb_app, Hlm, orb_false_r.
  now apply (none_of time_char).
Qed.

Lemma to_24_clock24 (x lm : text) (h : Z) :
  forallb time_char x = true ->
  lm = T "am" \/ lm = T "pm" ->
  to_24 (x ++ lm) h = clock24 lm h.
Proof.
  intros Hx Hlm. unfold to_24, clock24.
  assert (Ha : forall y, time_char y = true -> Py.eqc "a"%char y = false)
    by (intros y Hy; apply (time_char_facts y Hy)).
  assert (Hp : forall y, time_char y = true -> Py.eqc "p"%char y = false)
    by (intros y Hy; apply (time_char_facts y Hy)).
  destruct Hlm as [-> | ->]; rewrite contains_end.
  - rewrite (contains_needs_head "p"%char (T "m"))
      by (now apply no_letter).
    reflexivity.
  - rewrite (contains_needs_head "a"%char (T "m"))
      by (now apply no_letter).
    cbn [Py.eqt T list_ascii_of_string andb]. 
    replace (Py.eqt (T "pm") (T "pm")) with true by reflexivity.
    destruct (h =? 12)%Z eqn:E; cbn [negb andb]; [|reflexivity].
    apply Z.eqb_eq in E. now subst h.
Qed.

(** C9: a captured time made of an hour from 1 to 12 in digits, optional
    minutes after a colon, optional white space and an am or pm marker in
    any case is read with the hour on the 24-hour clock: 12 am is 0, 1 to 11
    pm gain 12, 12 pm stays 12 and 1 to 11 am stay unchanged. *)
Theorem twelve_hour_conversion :
  forall hh mins sp marker : text,
    forallb Py.is_digit hh = true ->
    (1 <= decimal hh <= 12)%Z ->
    minutes_field mins = true ->
    forallb Py.is_space sp = true ->
    (Py.lower marker = T "am" \/ Py.lower marker = T "pm") ->
    parse_hour_minute (hh ++ mins ++ sp ++ marker)
    = Some (clock24 (Py.lower marker) (decimal hh), minute_of mins).
Proof.
  intros hh mins sp marker Hhh Hrange Hmins Hsp Hmarker.
  assert (Hne : hh <> []) by (intros ->; cbn in Hrange; lia).
  pose proof (digits_time_chars hh Hhh) as Hhh_tc.
  pose proof (minutes_time_chars mins Hmins) as Hmins_tc.
  unfold parse_hour_minute.
  assert (Hlower : Py.lower (hh ++ mins ++ sp ++ marker)
                   = hh ++ mins ++ sp ++ Py.lower marker).
  { unfold Py.lower. rewrite !map_app. fold (Py.lower hh) (Py.lower mins)
      (Py.lower sp) (Py.lower marker).
    rewrite (lower_fixed time_char hh), (lower_fixed time_char mins),
      (lower_fixed Py.is_space sp); try assumption; try reflexivity.
    - apply space_lower.
    - intros c Hc. apply (time_char_facts c Hc).
    - intros c Hc. apply (time_char_facts c Hc). }
  rewrite Hlower. remember (Py.lower marker) as lm eqn:Hlm. clear Hlm Hlower.
  rewrite stripped_time by assumption.
  assert (Hhas : Py.contains lm (hh ++ mins ++ sp ++ lm) = true).
  { rewrite !app_assoc. apply contains_end. }
  assert (Hspaces : Py.remove_spaces (hh ++ mins ++ sp ++ lm) = (hh ++ mins) ++ lm).
  { unfold Py.remove_spaces. rewrite !filter_app.
    fold (Py.remove_spaces hh) (Py.remove_spaces mins) (Py.remove_spaces sp)
         (Py.remove_spaces lm).
    rewrite (remove_spaces_none hh), (remove_spaces_none mins),
      (remove_spaces_all sp) by assumption.
    destruct Hmarker as [-> | ->]; cbn; now rewrite app_assoc. }
  assert (Hbranch : negb (Py.contains (T "am") (hh ++ mins ++ sp ++ lm))
                    && negb (Py.contains (T "pm") (hh ++ mins ++ sp ++ lm)) = false).
  { destruct Hmarker as [-> | ->]; rewrite Hhas;
      [reflexivity | apply andb_false_r]. }
  rewrite Hbranch, Hspaces. clear Hbranch Hspaces Hhas.
  assert (Hx_tc : forallb time_char (hh ++ mins) = true)
    by now rewrite forallb_app, Hhh_tc, Hmins_tc.
  assert (Hmk : forallb apm lm = true) by (destruct Hmarker as [-> | ->]; reflexivity).
  assert (Hnocolon : existsb (Py.eqc ":"%char) lm = false)
    by (destruct Hmarker as [-> | ->]; reflexivity).
  change (T ":") with [":"%char].
  rewrite contains_char, !existsb_app, Hnocolon, orb_false_r.
  rewrite (none_of Py.is_digit (Py.eqc ":"%char) hh)
    by (assumption || (intros c Hc; apply (digit_facts c Hc))).
  cbn [orb].
  destruct mins as [|c mm].
  - rewrite app_nil_r.
    assert (Hr : Py.rstrip_set apm (hh ++ lm) = hh).
    { destruct (@ends_in_digit hh Hhh Hne) as (x & d & Hx & Hd).
      rewrite Hx. apply (@rstrip_marker x d lm Hd Hmk). }
    rewrite Hr, (@int_digits hh Hhh Hne).
    cbn [existsb]. now rewrite (@to_24_clock24 hh lm _ Hhh_tc Hmarker).
  - cbn [minutes_field] in Hmins.
    apply andb_prop in Hmins as [Hmins Hmm]. apply andb_prop in Hmins as [Hc Hlen].
    apply eqc_eq in Hc. subst c.
    assert (Hmm_ne : mm <> []) by (intros ->; discriminate).
    cbn [existsb]. rewrite eqc_refl. cbn [orb].
    assert (Hr : Py.rstrip_set apm ((hh ++ ":"%char :: mm) ++ lm)
                 = hh ++ ":"%char :: mm).
    { destruct (@ends_in_digit mm Hmm Hmm_ne) as (x & d & Hx & Hd).
      rewrite Hx.
      replace (hh ++ ":"%char :: x ++ [d]) with ((hh ++ ":"%char :: x) ++ [d])
        by (rewrite <- app_assoc; reflexivity).
      apply (@rstrip_marker _ d lm Hd Hmk). }
    rewrite Hr, (@split_hour_minute_digits hh mm Hhh Hne Hmm Hmm_ne).
    now rewrite (@to_24_clock24 _ lm _ Hx_tc Hmarker).
Qed.

Lemma twelve_hour_conversion_example :
  parse_hour_minute (T "12" ++ T ":30" ++ T " " ++ T "AM")
  = Some (clock24 (Py.lower (T "AM")) (decimal (T "12")), minute_of (T ":30")).
Proof.
  apply twelve_hour_conversion.
  - reflexivity.
  - change (decimal (T "12")) with 12%Z. lia.
  - reflexivity.
  - reflexivity.
  - left. reflexivity.
Defined.

End ClockClaims.

(** ** Case-insensitive matching *)
Module IgnoreCase.
Import Re RateLimitParser Spec.


























End IgnoreCase.

(** ** More on the locator and its [main] *)
Module LocatorMore.
Import Re JsonExtractor JsonExtractorMain Spec.

Lemma first_block_passes (json_loads : text -> option Json.value)
    (json_type : text) (blocks : list text) (block : text) :
  first_block json_loads json_type blocks = Some block ->
  In block blocks /\ loads_with json_loads json_type block = true.
Proof.
  induction blocks as [|b rest IH]; cbn [first_block]; [discriminate|].
  destruct (Py.contains json_type b && loads_with json_loads json_type b) eqn:E.
  - intro H. injection H as <-. apply andb_prop in E as [_ E].
    split; [now left | exact E].
  - intro H. destruct (IH H) as [Hin Hl]. split; [now right | exact Hl].
Qed.

Lemma found_passes (json_loads : text -> option Json.value)
    (content json_type c : text) :
  find_json_containing json_loads content json_type = Some c ->
  loads_with json_loads json_type c = true.
Proof.
  unfold find_json_containing.
  destruct (first_block json_loads json_type (code_blocks content)) as [b|] eqn:E.
  - intro H. injection H as <-. apply (first_block_passes _ _ _ E).
  - intro H. apply (LocatorFacts.bracket_method_opens_with_brace _ _ _ H).
Qed.

Lemma found_loads (json_loads : text -> option Json.value)
    (content json_type c : text) :
  find_json_containing json_loads content json_type = Some c ->
  exists parsed,
    json_loads c = Some parsed /\ Json.py_in json_type parsed = Some true.
Proof.
  intro Hfound. pose proof (found_passes _ _ _ Hfound) as Hpass.
  unfold loads_with in Hpass.
  destruct (json_loads c) as [parsed|]; [|discriminate].
  exists parsed. split; [reflexivity|].
  destruct (Json.py_in json_type parsed) as [[|]|]; congruence.
Qed.

(** X1: a text returned by the locator decodes, and the decoded value holds
    the marker key in the sense of Python's [in]; so the second decoding in
    [main] succeeds with that value. *)
Theorem found_text_decodes :
  forall (json_loads : text -> option Json.value) (content json_type c : text),
    find_json_containing json_loads content json_type = Some c ->
    exists parsed,
      json_loads c = Some parsed
      /\ Json.py_in json_type parsed = Some true
      /\ locate json_loads content json_type = Some parsed.
Proof.
  intros json_loads content json_type c Hfound.
  destruct (found_loads _ _ _ Hfound) as (parsed & Hc & Hin).
  exists parsed. unfold locate. rewrite Hfound. auto.
Qed.

Lemma found_text_decodes_example :
  exists parsed,
    Json.decode ralph_example = Some parsed
    /\ Json.py_in (T "RALPH_STATUS") parsed = Some true
    /\ locate Json.decode (T "Done. " ++ ralph_example) (T "RALPH_STATUS")
       = Some parsed.
Proof.
  exact (@found_text_decodes Json.decode (T "Done. " ++ ralph_example)
           (T "RALPH_STATUS") ralph_example eq_refl).
Defined.

(** X2: with a decoder that rejects the empty text, [main] given a readable
    file exits with 0 exactly when the locator finds a text, and then the
    value it prints is the decoded text; in every other case it exits with
    1 and prints nothing. *)
Theorem main_exit_code :
  forall (json_loads : text -> option Json.value)
         (read_file : text -> option text)
         (prog file_path json_type content : text),
    json_loads [] = None ->
    read_file file_path = Some content ->
    main json_loads read_file [prog; file_path; json_type]
    = match locate json_loads content json_type with
      | Some parsed => {| exit_code := 0; dumped := Some parsed |}
      | None => failure
      end
    /\ (locate json_loads content json_type = None
        <-> find_json_containing json_loads content json_type = None).
Proof.
  intros json_loads read_file prog file_path json_type content Hempty Hread.
  unfold main, locate. rewrite Hread.
  destruct (find_json_containing json_loads content json_type) as [c|] eqn:Hfound.
  - destruct (found_loads _ _ _ Hfound) as (parsed & Hc & _).
    destruct c as [|x c]; [congruence|]. cbn [truthy]. rewrite Hc.
    split; [reflexivity|]. split; discriminate.
  - split; [reflexivity|]. split; reflexivity.
Qed.

Lemma main_exit_code_example :
  main Json.decode (one_file (T "out.txt") (T "Done. " ++ ralph_example))
       [T "json_extractor.py"; T "out.txt"; T "RALPH_STATUS"]
  = match locate Json.decode (T "Done. " ++ ralph_example) (T "RALPH_STATUS") with
    | Some parsed => {| exit_code := 0; dumped := Some parsed |}
    | None => failure
    end
  /\ (locate Json.decode (T "Done. " ++ ralph_example) (T "RALPH_STATUS") = None
      <-> find_json_containing Json.decode (T "Done. " ++ ralph_example)
            (T "RALPH_STATUS") = None).
Proof.
  exact (@main_exit_code Json.decode
           (one_file (T "out.txt") (T "Done. " ++ ralph_example))
           (T "json_extractor.py") (T "out.txt") (T "RALPH_STATUS")
           (T "Done. " ++ ralph_example) eq_refl eq_refl).
Defined.

Lemma starts_with_prefix (w s : text) :
  Py.starts_with w s = true -> exists q, s = w ++ q.
Proof.
  revert s. induction w as [|c w IH]; intros s H.
  - now exists s.
  - destruct s as [|x s]; [discriminate|]. cbn [Py.starts_with] in H.
    apply andb_prop in H as [Hc Hw]. apply eqc_eq in Hc. subst x.
    destruct (IH s Hw) as (q & ->). now exists q.
Qed.

Lemma part_of_trans (a b c : text) : part_of a b -> part_of b c -> part_of a c.
Proof.
  intros (p & q & ->) (p' & q' & ->). exists (p' ++ p), (q ++ q').
  now rewrite <- !app_assoc.
Qed.

Lemma slice_part (a b : nat) (s : text) : part_of (Py.slice a b s) s.
Proof.
  exists (firstn a s), (skipn (b - a) (skipn a s)). unfold Py.slice.
  now rewrite firstn_skipn, firstn_skipn.
Qed.

Lemma drop_while_suffix (f : ascii -> bool) (s : text) :
  exists p, s = p ++ Py.drop_while f s.
Proof.
  induction s as [|c s (p & IH)]; [now exists []|].
  cbn [Py.drop_while]. destruct (f c).
  - exists (c :: p). cbn. now f_equal.
  - now exists [].
Qed.

Lemma strip_part (s : text) : part_of (Py.strip s) s.
Proof.
  unfold Py.strip, Py.lstrip, Py.rstrip, Py.rstrip_set.
  destruct (drop_while_suffix Py.is_space s) as (p & Hp).
  set (l := Py.drop_while Py.is_space s) in *.
  destruct (drop_while_suffix Py.is_space (rev l)) as (r & Hr).
  exists p, (rev r). rewrite Hp at 1. f_equal.
  rewrite <- (rev_involutive l) at 1. rewrite Hr at 1. apply rev_app_distr.
Qed.

Lemma group_part (content : text) (cs : caps) (n : nat) :
  part_of (group content cs n) content.
Proof.
  unfold group. destruct (group_span n cs) as [[a b]|].
  - apply slice_part.
  - now exists [], content.
Qed.

Lemma code_block_part (content block : text) :
  In block (code_blocks content) -> part_of block content.
Proof.
  unfold code_blocks. intro H. apply in_map_iff in H as (m & <- & _).
  eapply part_of_trans; [apply strip_part | apply group_part].
Qed.

(** When the scan ends with depth 0, the character before its end is a
    closing brace. *)
Lemma scan_end_is_brace (cs : text) :
  forall (i : nat) (d : Z) (ins esc : bool) (e : nat),
    (1 <= d)%Z ->
    fst (match_brackets cs i d ins esc e) = 0%Z ->
    exists n, snd (match_brackets cs i d ins esc e) = S (n + i)
              /\ nth_error cs n = Some Py.rbrace.
Proof.
  induction cs as [|c cs IH]; intros i d ins esc e Hd H.
  - cbn in H. lia.
  - assert (Hstep : forall d' ins' esc',
              (1 <= d')%Z ->
              fst (match_brackets cs (S i) d' ins' esc' e) = 0%Z ->
              exists n, snd (match_brackets cs (S i) d' ins' esc' e) = S (n + i)
                        /\ nth_error (c :: cs) n = Some Py.rbrace).
    { intros d' ins' esc' Hd' H'.
      destruct (IH (S i) d' ins' esc' e Hd' H') as (n & Hn & Hc).
      exists (S n). split; [rewrite Hn; lia | exact Hc]. }
    cbn [match_brackets] in *.
    destruct esc; [now apply Hstep|].
    destruct (Py.eqc c Py.bslash && ins); [now apply Hstep|].
    destruct (Py.eqc c Py.dq && negb false); [now apply Hstep|].
    destruct ins; [now apply Hstep|].
    destruct (Py.eqc c Py.lbrace); [apply Hstep; [lia | assumption]|].
    destruct (Py.eqc c Py.rbrace) eqn:Hc; [|now apply Hstep].
    destruct (Z.eqb_spec (d - 1) 0) as [E|E].
    + exists 0. apply eqc_eq in Hc. subst c. split; reflexivity.
    + apply Hstep; [lia | assumption].
Qed.

Lemma firstn_S_nth (s : text) (n : nat) (x : ascii) :
  nth_error s n = Some x -> firstn (S n) s = firstn n s ++ [x].
Proof.
  revert s. induction n as [|n IH]; intros [|c s] H; cbn in *; try discriminate.
  - now injection H as ->.
  - f_equal. now apply IH.
Qed.

Lemma bracket_method_braces (json_loads : text -> option Json.value)
    (content json_type c : text) :
  bracket_method json_loads content json_type = Some c ->
  part_of c content /\ exists body, c = Py.lbrace :: body ++ [Py.rbrace].
Proof.
  unfold bracket_method.
  destruct (Py.find _ content) as [key_pos|]; [|discriminate].
  set (start := opening_brace content key_pos).
  destruct (char_is content start Py.lbrace) eqn:Hopen; [|discriminate].
  cbn [negb].
  destruct (@LocatorFacts.skipn_at content start Py.lbrace Hopen) as (rest & Hrest).
  destruct (match_brackets (skipn start content) start 0 false false start)
    as [depth end_] eqn:Hscan.
  destruct (Z.eqb_spec depth 0) as [->|]; [|discriminate]. cbn [negb].
  destruct (loads_with json_loads json_type (Py.slice start end_ content));
    [|discriminate].
  intro E. injection E as <-. split; [apply slice_part|].
  unfold Py.slice. rewrite Hrest in *.
  cbn [match_brackets] in Hscan. cbn in Hscan.
  destruct (@scan_end_is_brace rest (S start) 1 false false start) as (n & Hn & Hc);
    [lia | now rewrite Hscan |].
  rewrite Hscan in Hn. cbn [snd] in Hn. subst end_.
  replace (S (n + S start) - start) with (S (S n)) by lia.
  change (firstn (S (S n)) (Py.lbrace :: rest))
    with (Py.lbrace :: firstn (S n) rest).
  rewrite (@firstn_S_nth rest n Py.rbrace Hc). eauto.
Qed.

(** X3: a text returned by the locator is a contiguous part of the input:
    nothing is made up or rewritten. *)
Theorem found_text_is_part_of_input :
  forall (json_loads : text -> option Json.value) (content json_type c : text),
    find_json_containing json_loads content json_type = Some c ->
    exists before after, content = before ++ c ++ after.
Proof.
  intros json_loads content json_type c. unfold find_json_containing.
  destruct (first_block json_loads json_type (code_blocks content)) as [b|] eqn:E.
  - intro H. injection H as <-.
    apply code_block_part, (first_block_passes _ _ _ E).
  - intro H. apply (bracket_method_braces _ _ _ H).
Qed.

Lemma found_text_is_part_of_input_example :
  exists before after,
    T "Done. " ++ ralph_example ++ T " Bye." = before ++ ralph_example ++ after.
Proof.
  exact (@found_text_is_part_of_input Json.decode
           (T "Done. " ++ ralph_example ++ T " Bye.") (T "RALPH_STATUS")
           ralph_example eq_refl).
Defined.

(** X4: a text returned by the locator is one of the fenced blocks of the
    input or a text that opens with a brace and closes with a brace. *)
Theorem found_text_is_block_or_braces :
  forall (json_loads : text -> option Json.value) (content json_type c : text),
    find_json_containing json_loads content json_type = Some c ->
    In c (code_blocks content)
    \/ exists body, c = Py.lbrace :: body ++ [Py.rbrace].
Proof.
  intros json_loads content json_type c. unfold find_json_containing.
  destruct (first_block json_loads json_type (code_blocks content)) as [b|] eqn:E.
  - intro H. injection H as <-. left. apply (first_block_passes _ _ _ E).
  - intro H. right. apply (bracket_method_braces _ _ _ H).
Qed.

Lemma found_text_is_block_or_braces_example :
  In array_block (code_blocks (fenced array_block))
  \/ exists body, array_block = Py.lbrace :: body ++ [Py.rbrace].
Proof.
  exact (@found_text_is_block_or_braces Json.decode (fenced array_block)
           (T "RALPH_STATUS") array_block eq_refl).
Defined.

End LocatorMore.

(** ** Texts in which the locator finds nothing *)
Module LocatorNothing.
Import Re JsonExtractor JsonExtractorMain Spec.

Lemma forallb_firstn_nth (f : ascii -> bool) (s : text) (n i : nat) (x : ascii) :
  forallb f (firstn n s) = true -> i < n -> nth_error s i = Some x -> f x = true.
Proof.
  revert s i. induction n as [|n IH]; intros s i H Hi Hx; [lia|].
  destruct s as [|c s]; [destruct i; discriminate|].
  cbn [firstn forallb] in H. apply andb_prop in H as [Hc Hs].
  destruct i as [|i]; cbn in Hx.
  - now injection Hx as <-.
  - apply (IH s i Hs); [lia | exact Hx].
Qed.

(** The backward loop ends on a character that is no brace when there is
    none up to the key. *)
Lemma opening_brace_missing (content : text) (p : nat) :
  forallb not_lbrace (firstn (S p) content) = true ->
  char_is content (opening_brace content p) Py.lbrace = false.
Proof.
  intro H.
  assert (Hno : forall i, i <= p -> char_is content i Py.lbrace = false).
  { intros i Hi. unfold char_is.
    destruct (nth_error content i) as [x|] eqn:Hx; [|reflexivity].
    assert (Hf : not_lbrace x = true)
      by (apply (@forallb_firstn_nth not_lbrace content (S p) i x H); [lia | exact Hx]).
    unfold not_lbrace in Hf. now apply negb_true_iff in Hf. }
  clear H. induction p as [|p IH].
  - cbn [opening_brace]. apply Hno. lia.
  - cbn [opening_brace]. rewrite (Hno (S p)) by lia. apply IH.
    intros i Hi. apply Hno. lia.
Qed.

(** Without a closing brace the depth does not come down. *)
Lemma depth_kept (cs : text) :
  forallb not_rbrace cs = true ->
  forall (i : nat) (d : Z) (ins esc : bool) (e : nat),
    (d <= fst (match_brackets cs i d ins esc e))%Z.
Proof.
  induction cs as [|c cs IH]; intros H i d ins esc e.
  - cbn. lia.
  - cbn [forallb] in H. apply andb_prop in H as [Hc Hcs].
    unfold not_rbrace in Hc. apply negb_true_iff in Hc.
    cbn [match_brackets].
    destruct esc; [now apply IH|].
    destruct (Py.eqc c Py.bslash && ins); [now apply IH|].
    destruct (Py.eqc c Py.dq && negb false); [now apply IH|].
    destruct ins; [now apply IH|].
    destruct (Py.eqc c Py.lbrace).
    + specialize (IH Hcs (S i) (d + 1)%Z false false e). lia.
    + rewrite Hc. now apply IH.
Qed.

(** X5: in a text without a json fence whose first quoted marker key has no
    opening brace before it, the key stands in prose only and the locator
    finds nothing. *)
Theorem key_in_prose_not_found :
  forall (json_loads : text -> option Json.value)
         (content json_type : text) (key_pos : nat),
    Py.contains (T "```json") content = false ->
    Py.find (Py.dq :: json_type ++ [Py.dq]) content = Some key_pos ->
    forallb not_lbrace (firstn (S key_pos) content) = true ->
    find_json_containing json_loads content json_type = None.
Proof.
  intros json_loads content json_type key_pos Hfence Hfind Hbrace.
  unfold find_json_containing.
  rewrite (LocatorFacts.no_fence_no_block _ Hfence). cbn [first_block].
  unfold bracket_method. rewrite Hfind.
  now rewrite (opening_brace_missing _ _ Hbrace).
Qed.

Lemma key_in_prose_not_found_example :
  find_json_containing Json.decode
    (q "Please report 'RALPH_STATUS' in a block like {...}.")
    (T "RALPH_STATUS") = None.
Proof.
  apply (@key_in_prose_not_found Json.decode
           (q "Please report 'RALPH_STATUS' in a block like {...}.")
           (T "RALPH_STATUS") 14); reflexivity.
Defined.

(** X6: in a text without a json fence and without a closing brace the
    locator finds nothing: an opened block that is never closed is not
    returned, whatever the decoder would accept. *)
Theorem unclosed_block_not_found :
  forall (json_loads : text -> option Json.value) (content json_type : text),
    Py.contains (T "```json") content = false ->
    forallb not_rbrace content = true ->
    find_json_containing json_loads content json_type = None.
Proof.
  intros json_loads content json_type Hfence Hclosed.
  unfold find_json_containing.
  rewrite (LocatorFacts.no_fence_no_block _ Hfence). cbn [first_block].
  unfold bracket_method.
  destruct (Py.find _ content) as [key_pos|]; [|reflexivity].
  set (start := opening_brace content key_pos).
  destruct (char_is content start Py.lbrace) eqn:Hopen; [|reflexivity].
  cbn [negb].
  destruct (@LocatorFacts.skipn_at content start Py.lbrace Hopen) as (rest & Hrest).
  assert (Hrest_closed : forallb not_rbrace rest = true).
  { rewrite <- (firstn_skipn start content), forallb_app, Hrest in Hclosed.
    apply andb_prop in Hclosed as [_ H]. cbn [forallb] in H.
    now apply andb_prop in H as [_ H]. }
  rewrite Hrest. cbn [match_brackets]. cbn.
  pose proof (depth_kept rest Hrest_closed (S start) 1 false false start) as Hd.
  destruct (match_brackets rest (S start) 1 false false start) as [depth end_].
  cbn [fst] in Hd.
  destruct (Z.eqb_spec depth 0) as [->|]; [lia | reflexivity].
Qed.

Lemma unclosed_block_not_found_example :
  find_json_containing Json.decode
    (q "Partial output: {'RALPH_STATUS': {'done': [1, 2") (T "RALPH_STATUS")
  = None.
Proof.
  apply (@unclosed_block_not_found Json.decode
           (q "Partial output: {'RALPH_STATUS': {'done': [1, 2")
           (T "RALPH_STATUS")); reflexivity.
Defined.

End LocatorNothing.

Unset Implicit Arguments.

(** ** Reading any captured time *)
Module ClockMore.
Import RateLimitParser Spec ClockReading.

(** The reading of a time with a marker, for every hour written in digits. *)
Lemma am_pm_read :
  forall hh mins sp marker : text,
    forallb Py.is_digit hh = true ->
    hh <> [] ->
    minutes_field mins = true ->
    forallb Py.is_space sp = true ->
    (Py.lower marker = T "am" \/ Py.lower marker = T "pm") ->
    parse_hour_minute (hh ++ mins ++ sp ++ marker)
    = Some (clock24 (Py.lower marker) (decimal hh), minute_of mins).
Proof.
  intros hh mins sp marker Hhh Hne Hmins Hsp Hmarker.
  pose proof (digits_time_chars hh Hhh) as Hhh_tc.
  pose proof (minutes_time_chars mins Hmins) as Hmins_tc.
  unfold parse_hour_minute.
  assert (Hlower : Py.lower (hh ++ mins ++ sp ++ marker)
                   = hh ++ mins ++ sp ++ Py.lower marker).
  { unfold Py.lower. rewrite !map_app. fold (Py.lower hh) (Py.lower mins)
      (Py.lower sp) (Py.lower marker).
    rewrite (lower_fixed time_char hh), (lower_fixed time_char mins),
      (lower_fixed Py.is_space sp); try assumption; try reflexivity.
    - apply space_lower.
    - intros c Hc. apply (time_char_facts c Hc).
    - intros c Hc. apply (time_char_facts c Hc). }
  rewrite Hlower. remember (Py.lower marker) as lm eqn:Hlm. clear Hlm Hlower.
  rewrite ClockClaims.stripped_time by assumption.
  assert (Hhas : Py.contains lm (hh ++ mins ++ sp ++ lm) = true).
  { rewrite !app_assoc. apply contains_end. }
  assert (Hspaces : Py.remove_spaces (hh ++ mins ++ sp ++ lm) = (hh ++ mins) ++ lm).
  { unfold Py.remove_spaces. rewrite !filter_app.
    fold (Py.remove_spaces hh) (Py.remove_spaces mins) (Py.remove_spaces sp)
         (Py.remove_spaces lm).
    rewrite (remove_spaces_none hh), (remove_spaces_none mins),
      (remove_spaces_all sp) by assumption.
    destruct Hmarker as [-> | ->]; cbn; now rewrite app_assoc. }
  assert (Hbranch : negb (Py.contains (T "am") (hh ++ mins ++ sp ++ lm))
                    && negb (Py.contains (T "pm") (hh ++ mins ++ sp ++ lm)) = false).
  { destruct Hmarker as [-> | ->]; rewrite Hhas;
      [reflexivity | apply andb_false_r]. }
  rewrite Hbranch, Hspaces. clear Hbranch Hspaces Hhas.
  assert (Hx_tc : forallb time_char (hh ++ mins) = true)
    by now rewrite forallb_app, Hhh_tc, Hmins_tc.
  assert (Hmk : forallb apm lm = true) by (destruct Hmarker as [-> | ->]; reflexivity).
  assert (Hnocolon : existsb (Py.eqc ":"%char) lm = false)
    by (destruct Hmarker as [-> | ->]; reflexivity).
  change (T ":") with [":"%char].
  rewrite contains_char, !existsb_app, Hnocolon, orb_false_r.
  rewrite (none_of Py.is_digit (Py.eqc ":"%char) hh)
    by (assumption || (intros c Hc; apply (digit_facts c Hc))).
  cbn [orb].
  destruct mins as [|c mm].
  - rewrite app_nil_r.
    assert (Hr : Py.rstrip_set apm (hh ++ lm) = hh).
    { destruct (@ClockClaims.ends_in_digit hh Hhh Hne) as (x & d & Hx & Hd).
      rewrite Hx. apply (@rstrip_marker x d lm Hd Hmk). }
    rewrite Hr, (@int_digits hh Hhh Hne).
    cbn [existsb]. now rewrite (@ClockClaims.to_24_clock24 hh lm _ Hhh_tc Hmarker).
  - cbn [minutes_field] in Hmins.
    apply andb_prop in Hmins as [Hmins Hmm]. apply andb_prop in Hmins as [Hc Hlen].
    apply eqc_eq in Hc. subst c.
    assert (Hmm_ne : mm <> []) by (intros ->; discriminate).
    cbn [existsb]. rewrite eqc_refl. cbn [orb].
    assert (Hr : Py.rstrip_set apm ((hh ++ ":"%char :: mm) ++ lm)
                 = hh ++ ":"%char :: mm).
    { destruct (@ClockClaims.ends_in_digit mm Hmm Hmm_ne) as (x & d & Hx & Hd).
      rewrite Hx.
      replace (hh ++ ":"%char :: x ++ [d]) with ((hh ++ ":"%char :: x) ++ [d])
        by (rewrite <- app_assoc; reflexivity).
      apply (@rstrip_marker _ d lm Hd Hmk). }
    rewrite Hr, (@split_hour_minute_digits hh mm Hhh Hne Hmm Hmm_ne).
    now rewrite (@ClockClaims.to_24_clock24 _ lm _ Hx_tc Hmarker).
Qed.

Lemma no_marker (c : ascii) (w s : text) :
  (forall y, time_char y = true -> Py.eqc c y = false) ->
  forallb time_char s = true ->
  Py.contains (c :: w) s = false.
Proof.
  intros Hc Hs. apply contains_needs_head. now apply (none_of time_char).
Qed.

(** The reading of a time without a marker: digits, a colon and digits. *)
Lemma colon_read :
  forall hh mm : text,
    forallb Py.is_digit hh = true -> hh <> [] ->
    forallb Py.is_digit mm = true -> mm <> [] ->
    parse_hour_minute (hh ++ ":"%char :: mm) = Some (decimal hh, decimal mm).
Proof.
  intros hh mm Hhh Hne Hmm Hmne.
  assert (Htc : forallb time_char (hh ++ ":"%char :: mm) = true).
  { rewrite forallb_app, (digits_time_chars hh Hhh). cbn [forallb andb].
    rewrite (digits_time_chars mm Hmm). reflexivity. }
  unfold parse_hour_minute.
  rewrite (lower_fixed time_char) by
    (assumption || (intros c Hc; apply (time_char_facts c Hc))).
  assert (Hstrip : Py.strip (hh ++ ":"%char :: mm) = hh ++ ":"%char :: mm).
  { unfold Py.strip, Py.lstrip, Py.rstrip.
    destruct hh as [|d hh']; [contradiction|].
    pose proof Hhh as Hd. cbn [forallb] in Hd. apply andb_prop in Hd as [Hd _].
    destruct (digit_facts d Hd) as (Hdt & _).
    destruct (time_char_facts d Hdt) as (Hsp & _).
    cbn [app Py.drop_while]. rewrite Hsp.
    destruct (@ClockClaims.ends_in_digit mm Hmm Hmne) as (x & e & Hx & He).
    rewrite Hx.
    replace (d :: hh' ++ ":"%char :: x ++ [e])
      with ((d :: hh' ++ ":"%char :: x) ++ [e])
      by (cbn [app]; rewrite <- app_assoc; reflexivity).
    apply ClockClaims.rstrip_keeps.
    destruct (digit_facts e He) as (Het & _).
    apply (time_char_facts e Het). }
  rewrite Hstrip.
  rewrite (@no_marker "a"%char (T "m")), (@no_marker "p"%char (T "m"));
    try assumption;
    try (intros y Hy; apply (time_char_facts y Hy)).
  cbn [negb andb].
  change (T ":") with [":"%char].
  rewrite contains_char, existsb_app. cbn [existsb]. rewrite eqc_refl.
  rewrite orb_true_r.
  now apply split_hour_minute_digits.
Qed.

(** X7: the reader does not reject an hour outside 1 to 12 that comes with
    a marker.  For a time as the patterns capture it, an hour of one or two
    digits and at most two digits of minutes, hour 0 and every hour above
    12 gain 12 under pm and are kept under am, so 13pm is read as hour 25
    and 0pm as hour 12. *)
Theorem hour_outside_clock_face_accepted :
  forall hh mins sp marker : text,
    forallb Py.is_digit hh = true ->
    hh <> [] ->
    (length hh <= 2)%nat ->
    (decimal hh = 0 \/ 12 < decimal hh)%Z ->
    minutes_field mins = true ->
    (length mins <= 3)%nat ->
    forallb Py.is_space sp = true ->
    (Py.lower marker = T "am" \/ Py.lower marker = T "pm") ->
    parse_hour_minute (hh ++ mins ++ sp ++ marker)
    = Some (if Py.eqt (Py.lower marker) (T "pm")
            then (decimal hh + 12)%Z else decimal hh,
            minute_of mins).
Proof.
  intros hh mins sp marker Hhh Hne _ Hout Hmins _ Hsp Hmarker.
  rewrite (am_pm_read hh mins sp marker) by assumption.
  unfold clock24.
  destruct (Z.eqb_spec (decimal hh) 12) as [E|E]; [lia|].
  reflexivity.
Qed.

Lemma hour_outside_clock_face_accepted_example :
  parse_hour_minute (T "13" ++ T "" ++ T " " ++ T "PM")
  = Some (if Py.eqt (Py.lower (T "PM")) (T "pm")
          then (decimal (T "13") + 12)%Z else decimal (T "13"),
          minute_of (T "")).
Proof.
  apply hour_outside_clock_face_accepted.
  - reflexivity.
  - discriminate.
  - cbn. lia.
  - right. change (decimal (T "13")) with 13%Z. lia.
  - reflexivity.
  - cbn. lia.
  - reflexivity.
  - right. reflexivity.
Defined.

End ClockMore.

(** ** Soundness of the matcher *)
Module MatcherSound.
Import Re ReSpec.

Lemma or_else_some {A : Type} (a : option A) (b : unit -> option A) (x : A) :
  or_else a b = Some x -> a = Some x \/ (a = None /\ b tt = Some x).
Proof. destruct a; cbn; intro H; [left | right]; auto. Qed.

Lemma skipn_after (content t s' : text) (i : nat) :
  skipn i content = t ++ s' -> s' = skipn (length t + i) content.
Proof.
  intro H. rewrite <- skipn_skipn, H, skipn_app, skipn_all, Nat.sub_diag.
  reflexivity.
Qed.

Lemma slice_after (content t s' : text) (i : nat) :
  skipn i content = t ++ s' -> Py.slice i (length t + i) content = t.
Proof.
  intro H. unfold Py.slice. rewrite H.
  replace (length t + i - i) with (length t + 0) by lia.
  rewrite firstn_app_2. cbn. apply app_nil_r.
Qed.

Lemma rep_sound (g : bool) (p : ascii -> bool) (k : kont) :
  forall (s : text) (lo : nat) (hi : option nat) (i : nat) (cs : caps)
         (res : nat * caps),
    rep g p lo hi k i s cs = Some res ->
    exists t s',
      s = t ++ s' /\ lang true (Rep p lo hi g) t
      /\ k (length t + i) s' cs = Some res.
Proof.
  induction s as [|c s IH]; intros lo hi i cs res H.
  - assert (Hstop : (if (lo =? 0)%nat then k i [] cs else None) = Some res).
    { cbn [rep] in H. destruct g; cbn [or_else] in H.
      - exact H.
      - destruct (if (lo =? 0)%nat then k i [] cs else None); [exact H | discriminate]. }
    destruct (Nat.eqb_spec lo 0) as [->|]; [|discriminate].
    exists [], []. cbn. repeat split; auto. destruct hi; auto. lia.
  - assert (Hmore_or_stop :
      (p c && may_repeat hi = true
       /\ rep g p (pred lo) (dec hi) k (S i) s cs = Some res)
      \/ (lo = 0 /\ k i (c :: s) cs = Some res)).
    { cbn [rep] in H.
      destruct g; apply or_else_some in H as [H|[_ H]].
      - destruct (p c && may_repeat hi); [left; auto | discriminate].
      - destruct (Nat.eqb_spec lo 0) as [->|]; [right; auto | discriminate].
      - destruct (Nat.eqb_spec lo 0) as [->|]; [right; auto | discriminate].
      - destruct (p c && may_repeat hi); [left; auto | discriminate]. }
    destruct Hmore_or_stop as [[Hc Hmore]|[-> Hstop]].
    + apply andb_prop in Hc as [Hc Hhi].
      destruct (IH _ _ _ _ _ Hmore) as (t & s' & -> & (Hp & Hlo & Hhi') & Hk).
      exists (c :: t), s'. split; [reflexivity|]. split.
      * cbn [lang forallb length]. rewrite Hc, Hp. repeat split; [lia|].
        destruct hi as [[|h]|]; cbn in *; try discriminate; auto; lia.
      * cbn [length]. rewrite Nat.add_succ_comm. exact Hk.
    + exists [], (c :: s). cbn. repeat split; auto. destruct hi; auto. lia.
Qed.

(** A successful match has read a text of the pattern, has recorded only
    sound groups, and has recorded every group the pattern always closes. *)
Lemma rmatch_sound (ic : bool) (content : text) (Q : nat -> text -> Prop)
    (r : regex) :
  groups_sound ic Q r ->
  forall (k : kont) (i : nat) (s : text) (cs : caps) (res : nat * caps),
    s = skipn i content ->
    caps_sound content Q cs ->
    rmatch ic r k i s cs = Some res ->
    exists t s' cs',
      lang ic r t /\ s = t ++ s'
      /\ caps_sound content Q cs'
      /\ (forall n, sets n r = true \/ has_group n cs -> has_group n cs')
      /\ k (length t + i) s' cs' = Some res.
Proof.
  induction r as [|c|p|r1 IH1 r2 IH2|r1 IH1 r2 IH2|n r IH|r IH|p lo hi g];
    intros Hg k i s cs res Hs Hcs H; cbn [rmatch] in H.
  - exists [], s, cs. cbn. repeat split; auto. intros n [Hn|Hn]; [discriminate | exact Hn].
  - destruct s as [|x s]; [discriminate|].
    destruct (lit_ok ic c x) eqn:Hx; [|discriminate].
    exists [x], s, cs. cbn. repeat split; eauto.
    intros n [Hn|Hn]; [discriminate | exact Hn].
  - destruct s as [|x s]; [discriminate|].
    destruct (p x) eqn:Hx; [|discriminate].
    exists [x], s, cs. cbn. repeat split; eauto.
    intros n [Hn|Hn]; [discriminate | exact Hn].
  - destruct Hg as [Hg1 Hg2].
    destruct (IH1 Hg1 _ _ _ _ _ Hs Hcs H) as (t1 & s1 & cs1 & L1 & E1 & C1 & G1 & K1).
    assert (Hs1 : s1 = skipn (length t1 + i) content)
      by (apply skipn_after; now rewrite <- Hs).
    destruct (IH2 Hg2 _ _ _ _ _ Hs1 C1 K1) as (t2 & s2 & cs2 & L2 & E2 & C2 & G2 & K2).
    exists (t1 ++ t2), s2, cs2. split; [cbn; eauto|].
    split; [now rewrite E1, E2, app_assoc|]. split; [exact C2|]. split.
    + intros n [Hn|Hn].
      * cbn [sets] in Hn. apply orb_prop in Hn as [Hn|Hn].
        -- apply G2. right. apply G1. now left.
        -- apply G2. now left.
      * apply G2. right. apply G1. now right.
    + rewrite length_app.
      replace (length t1 + length t2 + i) with (length t2 + (length t1 + i)) by lia.
      exact K2.
  - destruct Hg as [Hg1 Hg2]. apply or_else_some in H as [H|[_ H]].
    + destruct (IH1 Hg1 _ _ _ _ _ Hs Hcs H) as (t & s' & cs' & L & E & C & G & K).
      exists t, s', cs'. cbn [lang]. repeat split; auto.
      intros n [Hn|Hn]; apply G; [left | now right].
      cbn [sets] in Hn. now apply andb_prop in Hn.
    + destruct (IH2 Hg2 _ _ _ _ _ Hs Hcs H) as (t & s' & cs' & L & E & C & G & K).
      exists t, s', cs'. cbn [lang]. repeat split; auto.
      intros n [Hn|Hn]; apply G; [left | now right].
      cbn [sets] in Hn. now apply andb_prop in Hn.
  - destruct Hg as [Hq Hg].
    destruct (IH Hg _ _ _ _ _ Hs Hcs H) as (t & s' & cs' & L & E & C & G & K).
    exists t, s', ((n, (i, length t + i)) :: cs'). cbn [lang].
    split; [exact L|]. split; [exact E|]. split; [|split; [|exact K]].
    + intros m a b [Hin|Hin].
      * injection Hin as <- <- <-.
        rewrite (slice_after content t s' i) by (now rewrite <- Hs).
        now apply Hq.
      * now apply C.
    + intros m [Hm|Hm].
      * cbn [sets] in Hm. apply orb_prop in Hm as [Hm|Hm].
        -- apply Nat.eqb_eq in Hm. subst m. eexists. now left.
        -- destruct (G m (or_introl Hm)) as (sp & Hsp). exists sp. now right.
      * destruct (G m (or_intror Hm)) as (sp & Hsp). exists sp. now right.
  - apply or_else_some in H as [H|[_ H]].
    + destruct (IH Hg _ _ _ _ _ Hs Hcs H) as (t & s' & cs' & L & E & C & G & K).
      exists t, s', cs'. cbn [lang]. repeat split; auto.
      intros n [Hn|Hn]; [discriminate | apply G; now right].
    + exists [], s, cs. cbn. repeat split; auto.
      intros n [Hn|Hn]; [discriminate | exact Hn].
  - destruct (rep_sound g p k s lo hi i cs res H) as (t & s' & E & L & K).
    exists t, s', cs. repeat split; auto.
    + destruct L as (L & _). exact L.
    + apply L.
    + apply L.
    + intros n [Hn|Hn]; [discriminate | exact Hn].
Qed.

Lemma search_sound (ic : bool) (content : text) (Q : nat -> text -> Prop)
    (r : regex) :
  groups_sound ic Q r ->
  forall (s : text) (i a b : nat) (cs : caps),
    s = skipn i content ->
    search_from ic r i s = Some (a, b, cs) ->
    caps_sound content Q cs /\ (forall n, sets n r = true -> has_group n cs).
Proof.
  intros Hg. induction s as [|c s IH]; intros i a b cs Hs H;
    cbn [search_from] in H; unfold match_at in H;
    destruct (rmatch ic r accept i _ []) as [[j cs0]|] eqn:Hm.
  - injection H as <- <- <-.
    destruct (rmatch_sound ic content Q r Hg _ _ _ _ _ Hs
                (fun n a b (F : In _ []) => match F with end) Hm)
      as (t & s' & cs' & _ & _ & C & G & K).
    injection K as _ <-. split; [exact C|]. intros n Hn. apply G. now left.
  - discriminate.
  - injection H as <- <- <-.
    destruct (rmatch_sound ic content Q r Hg _ _ _ _ _ Hs
                (fun n a b (F : In _ []) => match F with end) Hm)
      as (t & s' & cs' & _ & _ & C & G & K).
    injection K as _ <-. split; [exact C|]. intros n Hn. apply G. now left.
  - apply (IH (S i) a b cs); [|exact H].
    apply (skipn_after content [c] s i). now rewrite <- Hs.
Qed.

Lemma group_span_found (n : nat) (cs : caps) :
  has_group n cs ->
  exists a b, group_span n cs = Some (a, b) /\ In (n, (a, b)) cs.
Proof.
  intros (sp & Hin). induction cs as [|[m [a b]] cs IH]; [destruct Hin|].
  cbn [group_span]. destruct (Nat.eqb_spec m n) as [->|Hne].
  - exists a, b. split; [reflexivity | now left].
  - destruct Hin as [E|Hin]; [congruence|].
    destruct (IH Hin) as (a' & b' & E & Hin'). exists a', b'. split; [exact E | now right].
Qed.

(** The text of a group that every match closes satisfies what is known
    of that group. *)
Lemma group_sound (content : text) (Q : nat -> text -> Prop) (r : regex)
    (n a b : nat) (cs : caps) :
  groups_sound true Q r -> sets n r = true ->
  search true r content = Some (a, b, cs) ->
  Q n (group content cs n).
Proof.
  intros Hg Hn Hsearch.
  destruct (search_sound true content Q r Hg content 0 a b cs eq_refl Hsearch)
    as [C G].
  destruct (group_span_found n cs (G n Hn)) as (x & y & E & Hin).
  unfold group. rewrite E. now apply C.
Qed.

End MatcherSound.

(** ** What the time-bearing patterns capture *)
Module CapturedTime.
Import Re RateLimitParser Spec ReSpec ResolverSpec.

Lemma lang_lits (w t : text) : lang true (lits w) t -> Py.lower t = Py.lower w.
Proof.
  revert t. induction w as [|c w IH]; intros t H; cbn [lits lang] in H.
  - now subst t.
  - destruct H as (u & v & -> & (x & -> & Hx) & Hv).
    cbn [app Py.lower map]. unfold lit_ok in Hx. apply eqc_eq in Hx.
    rewrite Hx. f_equal. apply IH, Hv.
Qed.

Lemma lang_am_pm (t : text) :
  lang true am_pm t -> Py.lower t = T "am" \/ Py.lower t = T "pm".
Proof.
  unfold am_pm, word. cbn [lang]. intros [H|H]; apply lang_lits in H;
    [left | right]; exact H.
Qed.

Lemma lang_colon (t : text) : lang true (Lit ":"%char) t -> t = T ":".
Proof.
  cbn [lang]. intros (x & -> & Hx). f_equal. revert Hx. each_char x.
Qed.

Lemma digits_of (lo hi : nat) (t : text) :
  lang true (times Py.is_digit lo hi) t ->
  forallb Py.is_digit t = true /\ lo <= length t <= hi.
Proof. unfold times. cbn [lang]. intros (H1 & H2 & H3). auto. Qed.

Lemma spaces_of (t : text) :
  lang true (star Py.is_space) t -> forallb Py.is_space t = true.
Proof. unfold star. cbn [lang]. intros (H & _). exact H. Qed.

Lemma two_digit_minutes (mm : text) :
  forallb Py.is_digit mm = true -> 2 <= length mm <= 2 ->
  minutes_field (":"%char :: mm) = true /\ length (":"%char :: mm) <= 3.
Proof.
  intros Hd Hl. cbn [minutes_field length]. rewrite eqc_refl, Hd.
  destruct mm; cbn in *; [lia|]. split; [reflexivity | lia].
Qed.

Lemma marked_intro (hh mins sp marker : text) :
  forallb Py.is_digit hh = true /\ 1 <= length hh <= 2 ->
  minutes_field mins = true /\ length mins <= 3 ->
  lang true (star Py.is_space) sp ->
  lang true am_pm marker ->
  time_text (hh ++ mins ++ sp ++ marker).
Proof.
  intros [Hd Hl] [Hf Hlen] Hsp Hm. left. exists hh, mins, sp, marker.
  split; [reflexivity|]. split; [exact Hd|]. split; [exact Hl|].
  split; [exact Hf|]. split; [exact Hlen|].
  split; [now apply spaces_of | now apply lang_am_pm].
Qed.

(** The first group of every time-bearing pattern is a time text. *)
Lemma group1_pattern1 (t : text) :
  lang true (times Py.is_digit 1 2 ;; star Py.is_space ;; am_pm)%re t ->
  time_text t.
Proof.
  cbn [lang]. intros (hh & v & -> & Hhh & sp & marker & -> & Hsp & Hm).
  apply (marked_intro hh [] sp marker);
    [now apply digits_of | split; [reflexivity | cbn; lia] | exact Hsp | exact Hm].
Qed.

Lemma group1_pattern2 (t : text) :
  lang true (times Py.is_digit 1 2 ;; Lit ":"%char ;; times Py.is_digit 2 2 ;;
             star Py.is_space ;; am_pm)%re t ->
  time_text t.
Proof.
  intros (hh & v & -> & Hhh & c & v2 & -> & Hc & mm & v3 & -> & Hmm
          & sp & marker & -> & Hsp & Hm).
  apply digits_of in Hmm as [Hd2 Hl2]. apply lang_colon in Hc. subst c.
  apply (marked_intro hh (":"%char :: mm) sp marker);
    [now apply digits_of | now apply two_digit_minutes | exact Hsp | exact Hm].
Qed.

Lemma group1_pattern3 (t : text) :
  lang true (times Py.is_digit 1 2 ;; Lit ":"%char ;; times Py.is_digit 2 2)%re t ->
  time_text t.
Proof.
  intros (hh & v & -> & Hhh & c & mm & -> & Hc & Hmm).
  apply digits_of in Hhh as [Hd Hl]. apply digits_of in Hmm as [Hd2 Hl2].
  apply lang_colon in Hc. subst c. right.
  exists hh, mm. split; [reflexivity|]. split; [exact Hd|]. split; [exact Hl|].
  split; [exact Hd2 | lia].
Qed.

Lemma group1_pattern4 (t : text) :
  lang true (times Py.is_digit 1 2 ;;
             Opt (Lit ":"%char ;; times Py.is_digit 2 2) ;;
             star Py.is_space ;; am_pm)%re t ->
  time_text t.
Proof.
  intros (hh & v & -> & Hhh & mins & v2 & -> & Hmins
          & sp & marker & -> & Hsp & Hm).
  destruct Hmins as [->|(c & mm & -> & Hc & Hmm)].
  - apply (marked_intro hh [] sp marker);
      [now apply digits_of | split; [reflexivity | cbn; lia] | exact Hsp | exact Hm].
  - apply digits_of in Hmm as [Hd2 Hl2]. apply lang_colon in Hc. subst c.
    apply (marked_intro hh (":"%char :: mm) sp marker);
      [now apply digits_of | now apply two_digit_minutes | exact Hsp | exact Hm].
Qed.

Ltac groups_tac :=
  unfold pattern1, pattern2, pattern3, pattern4, resets, zone_label, word;
  cbn [groups_sound lits T list_ascii_of_string];
  repeat split; auto; try (intros t _ Hn; discriminate Hn).

Lemma pattern1_groups : groups_sound true capture_spec pattern1.
Proof. groups_tac. intros t Ht _. now apply group1_pattern1. Qed.

Lemma pattern2_groups : groups_sound true capture_spec pattern2.
Proof. groups_tac. intros t Ht _. now apply group1_pattern2. Qed.

Lemma pattern3_groups : groups_sound true capture_spec pattern3.
Proof. groups_tac. intros t Ht _. now apply group1_pattern3. Qed.

Lemma pattern4_groups : groups_sound true capture_spec pattern4.
Proof. groups_tac. intros t Ht _. now apply group1_pattern4. Qed.

Lemma captured_is_time (content : text) (pattern : regex) (t z : text) :
  groups_sound true capture_spec pattern -> sets 1 pattern = true ->
  captured content pattern = Some (t, z) ->
  exists u, time_text u /\ t = Py.strip u.
Proof.
  intros Hg Hs. unfold captured.
  destruct (search true pattern content) as [[[a b] cs]|] eqn:Hsearch;
    [|discriminate].
  intro E. injection E as <- <-.
  exists (group content cs 1). split; [|reflexivity].
  now apply (MatcherSound.group_sound content capture_spec pattern 1 a b cs Hg Hs Hsearch).
Qed.

Lemma first_captured_is_time (content : text) (t z : text) :
  first_captured content time_patterns = Some (t, z) ->
  exists u, time_text u /\ t = Py.strip u.
Proof.
  unfold time_patterns. cbn [first_captured].
  destruct (captured content pattern2) as [c|] eqn:E2.
  { intro E. injection E as ->.
    now apply (captured_is_time content pattern2 t z pattern2_groups). }
  destruct (captured content pattern1) as [c|] eqn:E1.
  { intro E. injection E as ->.
    now apply (captured_is_time content pattern1 t z pattern1_groups). }
  destruct (captured content pattern3) as [c|] eqn:E3.
  { intro E. injection E as ->.
    now apply (captured_is_time content pattern3 t z pattern3_groups). }
  destruct (captured content pattern4) as [c|] eqn:E4; [|discriminate].
  intro E. injection E as ->.
  now apply (captured_is_time content pattern4 t z pattern4_groups).
Qed.

Lemma digit_val_range (c : ascii) :
  Py.is_digit c = true -> (0 <= Py.digit_val c <= 9)%Z.
Proof.
  intro H. destruct c as [[] [] [] [] [] [] [] []]; vm_compute in H;
    try discriminate H; vm_compute; split; discriminate.
Qed.

Lemma decimal_two_digits (ds : text) :
  forallb Py.is_digit ds = true -> length ds <= 2 -> (0 <= decimal ds <= 99)%Z.
Proof.
  intros H Hl. destruct ds as [|a [|b [|c ds]]]; cbn [length] in Hl; try lia.
  - cbn. lia.
  - cbn [forallb] in H. apply andb_prop in H as [Ha _].
    pose proof (digit_val_range a Ha). unfold decimal. cbn [fold_left]. lia.
  - cbn [forallb] in H. apply andb_prop in H as [Ha H].
    apply andb_prop in H as [Hb _].
    pose proof (digit_val_range a Ha). pose proof (digit_val_range b Hb).
    unfold decimal. cbn [fold_left]. lia.
Qed.

Lemma marker_end (marker : text) :
  Py.lower marker = T "am" \/ Py.lower marker = T "pm" ->
  exists x y, marker = [x; y] /\ Py.is_space y = false.
Proof.
  intros H.
  assert (Hy : forall y, Py.lower_char y = "m"%char -> Py.is_space y = false)
    by (intro y; each_char y).
  destruct marker as [|x [|y [|w marker]]];
    try (destruct H as [H|H]; discriminate H).
  exists x, y. split; [reflexivity|].
  apply Hy. destruct H as [H|H]; cbn in H; congruence.
Qed.

Lemma time_text_stripped (u : text) : time_text u -> Py.strip u = u.
Proof.
  assert (Hhead : forall d rest,
            Py.is_digit d = true ->
            Py.drop_while Py.is_space (d :: rest) = d :: rest).
  { intros d rest Hd. cbn [Py.drop_while].
    destruct (ClockReading.digit_facts d Hd) as (Htc & _).
    now destruct (ClockReading.time_char_facts d Htc) as (-> & _). }
  intros [(hh & mins & sp & marker & -> & Hd & Hl & _ & _ & _ & Hm)
         |(hh & mm & -> & Hd & Hl & Hd2 & Hl2)].
  - destruct hh as [|d hh']; [cbn in Hl; lia|].
    pose proof Hd as Hd'. cbn [forallb] in Hd'. apply andb_prop in Hd' as [Hd' _].
    destruct (marker_end marker Hm) as (x & y & -> & Hy).
    unfold Py.strip, Py.lstrip, Py.rstrip. cbn [app]. rewrite (Hhead d _ Hd').
    replace (d :: hh' ++ mins ++ sp ++ [x; y])
      with ((d :: hh' ++ mins ++ sp ++ [x]) ++ [y])
      by (cbn [app]; now rewrite <- !app_assoc).
    now apply ClockClaims.rstrip_keeps.
  - destruct hh as [|d hh']; [cbn in Hl; lia|].
    pose proof Hd as Hd'. cbn [forallb] in Hd'. apply andb_prop in Hd' as [Hd' _].
    assert (Hne : mm <> []) by (intros ->; discriminate).
    destruct (@ClockClaims.ends_in_digit mm Hd2 Hne) as (x & e & -> & He).
    unfold Py.strip, Py.lstrip, Py.rstrip. cbn [app]. rewrite (Hhead d _ Hd').
    replace (d :: hh' ++ ":"%char :: x ++ [e])
      with ((d :: hh' ++ ":"%char :: x) ++ [e])
      by (cbn [app]; now rewrite <- !app_assoc).
    apply ClockClaims.rstrip_keeps.
    destruct (ClockReading.digit_facts e He) as (Htc & _).
    apply (ClockReading.time_char_facts e Htc).
Qed.

Lemma time_text_read (u : text) :
  time_text u ->
  exists h m, parse_hour_minute u = Some (h, m)
              /\ (0 <= h <= 111)%Z /\ (0 <= m <= 99)%Z.
Proof.
  intros [(hh & mins & sp & marker & -> & Hd & Hl & Hf & Hlen & Hsp & Hm)
         |(hh & mm & -> & Hd & Hl & Hd2 & Hl2)].
  - assert (Hne : hh <> []) by (intros ->; cbn in Hl; lia).
    exists (clock24 (Py.lower marker) (decimal hh)), (minute_of mins).
    split; [now apply ClockMore.am_pm_read|].
    assert (Hh : (0 <= decimal hh <= 99)%Z) by (apply decimal_two_digits; [assumption | lia]).
    assert (Hmin : (0 <= minute_of mins <= 99)%Z).
    { unfold minute_of. destruct mins as [|c mm]; [cbn; lia|].
      cbn [tl]. cbn [minutes_field] in Hf.
      apply andb_prop in Hf as [_ Hf]. cbn [length] in Hlen.
      apply decimal_two_digits; [assumption | lia]. }
    split; [|exact Hmin]. unfold clock24.
    destruct (Py.eqt (Py.lower marker) (T "pm")), (Z.eqb_spec (decimal hh) 12); lia.
  - assert (Hne : hh <> []) by (intros ->; cbn in Hl; lia).
    assert (Hne2 : mm <> []) by (intros ->; discriminate).
    exists (decimal hh), (decimal mm).
    split; [now apply ClockMore.colon_read|].
    split; [assert (0 <= decimal hh <= 99)%Z by (apply decimal_two_digits; [assumption | lia]); lia|].
    apply decimal_two_digits; [assumption | lia].
Qed.

Lemma captured_time_read (content time_str tz_str : text) :
  find_rate_limit_pattern content = (Some (time_str, tz_str), true) ->
  exists h m, parse_hour_minute time_str = Some (h, m)
              /\ (0 <= h <= 111)%Z /\ (0 <= m <= 99)%Z.
Proof.
  unfold find_rate_limit_pattern.
  destruct (first_captured content time_patterns) as [[t z]|] eqn:E.
  - intro H. injection H as <- <-.
    destruct (first_captured_is_time content t z E) as (u & Hu & ->).
    rewrite (time_text_stripped u Hu). now apply time_text_read.
  - destruct (_ && _); discriminate.
Qed.

(** X12: a time string captured by the detection is always read by
    [parse_time_with_timezone]: its hour and minute are found, the hour at
    most 111 and the minute at most 99; the returns for a time of unknown
    shape are not reached from [main]. *)
Theorem captured_time_is_read :
  forall content time_str tz_str : text,
    find_rate_limit_pattern content = (Some (time_str, tz_str), true) ->
    exists h m, parse_hour_minute time_str = Some (h, m)
                /\ (0 <= h <= 111)%Z /\ (0 <= m <= 99)%Z.
Proof.
  intros content time_str tz_str. unfold find_rate_limit_pattern.
  destruct (first_captured content time_patterns) as [[t z]|] eqn:E.
  - intro H. injection H as <- <-.
    destruct (first_captured_is_time content t z E) as (u & Hu & ->).
    rewrite (time_text_stripped u Hu). now apply time_text_read.
  - destruct (_ && _); discriminate.
Qed.

Lemma captured_time_is_read_example :
  exists h m, parse_hour_minute (T "6pm") = Some (h, m)
              /\ (0 <= h <= 111)%Z /\ (0 <= m <= 99)%Z.
Proof.
  exact (captured_time_is_read limit_notice (T "6pm") (T "UTC") eq_refl).
Defined.

(** X13: when a time and a zone label are captured, the resolver answers
    [DetectedUnparseable] exactly when the zone label is unknown. *)
Theorem unparseable_means_unknown_zone :
  forall (ZoneInfo : text -> option DateTime.tzinfo) (clock : Z)
         (content time_str tz_str : text),
    find_rate_limit_pattern content = (Some (time_str, tz_str), true) ->
    (resolve ZoneInfo clock content = Ok DetectedUnparseable
     <-> ZoneInfo tz_str = None).
Proof.
  intros ZoneInfo clock content time_str tz_str Hfound.
  destruct (captured_time_read content time_str tz_str Hfound)
    as (h & m & Hread & _).
  unfold resolve, parse_time_with_timezone. rewrite Hfound. cbn [negb].
  destruct (ZoneInfo tz_str) as [tz|]; [|split; reflexivity].
  rewrite Hread.
  destruct (DateTime.replace (DateTime.fromutc tz clock) h m) as [r|e];
    [|split; discriminate].
  destruct (if DateTime.le r (DateTime.fromutc tz clock)
            then DateTime.add r 1 0 else Ok r) as [r1|e1];
    [|split; discriminate].
  destruct (DateTime.add r1 0 RATE_LIMIT_BUFFER_SECONDS) as [r2|e2];
    split; discriminate.
Qed.

Lemma unparseable_means_unknown_zone_example :
  resolve zones 0 (T "resets 18:00 (Not/AZone)") = Ok DetectedUnparseable
  <-> zones (T "Not/AZone") = None.
Proof.
  exact (unparseable_means_unknown_zone zones 0 (T "resets 18:00 (Not/AZone)")
           (T "18:00") (T "Not/AZone") eq_refl).
Defined.

End CapturedTime.

(** ** Outcomes of the resolver *)
Module ResolverMore.
Import DateTime RateLimitParser Spec ResolverSpec.
Open Scope Z_scope.

Lemma small_fits (z : Z) : 0 <= z <= 111 -> fits_int z = true.
Proof.
  intro H. unfold fits_int. apply andb_true_intro.
  split; apply Z.leb_le; lia.
Qed.

Lemma replace_raises (now : datetime) (h m : Z) :
  fits_int h = true -> fits_int m = true ->
  (replace now h m = Raise ValueError <-> ~ in_range h m).
Proof.
  intros Fh Fm. unfold replace, in_range. rewrite Fh, Fm. cbn [andb negb].
  destruct (Z.leb 0 h) eqn:E1, (Z.leb h 23) eqn:E2,
           (Z.leb 0 m) eqn:E3, (Z.leb m 59) eqn:E4; cbn [andb negb];
    rewrite ?Z.leb_le, ?Z.leb_gt in *;
    (split;
     [ first [discriminate | intros _; lia]
     | first [reflexivity | intro H; exfalso; apply H; lia] ]).
Qed.

(** X8: a time of the form digits, colon, digits, each of one or two
    digits as the patterns capture them, whose hour is above 23 or whose
    minute is above 59 makes [parse_time_with_timezone] raise ValueError
    in every known zone, at every reading of the clock. *)
Theorem colon_time_out_of_range_raises :
  forall (ZoneInfo : text -> option tzinfo) (clock : Z)
         (hh mm tz_str : text) (tz : tzinfo),
    ZoneInfo tz_str = Some tz ->
    forallb Py.is_digit hh = true -> hh <> [] -> (length hh <= 2)%nat ->
    forallb Py.is_digit mm = true -> mm <> [] -> (length mm <= 2)%nat ->
    (23 < decimal hh \/ 59 < decimal mm) ->
    parse_time_with_timezone ZoneInfo clock (hh ++ ":"%char :: mm) tz_str
    = Raise ValueError.
Proof.
  intros ZoneInfo clock hh mm tz_str tz Hzone Hhh Hne Hlh Hmm Hmne Hlm Hout.
  unfold parse_time_with_timezone.
  rewrite Hzone, (ClockMore.colon_read hh mm Hhh Hne Hmm Hmne).
  pose proof (CapturedTime.decimal_two_digits hh Hhh Hlh) as Hh.
  pose proof (CapturedTime.decimal_two_digits mm Hmm Hlm) as Hm.
  assert (Hr : replace (fromutc tz clock) (decimal hh) (decimal mm)
               = Raise ValueError).
  { apply replace_raises; try (apply small_fits; lia). unfold in_range. lia. }
  now rewrite Hr.
Qed.

Lemma colon_time_out_of_range_raises_example :
  parse_time_with_timezone zones 0 (T "24" ++ ":"%char :: T "00") (T "UTC")
  = Raise ValueError.
Proof.
  apply (colon_time_out_of_range_raises zones 0 (T "24") (T "00") (T "UTC")
           (fixed_zone 0)); try reflexivity; try discriminate;
    try (cbn; lia).
  left. change (decimal (T "24")) with 24. lia.
Defined.

Lemma add_raises (dt : datetime) (d s : Z) (e : exn) :
  add dt d s = Raise e ->
  e = OverflowError /\ ~ (MINDAY <= day (shifted dt d s) <= MAXDAY).
Proof.
  unfold add.
  destruct (Z.leb_spec MINDAY (day (shifted dt d s)));
    destruct (Z.leb_spec (day (shifted dt d s)) MAXDAY); cbn [andb];
    try discriminate; intro E; injection E as <-; split; try reflexivity; lia.
Qed.

(** The two sums raise only OverflowError, and only in the last two days of
    the calendar or before its first day. *)
Lemma first_sum_raises (now : datetime) (h m : Z) (e : exn) :
  0 <= h <= 23 -> 0 <= m <= 59 ->
  let r := {| day := day now; hour := h; minute := m; second := 0;
              microsecond := 0; fold := fold now |} in
  (if le r now then add r 1 0 else Ok r) = Raise e ->
  e = OverflowError /\ ~ two_days_left now.
Proof.
  intros Hh Hm r H1. unfold two_days_left.
  destruct (le r now); [|discriminate].
  apply add_raises in H1 as (-> & H1). split; [reflexivity|].
  unfold shifted, r in H1. cbn [day hour minute second] in H1.
  unfold MINDAY, MAXDAY in *.
  revert H1. Z.to_euclidean_division_equations. lia.
Qed.

Lemma second_sum_raises (now r1 : datetime) (h m : Z) (e : exn) :
  0 <= h <= 23 -> 0 <= m <= 59 ->
  let r := {| day := day now; hour := h; minute := m; second := 0;
              microsecond := 0; fold := fold now |} in
  (if le r now then add r 1 0 else Ok r) = Ok r1 ->
  add r1 0 RATE_LIMIT_BUFFER_SECONDS = Raise e ->
  e = OverflowError /\ ~ two_days_left now.
Proof.
  intros Hh Hm r H1 H2. unfold two_days_left.
  apply add_raises in H2 as (-> & H2). split; [reflexivity|].
  unfold RATE_LIMIT_BUFFER_SECONDS in H2.
  destruct (le r now).
  - apply FixedZone.added in H1 as (-> & _).
    unfold shifted, r in H2. cbn [day hour minute second] in H2.
    unfold MINDAY, MAXDAY in *.
    revert H2. Z.to_euclidean_division_equations. lia.
  - injection H1 as <-. unfold shifted, r in H2.
    cbn [day hour minute second] in H2.
    unfold MINDAY, MAXDAY in *.
    revert H2. Z.to_euclidean_division_equations. lia.
Qed.

(** X9: [main] of the resolver ends in an uncaught ValueError exactly when
    a time and a zone label are captured, the zone is known, and the hour
    or the minute read is outside the range of a clock.  It ends in an
    uncaught OverflowError only when the date of now in the captured zone
    leaves no two days before the end of the calendar, and it does so at
    noon of 9999-12-31 for a reset at 6am. *)
Theorem resolve_raises_iff :
  forall (ZoneInfo : text -> option tzinfo) (clock : Z) (content : text),
    (resolve ZoneInfo clock content = Raise ValueError
     <-> exists time_str tz_str tz h m,
           find_rate_limit_pattern content = (Some (time_str, tz_str), true)
           /\ ZoneInfo tz_str = Some tz
           /\ parse_hour_minute time_str = Some (h, m)
           /\ ~ in_range h m)
    /\ (resolve ZoneInfo clock content = Raise OverflowError ->
        exists time_str tz_str tz,
          find_rate_limit_pattern content = (Some (time_str, tz_str), true)
          /\ ZoneInfo tz_str = Some tz
          /\ ~ two_days_left (fromutc tz clock))
    /\ resolve zones (utc_us 9999 12 31 12 0 0) (T "resets 6am (UTC)")
       = Raise OverflowError.
Proof.
  intros ZoneInfo clock content.
  split; [|split; [|reflexivity]].
  - unfold resolve, parse_time_with_timezone.
    destruct (find_rate_limit_pattern content) as [[[t z]|] [|]] eqn:Hfound;
      cbn [negb];
      try (split; [discriminate|];
           intros (? & ? & ? & ? & ? & E & _); discriminate).
    destruct (CapturedTime.captured_time_read content t z Hfound)
      as (h & m & Hp & Hh & Hm).
    rewrite Hp.
    destruct (ZoneInfo z) as [tz|] eqn:Hz.
    + pose proof (replace_raises (fromutc tz clock) h m
                    (small_fits h Hh) (small_fits m ltac:(lia))) as Hiff.
      destruct (replace (fromutc tz clock) h m) as [r|e] eqn:Hr.
      * split.
        -- apply FixedZone.replaced in Hr as (-> & Hh' & Hm').
           destruct (if le _ (fromutc tz clock) then _ else _) as [r1|e1]
             eqn:H1.
           ++ destruct (add r1 0 RATE_LIMIT_BUFFER_SECONDS) as [r2|e2] eqn:H2;
                [discriminate|].
              intro E. injection E as ->.
              now destruct (second_sum_raises _ r1 h m _ Hh' Hm' H1 H2).
           ++ intro E. injection E as ->.
              now destruct (first_sum_raises _ h m _ Hh' Hm' H1).
        -- intros (t' & z' & tz' & h' & m' & E & Hz' & Hp' & Hout).
           injection E as <- <-. rewrite Hp in Hp'. injection Hp' as <- <-.
           apply Hiff in Hout. discriminate.
      * split.
        -- intro E. injection E as ->. exists t, z, tz, h, m.
           repeat split; try assumption; try reflexivity.
           now apply Hiff.
        -- intros (t' & z' & tz' & h' & m' & E & Hz' & Hp' & Hout).
           injection E as <- <-. rewrite Hp in Hp'. injection Hp' as <- <-.
           apply Hiff in Hout. now injection Hout as ->.
    + split; [discriminate|].
      intros (t' & z' & tz' & h' & m' & E & Hz' & _).
      injection E as <- <-. congruence.
  - unfold resolve, parse_time_with_timezone.
    destruct (find_rate_limit_pattern content) as [[[t z]|] [|]] eqn:Hfound;
      cbn [negb]; try discriminate.
    destruct (CapturedTime.captured_time_read content t z Hfound)
      as (h & m & Hp & Hh & Hm).
    rewrite Hp.
    destruct (ZoneInfo z) as [tz|] eqn:Hz; [|discriminate].
    pose proof (replace_raises (fromutc tz clock) h m
                  (small_fits h Hh) (small_fits m ltac:(lia))) as Hiff.
    destruct (replace (fromutc tz clock) h m) as [r|e] eqn:Hr.
    + apply FixedZone.replaced in Hr as (-> & Hh' & Hm').
      intro E. exists t, z, tz. split; [reflexivity|]. split; [exact Hz|].
      destruct (if le _ (fromutc tz clock) then _ else _) as [r1|e1] eqn:H1.
      * destruct (add r1 0 RATE_LIMIT_BUFFER_SECONDS) as [r2|e2] eqn:H2;
          [discriminate|].
        now destruct (second_sum_raises _ r1 h m _ Hh' Hm' H1 H2).
      * now destruct (first_sum_raises _ h m _ Hh' Hm' H1).
    + intro E. injection E as ->.
      assert (Hcontra : Raise OverflowError = Raise ValueError :> result datetime).
      { unfold replace in Hr.
        rewrite (small_fits h Hh), (small_fits m ltac:(lia)) in Hr.
        cbn [andb negb] in Hr.
        destruct (negb _); [now symmetry|].
        destruct (negb _); [now symmetry | discriminate]. }
      discriminate.
Qed.

(** X10: whatever the zone, a resolved reset time has the captured zone
    label, zero seconds and microseconds and fold 0; its time of day is
    the time read plus one minute, and its date is the date of now in
    that zone or one of the two days after. *)
Theorem reset_time_fields :
  forall (ZoneInfo : text -> option tzinfo) (clock : Z)
         (time_str tz_str : text) (epoch : Z) (reset : datetime) (z : text),
    parse_time_with_timezone ZoneInfo clock time_str tz_str
      = Ok (Some (epoch, reset, z)) ->
    z = tz_str /\ second reset = 0 /\ microsecond reset = 0 /\ fold reset = 0
    /\ exists tz h m,
         ZoneInfo tz_str = Some tz
         /\ parse_hour_minute time_str = Some (h, m)
         /\ in_range h m
         /\ hour reset * 60 + minute reset = (h * 60 + m + 1) mod 1440
         /\ day (fromutc tz clock) <= day reset <= day (fromutc tz clock) + 2
         /\ epoch = timestamp_int tz reset.
Proof.
  intros ZoneInfo clock time_str tz_str epoch reset z.
  unfold parse_time_with_timezone.
  destruct (ZoneInfo tz_str) as [tz|]; [|discriminate].
  destruct (parse_hour_minute time_str) as [[h m]|]; [|discriminate].
  destruct (replace (fromutc tz clock) h m) as [r|e] eqn:Hr; [|discriminate].
  apply FixedZone.replaced in Hr as (-> & Hh & Hm).
  remember (fromutc tz clock) as now eqn:Hnow.
  destruct (if le _ now then _ else _) as [r1|e1] eqn:H1; [|discriminate].
  destruct (add r1 0 RATE_LIMIT_BUFFER_SECONDS) as [r2|e2] eqn:H2;
    [|discriminate].
  destruct (FixedZone.rolled_and_buffered _ now H1 H2) as (-> & _).
  clear H1 H2.
  intro E. injection E as <- <- <-.
  split; [reflexivity|].
  assert (Hfields :
    forall b : bool,
      let r := {| day := day now; hour := h; minute := m; second := 0;
                  microsecond := 0; fold := fold now |} in
      let reset :=
        shifted (if b then shifted r 1 0 else r) 0 RATE_LIMIT_BUFFER_SECONDS in
      second reset = 0 /\ microsecond reset = 0 /\ fold reset = 0
      /\ hour reset * 60 + minute reset = (h * 60 + m + 1) mod 1440
      /\ day now <= day reset <= day now + 2).
  { intros [|]; unfold shifted, RATE_LIMIT_BUFFER_SECONDS;
      cbn [day hour minute second microsecond fold];
      repeat split; try reflexivity;
      Z.to_euclidean_division_equations; lia. }
  cbv zeta in Hfields.
  destruct (Hfields (le {| day := day now; hour := h; minute := m; second := 0;
                           microsecond := 0; fold := fold now |} now))
    as (H1 & H2 & H3 & H4 & H5).
  split; [exact H1|]. split; [exact H2|]. split; [exact H3|].
  exists tz, h, m. unfold in_range. rewrite <- Hnow.
  split; [reflexivity|]. split; [reflexivity|]. split; [lia|].
  split; [exact H4|]. split; [exact H5 | reflexivity].
Qed.

Lemma reset_time_fields_example :
  T "UTC" = T "UTC" /\ 0 = 0 /\ 0 = 0 /\ 0 = 0
  /\ exists tz h m,
       zones (T "UTC") = Some tz
       /\ parse_hour_minute (T "11:59pm") = Some (h, m)
       /\ in_range h m
       /\ 0 * 60 + 0 = (h * 60 + m + 1) mod 1440
       /\ day (fromutc tz (utc_us 2025 1 1 23 59 30))
          <= days_from_civil 2025 1 3
          <= day (fromutc tz (utc_us 2025 1 1 23 59 30)) + 2
       /\ 1735862400 = timestamp_int tz
            {| day := days_from_civil 2025 1 3; hour := 0; minute := 0;
               second := 0; microsecond := 0; fold := 0 |}.
Proof.
  exact (reset_time_fields zones (utc_us 2025 1 1 23 59 30)
           (T "11:59pm") (T "UTC") 1735862400
           {| day := days_from_civil 2025 1 3; hour := 0; minute := 0;
              second := 0; microsecond := 0; fold := 0 |}
           (T "UTC") eq_refl).
Defined.

(** X11: with a zone database of fixed offsets only, every epoch the
    resolver returns lies after the reading of the clock, by at most one
    day and the buffer of 60 seconds. *)
Theorem fixed_offsets_resolve_in_future :
  forall (ZoneInfo : text -> option tzinfo) (clock : Z) (content : text)
         (epoch : Z) (reset : datetime) (z : text),
    (forall tz_str tz, ZoneInfo tz_str = Some tz -> exists off, tz = fixed_zone off) ->
    resolve ZoneInfo clock content = Ok (DetectedResolved epoch reset z) ->
    clock < epoch * 1000000 <= clock + (86400 + 60) * 1000000.
Proof.
  intros ZoneInfo clock content epoch reset z Hfixed. unfold resolve.
  destruct (find_rate_limit_pattern content) as [[[t z0]|] [|]]; cbn [negb];
    try discriminate.
  destruct (parse_time_with_timezone ZoneInfo clock t z0)
    as [[[[e r] z1]|]|] eqn:Hp; try discriminate.
  intro E. injection E as <- <- <-.
  assert (Hz : exists off, ZoneInfo z0 = Some (fixed_zone off)).
  { unfold parse_time_with_timezone in Hp.
    destruct (ZoneInfo z0) as [tz|] eqn:Hz; [|discriminate].
    destruct (Hfixed z0 tz Hz) as (off & ->). now exists off. }
  destruct Hz as (off & Hz).
  exact (@FixedZone.fixed_zone_reset_in_future ZoneInfo clock off t z0 e r z1 Hz Hp).
Qed.

Lemma fixed_offsets_resolve_in_future_example :
  utc_us 2025 1 1 10 0 0 < 1735754460 * 1000000
  <= utc_us 2025 1 1 10 0 0 + (86400 + 60) * 1000000.
Proof.
  apply (fixed_offsets_resolve_in_future utc_only (utc_us 2025 1 1 10 0 0)
           limit_notice 1735754460
           {| day := days_from_civil 2025 1 1; hour := 18; minute := 1;
              second := 0; microsecond := 0; fold := 0 |} (T "UTC")).
  - intros tz_str tz. unfold utc_only.
    destruct (Py.eqt tz_str (T "UTC")); [|discriminate].
    intro E. injection E as <-. now exists 0.
  - reflexivity.
Defined.

End ResolverMore.

(** ** The learnings extractor *)
Module LearningsFacts.
Import Re JsonExtractorMain LearningsExtractor.

(** A lazy repetition stops at the first place where the rest of the match
    succeeds. *)
Lemma lazy_first (k : kont) :
  forall (s : text) (i : nat) (cs : caps) (res : nat * caps),
    rep false any_char 0 None k i s cs = Some res ->
    exists t s',
      s = t ++ s' /\ k (length t + i) s' cs = Some res
      /\ forall t1 t2, t = t1 ++ t2 -> t2 <> [] ->
                       k (length t1 + i) (t2 ++ s') cs = None.
Proof.
  induction s as [|c s IH]; intros i cs res H; cbn [rep] in H;
    apply MatcherSound.or_else_some in H as [H|[Hstop H]]; cbn in *.
  - exists [], []. repeat split; auto.
    intros [|x t1] t2 E; [cbn in E; now subst t2 | discriminate].
  - discriminate.
  - exists [], (c :: s). repeat split; auto.
    intros [|x t1] t2 E; [cbn in E; now subst t2 | discriminate].
  - destruct (IH (S i) cs res H) as (t & s' & -> & Hk & Hmin).
    exists (c :: t), s'. split; [reflexivity|]. split.
    + cbn [length]. rewrite Nat.add_succ_comm. exact Hk.
    + intros [|x t1] t2 E Hne.
      * cbn in E. subst t2. exact Hstop.
      * cbn in E. injection E as <- ->. cbn [length].
        rewrite Nat.add_succ_comm. now apply Hmin.
Qed.

Lemma starts_with_app (w s q : text) :
  Py.starts_with w s = true -> Py.starts_with w (s ++ q) = true.
Proof.
  revert s. induction w as [|c w IH]; intros s H; [reflexivity|].
  destruct s as [|x s]; [discriminate|]. cbn [Py.starts_with app] in *.
  apply andb_prop in H as [Hc Hw]. now rewrite Hc, IH.
Qed.

Lemma contains_app (w s q : text) :
  Py.contains w s = true -> Py.contains w (s ++ q) = true.
Proof.
  induction s as [|c s IH]; cbn [Py.contains app]; intro H.
  - rewrite orb_false_r in H. destruct w; [|discriminate].
    destruct q; reflexivity.
  - apply orb_prop in H as [H|H].
    + replace (c :: s ++ q) with ((c :: s) ++ q) by reflexivity.
      now rewrite (starts_with_app w (c :: s) q H).
    + rewrite (IH H). apply orb_true_r.
Qed.

Lemma contains_in_part (w a b : text) :
  part_of a b -> Py.contains w a = true -> Py.contains w b = true.
Proof.
  intros (p & q & ->) H. induction p as [|c p IH]; cbn [app].
  - now apply contains_app.
  - cbn [Py.contains]. rewrite IH. apply orb_true_r.
Qed.

(** What a match of the pattern records: group 1 is a piece of the text
    in which the fence line does not start. *)
Lemma match_group (content s : text) (i : nat) (res : nat * caps) :
  s = skipn i content ->
  rmatch false head tail i s [] = Some res ->
  Py.contains fence_line (group content (snd res) 1) = false.
Proof.
  intros Hs H. unfold head, word in H. cbn [rmatch] in H.
  rewrite LocatorFacts.rmatch_lits, LocatorFacts.lits_ok_exact in H.
  destruct (Py.starts_with (T "RALPH_LEARNINGS:") s) eqn:Hw; [|discriminate].
  apply LocatorMore.starts_with_prefix in Hw as (rest & Hrest).
  assert (Hskip : skipn (length (T "RALPH_LEARNINGS:")) s = rest)
    by (rewrite Hrest; apply LocatorFacts.skipn_prefix).
  rewrite Hskip in H.
  apply MatcherSound.rep_sound in H as (tw & s1 & -> & _ & H).
  apply lazy_first in H as (t & s' & -> & Hk & Hmin).
  unfold tail in Hk.
  assert (Hres : snd res
                 = [(1, (length tw + (length (T "RALPH_LEARNINGS:") + i),
                         length t + (length tw + (length (T "RALPH_LEARNINGS:") + i))))]).
  { destruct (Py.starts_with fence_line s'); [now injection Hk as <-|].
    destruct (at_end s'); [now injection Hk as <- | discriminate]. }
  rewrite Hres. unfold group. cbn [group_span Nat.eqb].
  assert (Hslice : Py.slice (length tw + (length (T "RALPH_LEARNINGS:") + i))
                     (length t + (length tw + (length (T "RALPH_LEARNINGS:") + i)))
                     content = t).
  { apply (MatcherSound.slice_after content t s').
    replace (length tw + (length (T "RALPH_LEARNINGS:") + i))
      with (length (T "RALPH_LEARNINGS:" ++ tw) + i)
      by (rewrite length_app; lia).
    symmetry. apply MatcherSound.skipn_after.
    rewrite <- Hs, Hrest. now rewrite <- app_assoc. }
  rewrite Hslice.
  destruct (Py.contains fence_line t) eqn:Hc; [|reflexivity].
  apply MatcherFacts.contains_split in Hc as (t1 & t2 & -> & Hstart).
  assert (Hne : t2 <> []) by (intros ->; discriminate).
  specialize (Hmin t1 t2 eq_refl Hne). unfold tail in Hmin.
  now rewrite (starts_with_app fence_line t2 s' Hstart) in Hmin.
Qed.

Lemma search_group (content : text) :
  forall (s : text) (i : nat) (res : nat * caps),
    s = skipn i content ->
    search_from i s = Some res ->
    Py.contains fence_line (group content (snd res) 1) = false.
Proof.
  induction s as [|c s IH]; intros i res Hs H; cbn [search_from] in H;
    destruct (rmatch false head tail i _ []) as [r|] eqn:Hm.
  - injection H as <-. now apply (match_group content [] i r).
  - discriminate.
  - injection H as <-. now apply (match_group content (c :: s) i r).
  - apply (IH (S i) res); [|exact H].
    apply (MatcherSound.skipn_after content [c] s i). now rewrite <- Hs.
Qed.

Lemma drop_while_twice (f : ascii -> bool) (s : text) :
  Py.drop_while f (Py.drop_while f s) = Py.drop_while f s.
Proof.
  induction s as [|c s IH]; [reflexivity|].
  cbn [Py.drop_while]. destruct (f c) eqn:E; [exact IH|].
  cbn [Py.drop_while]. now rewrite E.
Qed.

Lemma drop_while_prefix (f : ascii -> bool) (x p q : text) :
  x = p ++ q -> Py.drop_while f x = x -> Py.drop_while f p = p.
Proof.
  intros -> H. destruct p as [|c p]; [reflexivity|].
  cbn [app Py.drop_while] in *. destruct (f c); [|reflexivity].
  exfalso.
  destruct (LocatorMore.drop_while_suffix f (p ++ q)) as (r & Hr).
  rewrite H in Hr. apply (f_equal (@length ascii)) in Hr.
  rewrite !length_app in Hr. cbn [length] in Hr. rewrite length_app in Hr. lia.
Qed.

Lemma strip_twice (s : text) : Py.strip (Py.strip s) = Py.strip s.
Proof.
  unfold Py.strip, Py.lstrip, Py.rstrip, Py.rstrip_set.
  set (x := Py.drop_while Py.is_space s).
  assert (Hx : Py.drop_while Py.is_space x = x) by apply drop_while_twice.
  destruct (LocatorMore.drop_while_suffix Py.is_space (rev x)) as (r & Hr).
  set (y := Py.drop_while Py.is_space (rev x)) in *.
  assert (Hp : x = rev y ++ rev r).
  { rewrite <- (rev_involutive x), Hr. apply rev_app_distr. }
  rewrite (drop_while_prefix Py.is_space x (rev y) (rev r) Hp Hx).
  rewrite rev_involutive. unfold y. now rewrite drop_while_twice.
Qed.

(** X14: a text printed by [extract_learnings] is not empty and is not a
    lone dash, has no white space at its ends, is a contiguous part of the
    file, and holds no line that opens a fence: the learnings stop before
    the closing fence of their block. *)
Theorem printed_learnings :
  forall content learnings : text,
    extract_learnings (Some content) = Some learnings ->
    learnings <> [] /\ learnings <> T "-"
    /\ Py.strip learnings = learnings
    /\ (exists before after, content = before ++ learnings ++ after)
    /\ Py.contains fence_line learnings = false.
Proof.
  intros content learnings. unfold extract_learnings.
  destruct (search_from 0 content) as [[j cs]|] eqn:Hsearch; [|discriminate].
  destruct (Py.eqt (Py.strip (group content cs 1)) []) eqn:E1; [discriminate|].
  destruct (Py.eqt (Py.strip (group content cs 1)) (T "-")) eqn:E2;
    [discriminate|].
  cbn [negb andb]. intro H. injection H as <-.
  split; [intro E; now rewrite E in E1|].
  split; [intro E; now rewrite E in E2|].
  split; [apply strip_twice|].
  assert (Hpart : part_of (Py.strip (group content cs 1)) (group content cs 1))
    by apply LocatorMore.strip_part.
  split.
  - exact (LocatorMore.part_of_trans Hpart
             (LocatorMore.group_part content cs 1)).
  - pose proof (search_group content content 0 (j, cs) eq_refl Hsearch) as Hno.
    cbn [snd] in Hno.
    destruct (Py.contains fence_line (Py.strip (group content cs 1))) eqn:Hc;
      [|reflexivity].
    now rewrite (contains_in_part fence_line _ _ Hpart Hc) in Hno.
Qed.

Lemma printed_learnings_example :
  T "cache the parser" <> [] /\ T "cache the parser" <> T "-"
  /\ Py.strip (T "cache the parser") = T "cache the parser"
  /\ (exists before after,
        T "```" ++ JsonExtractor.nl ++ T "RALPH_LEARNINGS: cache the parser "
          ++ fence_line ++ T " done"
        = before ++ T "cache the parser" ++ after)
  /\ Py.contains fence_line (T "cache the parser") = false.
Proof.
  exact (printed_learnings
           (T "```" ++ JsonExtractor.nl ++ T "RALPH_LEARNINGS: cache the parser "
              ++ fence_line ++ T " done")
           (T "cache the parser") eq_refl).
Defined.

Lemma no_marker_no_match (s : text) (i : nat) :
  Py.contains (T "RALPH_LEARNINGS:") s = false -> search_from i s = None.
Proof.
  revert i. induction s as [|c s IH]; intros i H; cbn [Py.contains] in H;
    apply orb_false_elim in H as [Hhead Htail]; cbn [search_from];
    unfold head, word; cbn [rmatch];
    rewrite LocatorFacts.rmatch_lits, LocatorFacts.lits_ok_exact, Hhead.
  - reflexivity.
  - now apply IH.
Qed.

(** X15: for a file that does not hold the marker RALPH_LEARNINGS followed
    by a colon, and for a file that cannot be read, nothing is printed. *)
Theorem no_marker_nothing_printed :
  forall file : option text,
    match file with
    | Some content => Py.contains (T "RALPH_LEARNINGS:") content = false
    | None => True
    end ->
    extract_learnings file = None.
Proof.
  intros [content|] H; [|reflexivity].
  unfold extract_learnings. now rewrite (no_marker_no_match content 0 H).
Qed.

Lemma no_marker_nothing_printed_example :
  extract_learnings (Some (T "RALPH_LEARNINGS - none this time")) = None.
Proof.
  apply (no_marker_nothing_printed (Some (T "RALPH_LEARNINGS - none this time"))).
  reflexivity.
Defined.

End LearningsFacts.

(** ** The first block of learnings *)
Module LearningsBlock.
Import Re JsonExtractorMain LearningsExtractor LearningsSpec.

Lemma search_skips (rest : text) :
  forall (pre : text) (i : nat),
    absent_before pre rest = true ->
    search_from i (pre ++ rest) = search_from (length pre + i) rest.
Proof.
  induction pre as [|c pre IH]; intros i H; [reflexivity|].
  cbn [absent_before] in H. apply andb_prop in H as [Hc Hpre].
  apply negb_true_iff in Hc. cbn [app search_from] in *.
  unfold head at 1, word. cbn [rmatch].
  rewrite LocatorFacts.rmatch_lits, LocatorFacts.lits_ok_exact.
  fold marker. rewrite Hc, (IH (S i) Hpre). cbn [length].
  now rewrite Nat.add_succ_comm.
Qed.

(** A greedy repetition that can take all of [ws] and nothing more goes on
    from there when the rest of the match succeeds there. *)
Lemma greedy_all (p : ascii -> bool) (k : kont) (rest : text) (cs : caps)
    (res : nat * caps) :
  match rest with c :: _ => p c = false | [] => True end ->
  forall (ws : text) (i : nat),
    forallb p ws = true ->
    k (length ws + i) rest cs = Some res ->
    rep true p 0 None k i (ws ++ rest) cs = Some res.
Proof.
  intros Hrest. induction ws as [|c ws IH]; intros i Hws Hk.
  - cbn [app length Nat.add] in *. destruct rest as [|x rest]; cbn [rep].
    + cbn. exact Hk.
    + rewrite Hrest. cbn. exact Hk.
  - cbn [forallb] in Hws. apply andb_prop in Hws as [Hc Hws].
    cbn [app rep]. rewrite Hc. cbn [andb may_repeat pred dec option_map].
    rewrite (IH (S i) Hws); [reflexivity|].
    cbn [length] in Hk. now rewrite Nat.add_succ_comm in Hk.
Qed.

(** A lazy repetition over [body] ends where the pattern can first end. *)
Lemma lazy_to_end (rest : text) (i0 : nat) (cs : caps) :
  ends_here rest = true ->
  forall (body : text) (i : nat),
    runs_on body rest = true ->
    exists j,
      rep false any_char 0 None
        (fun j s' cs' => tail j s' ((1, (i0, j)) :: cs')) i (body ++ rest) cs
      = Some (j, (1, (i0, length body + i)) :: cs).
Proof.
  intros Hrest. induction body as [|c body IH]; intros i Hbody.
  - cbn [app length Nat.add].
    assert (Hk : exists j, tail i rest ((1, (i0, i)) :: cs)
                           = Some (j, (1, (i0, i)) :: cs)).
    { unfold tail. unfold ends_here in Hrest.
      destruct (Py.starts_with fence_line rest); [now eexists|].
      cbn [orb] in Hrest. rewrite Hrest. now eexists. }
    destruct Hk as (j & Hk). exists j.
    destruct rest as [|x rest]; cbn [rep]; cbn [Nat.eqb]; now rewrite Hk.
  - cbn [runs_on] in Hbody. apply andb_prop in Hbody as [Hc Hbody].
    apply negb_true_iff in Hc. unfold ends_here in Hc.
    apply orb_false_elim in Hc as [Hf He].
    destruct (IH (S i) Hbody) as (j & Hj). exists j.
    cbn [app rep]. cbn [Nat.eqb]. unfold tail at 1.
    cbn [app] in Hf, He. rewrite Hf, He. cbn [or_else].
    cbn [any_char andb may_repeat pred dec option_map].
    rewrite Hj. cbn [length]. now rewrite Nat.add_succ_comm.
Qed.

Lemma first_block_group (pre ws body rest : text) :
  absent_before pre (marker ++ ws ++ body ++ rest) = true ->
  forallb Py.is_space ws = true ->
  starts_with_space (body ++ rest) = false ->
  runs_on body rest = true ->
  ends_here rest = true ->
  exists j cs,
    search_from 0 (pre ++ marker ++ ws ++ body ++ rest) = Some (j, cs)
    /\ group (pre ++ marker ++ ws ++ body ++ rest) cs 1 = body.
Proof.
  intros Hpre Hws Hblack Hbody Hrest.
  rewrite (search_skips _ pre 0 Hpre).
  destruct (lazy_to_end rest (length ws + (length marker + (length pre + 0))) []
              Hrest body (length ws + (length marker + (length pre + 0))) Hbody)
    as (j & Hj).
  exists j, [(1, (length ws + (length marker + (length pre + 0)),
                  length body + (length ws + (length marker + (length pre + 0)))))].
  split.
  - assert (Hm : rmatch false head tail (length pre + 0)
                   (marker ++ ws ++ body ++ rest) []
                 = Some (j, [(1, (length ws + (length marker + (length pre + 0)),
                                  length body
                                  + (length ws + (length marker + (length pre + 0)))))])).
    { unfold head, word. cbn [rmatch]. fold marker.
      rewrite LocatorFacts.rmatch_lits, LocatorFacts.lits_ok_exact.
      rewrite ClockReading.starts_with_refl, LocatorFacts.skipn_prefix.
      apply greedy_all; [|exact Hws|exact Hj].
      unfold starts_with_space in Hblack.
      destruct (body ++ rest); [exact I | exact Hblack]. }
    destruct (marker ++ ws ++ body ++ rest); cbn [search_from]; now rewrite Hm.
  - unfold group. cbn [group_span Nat.eqb].
    apply (MatcherSound.slice_after _ body rest).
    replace (length ws + (length marker + (length pre + 0)))
      with (length (pre ++ marker ++ ws)) by (rewrite !length_app; lia).
    replace (pre ++ marker ++ ws ++ body ++ rest)
      with ((pre ++ marker ++ ws) ++ body ++ rest)
      by (now rewrite <- !app_assoc).
    apply LocatorFacts.skipn_prefix.
Qed.

Lemma printed_of_group (content body : text) (j : nat) (cs : caps) :
  search_from 0 content = Some (j, cs) ->
  group content cs 1 = body ->
  extract_learnings (Some content) = printed body.
Proof.
  intros Hs Hg. unfold extract_learnings, printed. rewrite Hs, Hg.
  destruct (Py.eqt (Py.strip body) []); [reflexivity|].
  destruct (Py.eqt (Py.strip body) (T "-")); reflexivity.
Qed.

(** X16: the learnings are read after the first marker and the white space
    that follows it, and run to the first place where a line opening a
    fence starts or the text ends (a last newline apart).  They are printed
    stripped, unless that leaves nothing or a lone dash. *)
Theorem first_block_printed :
  forall pre ws body rest : text,
    absent_before pre (marker ++ ws ++ body ++ rest) = true ->
    forallb Py.is_space ws = true ->
    starts_with_space (body ++ rest) = false ->
    runs_on body rest = true ->
    ends_here rest = true ->
    extract_learnings (Some (pre ++ marker ++ ws ++ body ++ rest))
    = printed body.
Proof.
  intros pre ws body rest Hpre Hws Hblack Hbody Hrest.
  destruct (first_block_group pre ws body rest Hpre Hws Hblack Hbody Hrest)
    as (j & cs & Hs & Hg).
  exact (printed_of_group _ _ _ _ Hs Hg).
Qed.

Lemma first_block_printed_example :
  extract_learnings
    (Some (T "notes " ++ marker ++ T "  " ++ T "keep `x` small " ++
           fence_line ++ JsonExtractor.nl ++ marker ++ T " later"))
  = Some (T "keep `x` small").
Proof.
  apply (first_block_printed (T "notes ") (T "  ") (T "keep `x` small ")
           (fence_line ++ JsonExtractor.nl ++ marker ++ T " later"));
    reflexivity.
Defined.

Lemma no_backtick_runs_on (post : text) :
  forall body : text,
    no_backtick body = true -> runs_on body (fence_line ++ post) = true.
Proof.
  induction body as [|c body IH]; intro H; [reflexivity|].
  cbn [no_backtick forallb] in H. apply andb_prop in H as [Hc Hb].
  cbn [runs_on]. rewrite (IH Hb), andb_true_r. apply negb_true_iff.
  unfold ends_here. apply orb_false_intro.
  - unfold fence_line at 1. cbn [app Py.starts_with].
    destruct (Py.eqc (ascii_of_nat 10) c); [|reflexivity]. cbn [andb].
    destruct body as [|d body].
    + reflexivity.
    + cbn [no_backtick forallb] in Hb. apply andb_prop in Hb as [Hd _].
      apply negb_true_iff in Hd. cbn [app T list_ascii_of_string Py.starts_with].
      rewrite LocatorFacts.eqc_sym in Hd. now rewrite Hd.
  - destruct body; reflexivity.
Qed.

(** X17: after the first marker and the white space behind it, learnings
    that begin with a character other than white space, hold no backtick
    and are closed by a fence line are printed stripped, whatever follows
    the fence line; nothing is printed when they are a lone dash. *)
Theorem fenced_learnings_printed :
  forall pre ws body post : text,
    absent_before pre (marker ++ ws ++ body ++ fence_line ++ post) = true ->
    forallb Py.is_space ws = true ->
    starts_with_space (body ++ fence_line) = false ->
    no_backtick body = true ->
    extract_learnings (Some (pre ++ marker ++ ws ++ body ++ fence_line ++ post))
    = printed body.
Proof.
  intros pre ws body post Hpre Hws Hblack Hbody.
  assert (Hb : starts_with_space (body ++ fence_line ++ post) = false).
  { destruct body; [discriminate | exact Hblack]. }
  destruct (first_block_group pre ws body (fence_line ++ post) Hpre Hws Hb
              (no_backtick_runs_on post body Hbody) eq_refl)
    as (j & cs & Hs & Hg).
  exact (printed_of_group _ _ _ _ Hs Hg).
Qed.

Lemma fenced_learnings_printed_example :
  extract_learnings
    (Some (T "```" ++ JsonExtractor.nl ++ marker ++ T " " ++
           (T "one" ++ JsonExtractor.nl ++ T "two  ") ++
           fence_line ++ T " and more"))
  = Some (T "one" ++ JsonExtractor.nl ++ T "two").
Proof.
  apply (fenced_learnings_printed (T "```" ++ JsonExtractor.nl) (T " ")
           (T "one" ++ JsonExtractor.nl ++ T "two  ") (T " and more"));
    reflexivity.
Defined.

(** X18: when the fence line comes right after the marker and its white
    space, the newline of the fence line is taken as white space too: the
    learnings then begin at the backticks and run to the next place where
    a fence line starts or the text ends. *)
Theorem empty_block_prints_fence :
  forall pre ws body rest : text,
    absent_before pre (marker ++ ws ++ fence_line ++ body ++ rest) = true ->
    forallb Py.is_space ws = true ->
    runs_on (T "```" ++ body) rest = true ->
    ends_here rest = true ->
    extract_learnings (Some (pre ++ marker ++ ws ++ fence_line ++ body ++ rest))
    = printed (T "```" ++ body).
Proof.
  intros pre ws body rest Hpre Hws Hbody Hrest.
  assert (E : ws ++ fence_line ++ body ++ rest
              = (ws ++ JsonExtractor.nl) ++ (T "```" ++ body) ++ rest).
  { unfold fence_line. rewrite <- !app_assoc. reflexivity. }
  rewrite E in *.
  assert (Hws' : forallb Py.is_space (ws ++ JsonExtractor.nl) = true).
  { rewrite forallb_app, Hws. reflexivity. }
  destruct (first_block_group pre (ws ++ JsonExtractor.nl) (T "```" ++ body)
              rest Hpre Hws' eq_refl Hbody Hrest)
    as (j & cs & Hs & Hg).
  exact (printed_of_group _ _ _ _ Hs Hg).
Qed.

Lemma empty_block_prints_fence_example :
  extract_learnings
    (Some (marker ++ T " " ++ fence_line ++ (JsonExtractor.nl ++ T "Done.") ++
           JsonExtractor.nl))
  = Some (T "```" ++ JsonExtractor.nl ++ T "Done.").
Proof.
  apply (empty_block_prints_fence [] (T " ") (JsonExtractor.nl ++ T "Done.")
           JsonExtractor.nl); reflexivity.
Defined.

End LearningsBlock.
